(** * TunTapInterface: a shallow embedding of
      include/sdr-network/network/tun_tap_interface.h and
      src/network/tun_tap_interface.cpp (the [__linux__] build).

    The class owns a file descriptor, a capture thread and four atomic
    counters.  Objects live in a store indexed by their address, because the
    code depends on object identity: the move-assignment operator tests
    [this != &other], and the capture thread is started with [this] and keeps
    that pointer for its whole life.

    System calls are the environment.  Each call of a member function takes
    the results of the system calls it performs as an argument, so a statement
    quantified over these arguments holds for every behaviour of the kernel.

    Granularity: a call of a member function and one iteration of the capture
    loop are atomic steps, so a call finds every capture thread at its loop
    test: an iteration that is in flight while a member function runs is not
    represented.  Memory allocation and the creation of a thread are taken
    to succeed.  The text of [strerror] is left to the C library: an error
    line is recorded with the value of [errno]. *)

From Stdlib Require Import ZArith String Ascii Strings.Byte List Bool Lia.
From stdpp Require Import base option gmap list strings pretty.

Local Open Scope Z_scope.

(** ** Machine integers *)

(** [std::atomic<uint64_t>]: arithmetic is modulo 2^64. *)
Definition wrap64 (z : Z) : Z := z mod 2 ^ 64.

Definition uint64_range (z : Z) : Prop := 0 <= z < 2 ^ 64.

(** ** Constants of the system headers *)

Definition IFNAMSIZ : nat := 16.
Definition IFF_TUN : Z := 1.
Definition IFF_TAP : Z := 2.
Definition IFF_NO_PI : Z := 4096.
Definition O_NONBLOCK : Z := 2048.
Definition IFF_UP : Z := 1.
Definition IFF_RUNNING : Z := 64.
Definition EAGAIN : Z := 11.
Definition EWOULDBLOCK : Z := 11.

(** ** The class *)

Definition addr := nat.    (* address of a TunTapInterface object *)
Definition tid := nat.     (* a std::thread *)
Definition buf_id := nat.  (* a std::vector<uint8_t> object *)
Definition hid := nat.     (* a packet handler (std::function) *)

Bind Scope nat_scope with addr tid buf_id hid.

Inductive Type_ := TUN | TAP.

Record TunTapInterface := mkTunTap {
  name_ : string;
  type_ : Type_;
  fd_ : Z;
  running_ : bool;
  capture_thread_ : option tid;
  packets_received_ : Z;
  packets_sent_ : Z;
  bytes_received_ : Z;
  bytes_sent_ : Z
}.

Definition with_name (s : string) (o : TunTapInterface) : TunTapInterface :=
  mkTunTap s (type_ o) (fd_ o) (running_ o) (capture_thread_ o)
    (packets_received_ o) (packets_sent_ o) (bytes_received_ o) (bytes_sent_ o).

Definition with_fd (fd : Z) (o : TunTapInterface) : TunTapInterface :=
  mkTunTap (name_ o) (type_ o) fd (running_ o) (capture_thread_ o)
    (packets_received_ o) (packets_sent_ o) (bytes_received_ o) (bytes_sent_ o).

Definition with_running (b : bool) (o : TunTapInterface) : TunTapInterface :=
  mkTunTap (name_ o) (type_ o) (fd_ o) b (capture_thread_ o)
    (packets_received_ o) (packets_sent_ o) (bytes_received_ o) (bytes_sent_ o).

Definition with_capture_thread (t : option tid) (o : TunTapInterface)
  : TunTapInterface :=
  mkTunTap (name_ o) (type_ o) (fd_ o) (running_ o) t
    (packets_received_ o) (packets_sent_ o) (bytes_received_ o) (bytes_sent_ o).

(** [packets_received_++; bytes_received_ += nread;] *)
Definition count_received (nread : Z) (o : TunTapInterface) : TunTapInterface :=
  mkTunTap (name_ o) (type_ o) (fd_ o) (running_ o) (capture_thread_ o)
    (wrap64 (packets_received_ o + 1)) (packets_sent_ o)
    (wrap64 (bytes_received_ o + nread)) (bytes_sent_ o).

(** [packets_sent_++; bytes_sent_ += written;] *)
Definition count_sent (written : Z) (o : TunTapInterface) : TunTapInterface :=
  mkTunTap (name_ o) (type_ o) (fd_ o) (running_ o) (capture_thread_ o)
    (packets_received_ o) (wrap64 (packets_sent_ o + 1))
    (bytes_received_ o) (wrap64 (bytes_sent_ o + written)).

(** The inline accessors of the header. *)
Definition getName (o : TunTapInterface) : string := name_ o.
Definition getPacketsReceived (o : TunTapInterface) : Z := packets_received_ o.
Definition getPacketsSent (o : TunTapInterface) : Z := packets_sent_ o.
Definition getBytesReceived (o : TunTapInterface) : Z := bytes_received_ o.
Definition getBytesSent (o : TunTapInterface) : Z := bytes_sent_ o.
Definition isRunning (o : TunTapInterface) : bool := running_ o.

(** ** Threads, events and the world *)

(** Where a capture thread is in [captureThreadFunc]: not yet entered, in the
    loop with its scratch [buffer], or returned. *)
Inductive thread_pc :=
| Starting
| Looping (buffer : buf_id)
| Finished.

(** [std::thread(&TunTapInterface::captureThreadFunc, this, packet_handler)] *)
Record Thread := mkThread {
  th_this : addr;
  th_handler : hid;
  th_pc : thread_pc
}.

Inductive stream := Cout | Cerr.

(** An IPv4 address: the four bytes of [sin_addr], in network order. *)
Definition in_addr : Type := N * N * N * N.

(** What the [ifreq] of a request on the configuration socket carries
    besides the interface name: nothing that the code has set, the flags, or
    an address of family [AF_INET] with port 0. *)
Inductive ifreq_arg :=
| IfrNone
| IfrFlags (flags : Z)
| IfrAddr (a : in_addr).

(** [EvPrint s msg] is [s << msg << std::endl];
    [EvPrintErrno s msg e] is [s << msg << strerror(e) << std::endl], with
    [e] the value of [errno]. *)
Inductive event :=
| EvOpenTun (ret : Z)
| EvTunSetIff (fd : Z) (ifr_name : string) (ifr_flags : Z) (ret : Z)
| EvGetFl (fd : Z) (ret : Z)
| EvSetFl (fd : Z) (flags : Z) (ret : Z)
| EvSocket (ret : Z)
| EvSockIoctl (sock : Z) (request : string) (ifr_name : string)
    (arg : ifreq_arg) (ret : Z)
| EvClose (fd : Z)
| EvRead (fd : Z) (count : nat) (ret : Z)
| EvWrite (fd : Z) (data : list byte) (ret : Z)
| EvSleep (ms : Z)
| EvPrint (s : stream) (msg : string)
| EvPrintErrno (s : stream) (msg : string) (errno : Z)
| EvSpawn (t : tid) (this : addr) (h : hid)
| EvJoin (t : tid)
| EvHandler (t : tid) (h : hid) (packet : buf_id) (data : list byte).

Record World := mkWorld {
  objs : gmap addr TunTapInterface;
  threads : gmap tid Thread;          (* the joinable std::thread objects *)
  vectors : gmap buf_id (list byte);  (* the live std::vector<uint8_t> objects *)
  trace : list event
}.

(** The identity that the next thread, and the next vector, receives: one
    that no joinable thread, and no live vector, has. *)
Definition next_tid (w : World) : tid := fresh (dom (threads w)).
Definition next_buf (w : World) : buf_id := fresh (dom (vectors w)).

Definition with_objs (f : gmap addr TunTapInterface -> gmap addr TunTapInterface)
  (w : World) : World :=
  mkWorld (f (objs w)) (threads w) (vectors w) (trace w).

Definition with_threads (f : gmap tid Thread -> gmap tid Thread)
  (w : World) : World :=
  mkWorld (objs w) (f (threads w)) (vectors w) (trace w).

Definition with_vectors (f : gmap buf_id (list byte) -> gmap buf_id (list byte))
  (w : World) : World :=
  mkWorld (objs w) (threads w) (f (vectors w)) (trace w).

Definition with_trace (f : list event -> list event) (w : World) : World :=
  mkWorld (objs w) (threads w) (vectors w) (f (trace w)).

(** ** Outcomes and the monad of member functions *)

Inductive failure :=
| Hang        (* the caller blocks in [join] and the thread does not return *)
| Terminate   (* [std::terminate] *)
| Undefined.  (* use of an object that does not exist *)

Inductive res (A : Type) :=
| Done (a : A) (w : World)
| Fail (f : failure).
Arguments Done {A} a w.
Arguments Fail {A} f.

Definition M (A : Type) : Type := World -> res A.

Definition ret {A} (a : A) : M A := fun w => Done a w.

Definition bind {A B} (m : M A) (k : A -> M B) : M B :=
  fun w => match m w with
           | Done a w' => k a w'
           | Fail f => Fail f
           end.

Definition fail {A} (f : failure) : M A := fun _ => Fail f.

Notation "x <- m ;; k" := (bind m (fun x => k))
  (at level 100, m at next level, right associativity).
Notation "m ;; k" := (bind m (fun _ => k))
  (at level 100, right associativity).

Definition emit (e : event) : M unit :=
  fun w => Done tt (with_trace (fun tr => tr ++ [e]) w).

Definition print (s : stream) (msg : string) : M unit := emit (EvPrint s msg).

Definition get_obj (this : addr) : M TunTapInterface :=
  fun w => match objs w !! this with
           | Some o => Done o w
           | None => Fail Undefined
           end.

Definition modify_obj (this : addr) (f : TunTapInterface -> TunTapInterface)
  : M unit :=
  fun w => match objs w !! this with
           | Some o => Done tt (with_objs (insert this (f o)) w)
           | None => Fail Undefined
           end.

Definition get_thread (t : tid) : M Thread :=
  fun w => match threads w !! t with
           | Some th => Done th w
           | None => Fail Undefined
           end.

Definition set_pc (t : tid) (pc : thread_pc) : M unit :=
  fun w => match threads w !! t with
           | Some th =>
               Done tt (with_threads
                          (insert t (mkThread (th_this th) (th_handler th) pc)) w)
           | None => Fail Undefined
           end.

(** [std::thread::joinable()] of the thread object [t]. *)
Definition joinable (t : tid) : M bool :=
  fun w => Done (bool_decide (is_Some (threads w !! t))) w.

(** Construction and destruction of a [std::vector<uint8_t>]. *)
Definition new_vector (data : list byte) : M buf_id :=
  fun w => Done (next_buf w) (with_vectors (insert (next_buf w) data) w).

Definition delete_vector (b : buf_id) : M unit :=
  fun w => Done tt (with_vectors (delete b) w).

Definition get_vector (b : buf_id) : M (list byte) :=
  fun w => match vectors w !! b with
           | Some d => Done d w
           | None => Fail Undefined
           end.

Definition set_vector (b : buf_id) (d : list byte) : M unit :=
  fun w => match vectors w !! b with
           | Some _ => Done tt (with_vectors (insert b d) w)
           | None => Fail Undefined
           end.

(** ** System calls *)

(** [c_str()] read as a C string: the characters before the first NUL. *)
Fixpoint c_str (s : string) : string :=
  match s with
  | EmptyString => EmptyString
  | String c s' => if Ascii.eqb c Ascii.zero then EmptyString
                   else String c (c_str s')
  end.

(** [strncpy(dst, src.c_str(), n)] into a zeroed array, read back as a C
    string. *)
Definition strncpy (n : nat) (src : string) : string :=
  substring 0 n (c_str src).

(** [inet_pton(AF_INET, src, dst)]: [src] is accepted when it is four
    decimal numbers between 0 and 255, of one to three digits and without a
    leading zero, separated by dots.  [None] stands for the result 0, which
    leaves [dst] as it was. *)
Definition digit (c : ascii) : option N :=
  let n := N_of_ascii c in
  if ((48 <=? n) && (n <=? 57))%N then Some (n - 48)%N else None.

Definition octet (s : string) : option N :=
  match s with
  | String a EmptyString => digit a
  | String a (String b EmptyString) =>
      match digit a, digit b with
      | Some x, Some y => if (x =? 0)%N then None else Some (10 * x + y)%N
      | _, _ => None
      end
  | String a (String b (String c EmptyString)) =>
      match digit a, digit b, digit c with
      | Some x, Some y, Some z =>
          if ((x =? 0) || (255 <? 100 * x + 10 * y + z))%N then None
          else Some (100 * x + 10 * y + z)%N
      | _, _, _ => None
      end
  | _ => None
  end.

(** The parts of a string between the occurrences of [sep]. *)
Fixpoint fields (sep : ascii) (s : string) : list string :=
  match s with
  | EmptyString => [EmptyString]
  | String c s' =>
      if Ascii.eqb c sep then EmptyString :: fields sep s'
      else match fields sep s' with
           | f :: fs => String c f :: fs
           | [] => [String c EmptyString]
           end
  end.

Definition inet_pton (src : string) : option in_addr :=
  match fields "." (c_str src) with
  | [a; b; c; d] =>
      match octet a, octet b, octet c, octet d with
      | Some x, Some y, Some z, Some t => Some (x, y, z, t)
      | _, _, _, _ => None
      end
  | _ => None
  end.

(** [memset(&ifr, 0, sizeof(ifr)); ... inet_pton(AF_INET, text.c_str(),
    &addr->sin_addr);]: the address in the request.  The result of
    [inet_pton] is not looked at, so a text that it does not accept leaves
    0.0.0.0 there. *)
Definition sin_addr (text : string) : in_addr :=
  match inet_pton text with
  | Some a => a
  | None => (0, 0, 0, 0)%N
  end.

(** What the kernel answers during [initialize]; [init_errno] is [errno]
    as the call that failed leaves it. *)
Record init_sys := mkInitSys {
  open_ret : Z;            (* open("/dev/net/tun", O_RDWR) *)
  tunsetiff_ret : Z;       (* ioctl(fd_, TUNSETIFF, &ifr) *)
  tunsetiff_name : string; (* ifr.ifr_name as the kernel leaves it *)
  getfl_ret : Z;           (* fcntl(fd_, F_GETFL) *)
  setfl_ret : Z;           (* fcntl(fd_, F_SETFL, flags | O_NONBLOCK) *)
  init_errno : Z
}.

(** What the kernel answers during [configure]; [configure_errno] is
    [errno] as the call that failed leaves it. *)
Record configure_sys := mkConfigureSys {
  socket_ret : Z;          (* socket(AF_INET, SOCK_DGRAM, 0) *)
  getifflags_ret : Z;      (* ioctl(sock, SIOCGIFFLAGS, &ifr) *)
  setifflags_ret : Z;      (* ioctl(sock, SIOCSIFFLAGS, &ifr) *)
  setifaddr_ret : Z;       (* ioctl(sock, SIOCSIFADDR, &ifr) *)
  setifnetmask_ret : Z;    (* ioctl(sock, SIOCSIFNETMASK, &ifr) *)
  getifflags_flags : Z;    (* ifr.ifr_flags as SIOCGIFFLAGS leaves it *)
  configure_errno : Z
}.

(** [write(fd, data, len)]: an error with its [errno], or the number of bytes
    the kernel accepted, never more than [len]. *)
Inductive write_sys :=
| WriteErr (errno : Z)
| WriteOk (n : nat).

Definition sys_write (len : nat) (k : write_sys) : Z :=
  match k with
  | WriteErr _ => -1
  | WriteOk n => Z.of_nat (Nat.min n len)
  end.

Definition write_errno (k : write_sys) : Z :=
  match k with
  | WriteErr e => e
  | WriteOk _ => 0
  end.

(** [read(fd, buf, count)]: an error with its [errno], or the bytes the kernel
    delivers; at most [count] of them are stored at the start of [buf]. *)
Inductive read_sys :=
| ReadErr (errno : Z)
| ReadOk (data : list byte).

Definition sys_read (buf : list byte) (k : read_sys) : Z * list byte :=
  match k with
  | ReadErr _ => (-1, buf)
  | ReadOk data =>
      let d := take (length buf) data in
      (Z.of_nat (length d), d ++ drop (length d) buf)
  end.

Definition read_errno (k : read_sys) : Z :=
  match k with
  | ReadErr e => e
  | ReadOk _ => 0
  end.

(** ** Packet handlers *)

(** How a call [packet_handler(packet)] ends: it returns, it throws an object
    whose class derives from [std::exception], or it throws anything else. *)
Inductive hres :=
| HReturn (w : World)
| HThrowStd (what : string) (w : World)
| HThrowOther (w : World).

Inductive loop_ctl := Continue | Exit.

Definition buffer_size : nat := 2048.

(** The state a moved-from [std::string] is left in (empty in libstdc++ and
    libc++). *)
Definition moved_from_string : string := EmptyString.

Definition type_name (t : Type_) : string :=
  match t with TUN => "TUN" | TAP => "TAP" end.

Section Interface.

(** The code of the handlers: [run_handler h packet w] runs handler [h] on the
    vector [packet] in world [w]. *)
Variable run_handler : hid -> buf_id -> World -> hres.

(** [TunTapInterface::TunTapInterface(const std::string&, Type)] *)
Definition TunTapInterface_ctor (this : addr) (name : string) (type : Type_)
  : M unit :=
  fun w => match objs w !! this with
           | Some _ => Fail Undefined
           | None =>
               Done tt (with_objs
                          (insert this (mkTunTap name type (-1) false None 0 0 0 0))
                          w)
           end.

(** [close(fd_); fd_ = -1;] *)
Definition close_device (this : addr) : M unit :=
  o <- get_obj this ;;
  emit (EvClose (fd_ o)) ;;
  modify_obj this (with_fd (-1)).

(** [TunTapInterface::initialize()] *)
Definition initialize (this : addr) (k : init_sys) : M bool :=
  emit (EvOpenTun (open_ret k)) ;;
  modify_obj this (with_fd (open_ret k)) ;;
  o <- get_obj this ;;
  if fd_ o <? 0 then
    emit (EvPrintErrno Cerr "Failed to open /dev/net/tun: " (init_errno k)) ;;
    ret false
  else
    let ifr_name :=
      if decide (name_ o = EmptyString) then EmptyString
      else strncpy (IFNAMSIZ - 1) (name_ o) in
    let ifr_flags :=
      Z.lor (match type_ o with TUN => IFF_TUN | TAP => IFF_TAP end) IFF_NO_PI in
    emit (EvTunSetIff (fd_ o) ifr_name ifr_flags (tunsetiff_ret k)) ;;
    if tunsetiff_ret k <? 0 then
      emit (EvPrintErrno Cerr "Failed to create TUN/TAP device: "
              (init_errno k)) ;;
      close_device this ;;
      ret false
    else
      modify_obj this (with_name (strncpy (IFNAMSIZ - 1) (tunsetiff_name k))) ;;
      emit (EvGetFl (fd_ o) (getfl_ret k)) ;;
      let flags := getfl_ret k in
      failed <- (if flags <? 0 then ret true
                 else emit (EvSetFl (fd_ o) (Z.lor flags O_NONBLOCK) (setfl_ret k)) ;;
                      ret (setfl_ret k <? 0)) ;;
      if failed : bool then
        emit (EvPrintErrno Cerr "Failed to set non-blocking mode: "
                (init_errno k)) ;;
        close_device this ;;
        ret false
      else
        o' <- get_obj this ;;
        print Cout ("Created " +:+ type_name (type_ o') +:+ " interface: "
                    +:+ name_ o') ;;
        ret true.

(** [TunTapInterface::configure(ip_address, netmask)] *)
Definition configure (this : addr) (ip_address netmask : string)
  (k : configure_sys) : M bool :=
  let sock := socket_ret k in
  emit (EvSocket sock) ;;
  if sock <? 0 then
    emit (EvPrintErrno Cerr
            "Failed to create socket for interface configuration: "
            (configure_errno k)) ;;
    ret false
  else
    o <- get_obj this ;;
    let ifr_name := strncpy (IFNAMSIZ - 1) (name_ o) in
    emit (EvSockIoctl sock "SIOCGIFFLAGS" ifr_name IfrNone
            (getifflags_ret k)) ;;
    if getifflags_ret k <? 0 then
      emit (EvPrintErrno Cerr "Failed to get interface flags: "
              (configure_errno k)) ;;
      emit (EvClose sock) ;;
      ret false
    else
      emit (EvSockIoctl sock "SIOCSIFFLAGS" ifr_name
              (IfrFlags (Z.lor (getifflags_flags k) (Z.lor IFF_UP IFF_RUNNING)))
              (setifflags_ret k)) ;;
      if setifflags_ret k <? 0 then
        emit (EvPrintErrno Cerr "Failed to set interface up: "
                (configure_errno k)) ;;
        emit (EvClose sock) ;;
        ret false
      else
        emit (EvSockIoctl sock "SIOCSIFADDR" ifr_name
                (IfrAddr (sin_addr ip_address)) (setifaddr_ret k)) ;;
        if setifaddr_ret k <? 0 then
          emit (EvPrintErrno Cerr "Failed to set interface IP address: "
                  (configure_errno k)) ;;
          emit (EvClose sock) ;;
          ret false
        else
          emit (EvSockIoctl sock "SIOCSIFNETMASK" ifr_name
                  (IfrAddr (sin_addr netmask)) (setifnetmask_ret k)) ;;
          if setifnetmask_ret k <? 0 then
            emit (EvPrintErrno Cerr "Failed to set interface netmask: "
                    (configure_errno k)) ;;
            emit (EvClose sock) ;;
            ret false
          else
            emit (EvClose sock) ;;
            print Cout ("Configured interface " +:+ name_ o +:+ " with IP "
                        +:+ ip_address +:+ " and netmask " +:+ netmask) ;;
            ret true.

(** The [try { packet_handler(packet); } catch (const std::exception& e)]
    block.  An exception of another type is not caught: it leaves the thread
    function, and the runtime calls [std::terminate]. *)
Definition call_handler (t : tid) (h : hid) (packet : buf_id) : M unit :=
  data <- get_vector packet ;;
  emit (EvHandler t h packet data) ;;
  fun w => match run_handler h packet w with
           | HReturn w' => Done tt w'
           | HThrowStd what w' =>
               print Cerr ("Exception in packet handler: " +:+ what) w'
           | HThrowOther _ => Fail Terminate
           end.

(** The body of [while (running_)] in [captureThreadFunc], for the thread [t]
    that runs on the object [this] with the scratch vector [buffer]. *)
Definition capture_iteration (t : tid) (this : addr) (h : hid)
  (buffer : buf_id) (k : read_sys) : M loop_ctl :=
  o <- get_obj this ;;
  buf <- get_vector buffer ;;
  let nread := fst (sys_read buf k) in
  set_vector buffer (snd (sys_read buf k)) ;;
  emit (EvRead (fd_ o) (length buf) nread) ;;
  if nread <? 0 then
    (if negb (read_errno k =? EAGAIN) && negb (read_errno k =? EWOULDBLOCK) then
       emit (EvPrintErrno Cerr "Error reading from interface: "
               (read_errno k)) ;;
       emit (EvSleep 10)
     else ret tt) ;;
    ret Continue
  else if 0 <? nread then
    modify_obj this (count_received nread) ;;
    packet <- new_vector (take (Z.to_nat nread) (snd (sys_read buf k))) ;;
    call_handler t h packet ;;
    delete_vector packet ;;
    ret Continue
  else
    emit (EvSleep 1) ;;
    ret Continue.

(** The loop condition and then one iteration.  Without a result of [read] to
    consume ([k = None]) a thread whose flag is set cannot advance. *)
Definition loop_head (t : tid) (this : addr) (h : hid) (buffer : buf_id)
  (k : option read_sys) : M loop_ctl :=
  o <- get_obj this ;;
  if running_ o then
    match k with
    | Some r => capture_iteration t this h buffer r
    | None => fail Hang
    end
  else
    delete_vector buffer ;;
    set_pc t Finished ;;
    ret Exit.

(** One scheduling step of the capture thread [t]:
    [TunTapInterface::captureThreadFunc(packet_handler)]. *)
Definition captureThreadFunc (t : tid) (k : option read_sys) : M loop_ctl :=
  th <- get_thread t ;;
  match th_pc th with
  | Starting =>
      buffer <- new_vector (replicate buffer_size x00) ;;
      set_pc t (Looping buffer) ;;
      loop_head t (th_this th) (th_handler th) buffer k
  | Looping buffer => loop_head t (th_this th) (th_handler th) buffer k
  | Finished => ret Exit
  end.

(** The thread runs until its function returns, reading [rs] on the way. *)
Fixpoint run_to_exit (t : tid) (rs : list read_sys) : M unit :=
  match rs with
  | [] => captureThreadFunc t None ;; ret tt
  | r :: rs' =>
      c <- captureThreadFunc t (Some r) ;;
      match c with
      | Exit => ret tt
      | Continue => run_to_exit t rs'
      end
  end.

(** [capture_thread_->join()]; the thread object is not joinable afterwards. *)
Definition join (t : tid) (rs : list read_sys) : M unit :=
  run_to_exit t rs ;;
  emit (EvJoin t) ;;
  fun w => Done tt (with_threads (delete t) w).

(** [std::make_unique<std::thread>(&TunTapInterface::captureThreadFunc, this,
    packet_handler)] *)
Definition spawn (this : addr) (h : hid) : M tid :=
  fun w => Done (next_tid w)
             (mkWorld (objs w)
                (<[next_tid w := mkThread this h Starting]> (threads w))
                (vectors w)
                (trace w ++ [EvSpawn (next_tid w) this h])).

(** Destruction of the [std::thread] a [unique_ptr] holds: [std::terminate]
    when it is still joinable. *)
Definition destroy_thread (p : option tid) : M unit :=
  match p with
  | None => ret tt
  | Some t => j <- joinable t ;; if j : bool then fail Terminate else ret tt
  end.

(** [TunTapInterface::startCapture(packet_handler)] *)
Definition startCapture (this : addr) (packet_handler : hid) : M bool :=
  o <- get_obj this ;;
  if fd_ o <? 0 then
    print Cerr "Cannot start capture: interface not initialized" ;;
    ret false
  else if running_ o then
    print Cerr "Capture already running" ;;
    ret false
  else
    modify_obj this (with_running true) ;;
    t <- spawn this packet_handler ;;
    destroy_thread (capture_thread_ o) ;;
    modify_obj this (with_capture_thread (Some t)) ;;
    print Cout ("Started packet capture on interface " +:+ name_ o) ;;
    ret true.

(** [TunTapInterface::stopCapture()]; [rs] are the reads the capture thread
    performs while the caller waits in [join]. *)
Definition stopCapture (this : addr) (rs : list read_sys) : M unit :=
  o <- get_obj this ;;
  match running_ o, capture_thread_ o with
  | true, Some t =>
      modify_obj this (with_running false) ;;
      j <- joinable t ;;
      (if j : bool then join t rs else ret tt) ;;
      destroy_thread (Some t) ;;
      modify_obj this (with_capture_thread None) ;;
      o' <- get_obj this ;;
      print Cout ("Stopped packet capture on interface " +:+ name_ o')
  | _, _ => ret tt
  end.

(** [TunTapInterface::writePacket(packet)] *)
Definition writePacket (this : addr) (packet : list byte) (k : write_sys)
  : M bool :=
  o <- get_obj this ;;
  if (fd_ o <? 0) || negb (running_ o) then ret false
  else
    let written := sys_write (length packet) k in
    emit (EvWrite (fd_ o) packet written) ;;
    if written <? 0 then
      (if negb (write_errno k =? EAGAIN) && negb (write_errno k =? EWOULDBLOCK)
       then emit (EvPrintErrno Cerr "Failed to write packet: "
                    (write_errno k))
       else ret tt) ;;
      ret false
    else
      modify_obj this (count_sent written) ;;
      ret true.

(** The member initialisers and assignments shared by the two move
    operations: what the destination receives, and what is left in [other]. *)
Definition moved_to (other : TunTapInterface) : TunTapInterface :=
  mkTunTap (name_ other) (type_ other) (fd_ other) (running_ other)
    (capture_thread_ other)
    (packets_received_ other) (packets_sent_ other)
    (bytes_received_ other) (bytes_sent_ other).

Definition moved_from (other : TunTapInterface) : TunTapInterface :=
  with_running false
    (with_fd (-1)
       (with_capture_thread None (with_name moved_from_string other))).

(** [TunTapInterface::TunTapInterface(TunTapInterface&& other)]: the new
    object is built at the unused address [this]. *)
Definition move_ctor (this other : addr) : M unit :=
  src <- get_obj other ;;
  fun w => match objs w !! this with
           | Some _ => Fail Undefined
           | None =>
               Done tt (with_objs
                          (fun m => <[other := moved_from src]>
                                      (<[this := moved_to src]> m)) w)
           end.

(** [TunTapInterface::operator=(TunTapInterface&& other)] *)
Definition move_assign (this other : addr) (rs : list read_sys) : M unit :=
  get_obj this ;;
  get_obj other ;;
  if decide (this = other) then ret tt
  else
    stopCapture this rs ;;
    o <- get_obj this ;;
    (if 0 <=? fd_ o then emit (EvClose (fd_ o)) else ret tt) ;;
    src <- get_obj other ;;
    destroy_thread (capture_thread_ o) ;;
    modify_obj this (fun _ => moved_to src) ;;
    modify_obj other (fun _ => moved_from src).

(** [TunTapInterface::~TunTapInterface()], then the destruction of the members
    and the end of the object's life. *)
Definition dtor (this : addr) (rs : list read_sys) : M unit :=
  stopCapture this rs ;;
  o <- get_obj this ;;
  (if 0 <=? fd_ o then close_device this else ret tt) ;;
  o' <- get_obj this ;;
  destroy_thread (capture_thread_ o') ;;
  fun w => Done tt (with_objs (delete this) w).

End Interface.

(** ** Operations as data *)

(** The calls a program can make on the interfaces of a world, and the steps
    of the capture threads.  A caller that waits in [join] is served when the
    thread finds its flag cleared at its next loop test; the reads a thread
    performs are steps of their own ([OpCaptureStep]). *)
Inductive op :=
| OpCtor (this : addr) (name : string) (type : Type_)
| OpInitialize (this : addr) (k : init_sys)
| OpConfigure (this : addr) (ip_address netmask : string) (k : configure_sys)
| OpStartCapture (this : addr) (h : hid)
| OpStopCapture (this : addr)
| OpWritePacket (this : addr) (packet : list byte) (k : write_sys)
| OpMoveCtor (this other : addr)
| OpMoveAssign (this other : addr)
| OpDtor (this : addr)
| OpCaptureStep (t : tid) (k : read_sys).

Definition run_op (run_handler : hid -> buf_id -> World -> hres) (c : op)
  : M unit :=
  match c with
  | OpCtor this name type => TunTapInterface_ctor this name type
  | OpInitialize this k => initialize this k ;; ret tt
  | OpConfigure this ip mask k => configure this ip mask k ;; ret tt
  | OpStartCapture this h => startCapture this h ;; ret tt
  | OpStopCapture this => stopCapture run_handler this []
  | OpWritePacket this packet k => writePacket this packet k ;; ret tt
  | OpMoveCtor this other => move_ctor this other
  | OpMoveAssign this other => move_assign run_handler this other []
  | OpDtor this => dtor run_handler this []
  | OpCaptureStep t k => captureThreadFunc run_handler t (Some k) ;; ret tt
  end.

Fixpoint run_ops (run_handler : hid -> buf_id -> World -> hres) (cs : list op)
  : M unit :=
  match cs with
  | [] => ret tt
  | c :: cs' => run_op run_handler c ;; run_ops run_handler cs'
  end.

(** [true] for the operations that end the capture of the interface at
    [this] or hand it to another object: [stopCapture] or the destructor on
    it, and a move from it or onto it. *)
Definition ends_capture (this : addr) (c : op) : bool :=
  match c with
  | OpStopCapture a => bool_decide (a = this)
  | OpDtor a => bool_decide (a = this)
  | OpMoveCtor a b => bool_decide (a = this) || bool_decide (b = this)
  | OpMoveAssign a b => bool_decide (a = this) || bool_decide (b = this)
  | _ => false
  end.

(** The number of bytes an operation moves through the device, at most. *)
Definition op_bytes (c : op) : Z :=
  match c with
  | OpWritePacket _ packet _ => Z.of_nat (length packet)
  | OpCaptureStep _ (ReadOk data) => Z.of_nat (length data)
  | _ => 0
  end.

(** The number of packets an operation moves through the device, at most. *)
Definition op_packets (c : op) : Z :=
  match c with
  | OpWritePacket _ _ _ => 1
  | OpCaptureStep _ _ => 1
  | _ => 0
  end.

(** ** Observations *)

Definition outcome {A} (r : res A) : option A :=
  match r with
  | Done a _ => Some a
  | Fail _ => None
  end.

Definition world_after {A} (r : res A) : option World :=
  match r with
  | Done _ w => Some w
  | Fail _ => None
  end.

Definition hres_world (r : hres) : World :=
  match r with
  | HReturn w => w
  | HThrowStd _ w => w
  | HThrowOther w => w
  end.

(** The four statistics of the object at [a], as the accessors report them:
    packets received, packets sent, bytes received, bytes sent. *)
Definition counters (a : addr) (w : World) : option (Z * Z * Z * Z) :=
  (fun o => (getPacketsReceived o, getPacketsSent o,
             getBytesReceived o, getBytesSent o)) <$> objs w !! a.

Definition counters_in_range (o : TunTapInterface) : Prop :=
  uint64_range (packets_received_ o) /\ uint64_range (packets_sent_ o) /\
  uint64_range (bytes_received_ o) /\ uint64_range (bytes_sent_ o).

(** A counter that an operation left alone or advanced by at most [kmax], in
    the arithmetic of [uint64_t]. *)
Definition advanced (kmax c c' : Z) : Prop :=
  exists k, 0 <= k <= kmax /\ c' = wrap64 (c + k).

(** What an operation may do to the four counters: each is left alone or
    advanced, a packet counter by at most one and a byte counter by at most
    the bytes the operation moves. *)
Definition counters_advanced (c : op) (o o' : TunTapInterface) : Prop :=
  advanced (op_packets c) (getPacketsReceived o) (getPacketsReceived o')
  /\ advanced (op_packets c) (getPacketsSent o) (getPacketsSent o')
  /\ advanced (op_bytes c) (getBytesReceived o) (getBytesReceived o')
  /\ advanced (op_bytes c) (getBytesSent o) (getBytesSent o').

(** An object without device, flag or thread: the state the constructor
    produces, apart from the name and the counters. *)
Definition inert (o : TunTapInterface) : Prop :=
  fd_ o = -1 /\ running_ o = false /\ capture_thread_ o = None.

(** The world in which a handler is invoked by the iteration of thread [t]
    that read [data]: the counters of [this] are updated, the scratch vector
    holds what was read, and [data] sits in a vector of its own. *)
Definition at_handler_call (t : tid) (this : addr) (h : hid) (buffer : buf_id)
  (o : TunTapInterface) (buf data : list byte) (w : World) : World :=
  mkWorld (<[this := count_received (Z.of_nat (length data)) o]> (objs w))
    (threads w)
    (<[next_buf w := data]>
       (<[buffer := data ++ drop (length data) buf]> (vectors w)))
    (trace w ++ [EvRead (fd_ o) (length buf) (Z.of_nat (length data));
                 EvHandler t h (next_buf w) data]).

(** What the loop does with the way the handler ended. *)
Definition after_handler (packet : buf_id) (r : hres) : res loop_ctl :=
  match r with
  | HReturn w' => Done Continue (with_vectors (delete packet) w')
  | HThrowStd what w' =>
      Done Continue
        (with_vectors (delete packet)
           (with_trace
              (fun tr => tr ++ [EvPrint Cerr ("Exception in packet handler: "
                                              +:+ what)]) w'))
  | HThrowOther _ => Fail Terminate
  end.

(** What the lifecycle operations do on the object at [a] when it behaves
    as an interface that was never initialized: [startCapture] and
    [writePacket] are refused, [stopCapture] does nothing, and the destructor
    only ends the object; no thread is started or joined and no descriptor is
    closed. *)
Definition refuses_all (run_handler : hid -> buf_id -> World -> hres)
  (a : addr) (w : World) : Prop :=
  (forall h, startCapture a h w
             = Done false
                 (with_trace
                    (fun tr => tr ++ [EvPrint Cerr
                       "Cannot start capture: interface not initialized"]) w))
  /\ (forall packet k, writePacket a packet k w = Done false w)
  /\ (forall rs, stopCapture run_handler a rs w = Done tt w)
  /\ (forall rs, dtor run_handler a rs w = Done tt (with_objs (delete a) w)).

(** The state of the destination [this] and of the source [other] after a
    move of the object [src]. *)
Definition moved_state (run_handler : hid -> buf_id -> World -> hres)
  (src : TunTapInterface) (this other : addr) (w' : World) : Prop :=
  exists dst src',
    objs w' !! this = Some dst /\ objs w' !! other = Some src'
    /\ getPacketsReceived dst = getPacketsReceived src
    /\ getPacketsSent dst = getPacketsSent src
    /\ getBytesReceived dst = getBytesReceived src
    /\ getBytesSent dst = getBytesSent src
    /\ isRunning dst = isRunning src
    /\ fd_ dst = fd_ src
    /\ capture_thread_ dst = capture_thread_ src
    /\ getName dst = getName src
    /\ inert src'
    /\ isRunning src' = false
    /\ getPacketsReceived src' = getPacketsReceived src
    /\ getPacketsSent src' = getPacketsSent src
    /\ getBytesReceived src' = getBytesReceived src
    /\ getBytesSent src' = getBytesSent src
    /\ getName src' = moved_from_string
    /\ refuses_all run_handler other w'.

(** ** Frames *)

(** A relation between the world before and after a computation that the
    bookkeeping of a run respects: it is a preorder, and it holds across
    output, across work on the vectors and across the progress of a
    thread. *)
Class Frame (R : World -> World -> Prop) : Prop := {
  frame_refl : forall w, R w w;
  frame_trans : forall w1 w2 w3, R w1 w2 -> R w2 w3 -> R w1 w3;
  frame_trace : forall w f, R w (with_trace f w);
  frame_vectors : forall w vs,
    R w (mkWorld (objs w) (threads w) vs (trace w));
  frame_pc : forall w t th pc,
    threads w !! t = Some th ->
    R w (with_threads (insert t (mkThread (th_this th) (th_handler th) pc)) w)
}.

(** [keeps R m]: every run of [m] that returns relates its worlds by [R]. *)
Definition keeps (R : World -> World -> Prop) {A} (m : M A) : Prop :=
  forall w a w', m w = Done a w' -> R w w'.

(** [updates R a f]: [R] holds across the update [f] of the object at [a]. *)
Definition updates (R : World -> World -> Prop)
  (a : addr) (f : TunTapInterface -> TunTapInterface) : Prop :=
  forall w o, objs w !! a = Some o -> R w (with_objs (insert a (f o)) w).

(** [R] holds across the updates of the received counters by the threads. *)
Definition receives (R : World -> World -> Prop) : Prop :=
  forall a n, updates R a (count_received n).

(** [framed this ok w w']: the object at [this] is still there in [w'], in a
    state related by [ok] to the one it had in [w]. *)
Definition framed (this : addr)
  (ok : TunTapInterface -> TunTapInterface -> Prop) (w w' : World) : Prop :=
  forall o, objs w !! this = Some o ->
            exists o', objs w' !! this = Some o' /\ ok o o'.

(** An update of the object at [a] that [framed this ok] allows: it is
    another object, or the update respects [ok]. *)
Definition allowed (this : addr)
  (ok : TunTapInterface -> TunTapInterface -> Prop)
  (a : addr) (f : TunTapInterface -> TunTapInterface) : Prop :=
  a <> this \/ forall o, ok o (f o).

(** ** Capture tasks *)

(** What an object records about its capture task: its flag and the handle
    of its thread. *)
Definition lifecycle (o : TunTapInterface) : bool * option tid :=
  (running_ o, capture_thread_ o).

(** The task records of all objects, and the joinable threads. *)
Definition tasks (w : World) : gmap addr (bool * option tid) :=
  lifecycle <$> objs w.

Definition joinables (w : World) : gset tid := dom (threads w).

(** The frame of the task bookkeeping: no object appears or goes, every
    object records the same about its task, and the same threads are
    joinable. *)
Definition same_tasks (w w' : World) : Prop :=
  tasks w' = tasks w /\ joinables w' = joinables w.

(** The invariant of the capture tasks.  An interface is flagged as running
    exactly when it holds a thread handle; a thread is held by at most one
    interface; and the handles are those of the joinable threads. *)
Record tasks_inv (L : gmap addr (bool * option tid)) (T : gset tid)
  : Prop := mkTasksInv {
  flag_iff_task : forall a r p,
    L !! a = Some (r, p) -> (r = true <-> is_Some p);
  one_owner : forall a a' r r' t,
    L !! a = Some (r, Some t) -> L !! a' = Some (r', Some t) -> a = a';
  task_joinable : forall a r t, L !! a = Some (r, Some t) -> t ∈ T;
  task_owned : forall t, t ∈ T -> exists a r, L !! a = Some (r, Some t)
}.

Definition tasks_ok (w : World) : Prop :=
  tasks_inv (tasks w) (joinables w).

(** The frame of the second [startCapture]: a set flag stays set. *)
Definition stays_running (o o' : TunTapInterface) : Prop :=
  running_ o = true -> running_ o' = true.

(** The frame of the statistics: the four counters keep their values. *)
Definition same_counters (o o' : TunTapInterface) : Prop :=
  packets_received_ o' = packets_received_ o
  /\ packets_sent_ o' = packets_sent_ o
  /\ bytes_received_ o' = bytes_received_ o
  /\ bytes_sent_ o' = bytes_sent_ o.

(** A counter that is left alone or advanced by at most [kmax]. *)
Definition kept_or_advanced (kmax c c' : Z) : Prop :=
  c' = c \/ advanced kmax c c'.

(** What a packet handler that is given [n] bytes does to the counters of an
    interface when it does no more to them than one [writePacket] of at most
    [n] bytes: the received counters keep their values, the sent-packet
    counter is left alone or advanced by one, and the sent-byte counter is
    left alone or advanced by at most [n]. *)
Definition sends_at_most (n : Z) (o o' : TunTapInterface) : Prop :=
  packets_received_ o' = packets_received_ o
  /\ bytes_received_ o' = bytes_received_ o
  /\ kept_or_advanced 1 (packets_sent_ o) (packets_sent_ o')
  /\ kept_or_advanced n (bytes_sent_ o) (bytes_sent_ o').

(** [true] for a move assignment onto the object at [a] from another
    object. *)
Definition overwrites (a : addr) (c : op) : bool :=
  match c with
  | OpMoveAssign x y => bool_decide (x = a) && negb (bool_decide (y = a))
  | _ => false
  end.

(** ** Descriptors and requests in a trace *)

(** The descriptor that a call obtained: [open] and [socket] return one when
    their result is not negative. *)
Definition opened (e : event) : option Z :=
  match e with
  | EvOpenTun ret => if 0 <=? ret then Some ret else None
  | EvSocket ret => if 0 <=? ret then Some ret else None
  | _ => None
  end.

Definition closed (e : event) : option Z :=
  match e with
  | EvClose fd => Some fd
  | _ => None
  end.

(** The descriptors obtained, and those closed, in the order of the calls. *)
Definition opens (tr : list event) : list Z := omap opened tr.
Definition closes (tr : list event) : list Z := omap closed tr.

(** The interface name in the [ifreq] of a request to the kernel. *)
Definition ifr_name_of (e : event) : option string :=
  match e with
  | EvTunSetIff _ nm _ _ => Some nm
  | EvSockIoctl _ _ nm _ _ => Some nm
  | _ => None
  end.

Definition ifr_names (tr : list event) : list string := omap ifr_name_of tr.

(** The requests on the configuration socket: request, argument, result. *)
Definition ioctl_of (e : event) : option (string * ifreq_arg * Z) :=
  match e with
  | EvSockIoctl _ request _ arg ret => Some (request, arg, ret)
  | _ => None
  end.

Definition ioctls (tr : list event) : list (string * ifreq_arg * Z) :=
  omap ioctl_of tr.

(** The steps of a sequence up to and including the first that fails. *)
Fixpoint until_failure (steps : list (string * ifreq_arg * Z))
  : list (string * ifreq_arg * Z) :=
  match steps with
  | [] => []
  | s :: rest => if snd s <? 0 then [s] else s :: until_failure rest
  end.

(** What the output of a call shows to the user: the lines printed. *)
Definition printed (e : event) : option (stream * string) :=
  match e with
  | EvPrint s msg => Some (s, msg)
  | _ => None
  end.

Definition prints (tr : list event) : list (stream * string) := omap printed tr.

(** The calls of [write]: descriptor, bytes, result. *)
Definition written_of (e : event) : option (Z * list byte * Z) :=
  match e with
  | EvWrite fd data ret => Some (fd, data, ret)
  | _ => None
  end.

Definition writes (tr : list event) : list (Z * list byte * Z) :=
  omap written_of tr.

(** ** The descriptors of the interfaces *)

(** The descriptor of every interface. *)
Definition fds (w : World) : gmap addr Z := fd_ <$> objs w.

(** The frame of the descriptors: no object appears or goes, and every
    object holds what it held. *)
Definition same_fds (w w' : World) : Prop := fds w' = fds w.

(** The descriptor table of the process after the calls of a trace: [open]
    and [socket] enter the descriptor they return, [close] removes its
    argument. *)
Definition open_fds_step (S : gset Z) (e : event) : gset Z :=
  match opened e, closed e with
  | Some x, _ => S ∪ {[x]}
  | None, Some x => S ∖ {[x]}
  | None, None => S
  end.

Definition open_fds (tr : list event) : gset Z := foldl open_fds_step ∅ tr.

(** A computation that leaves the descriptors alone: every interface holds
    what it held, and what was open is open. *)
Definition calm (w w' : World) : Prop :=
  same_fds w w' /\ open_fds (trace w) ⊆ open_fds (trace w').

(** No descriptor is held by two interfaces. *)
Definition exclusive (L : gmap addr Z) : Prop :=
  forall a b x, a <> b -> L !! a = Some x -> L !! b = Some x -> x < 0.

(** The descriptors that the interfaces hold are open. *)
Definition held_open (w : World) : Prop :=
  forall a x, fds w !! a = Some x -> 0 <= x -> x ∈ open_fds (trace w).

(** What the kernel guarantees of [open] and [socket]: the descriptor they
    return is not one that is open at the call. *)
Definition open_fresh (c : op) (w : World) : Prop :=
  match c with
  | OpInitialize _ k => open_ret k ∉ open_fds (trace w)
  | OpConfigure _ _ _ k => socket_ret k ∉ open_fds (trace w)
  | _ => True
  end.

Fixpoint opens_fresh (run_handler : hid -> buf_id -> World -> hres)
  (cs : list op) (w : World) : Prop :=
  match cs with
  | [] => True
  | c :: cs' =>
      open_fresh c w
      /\ forall w1, run_op run_handler c w = Done tt w1 ->
                    opens_fresh run_handler cs' w1
  end.

(** ** main.cpp: the packet handlers *)

(** [printf("%02x ", packet[i])]: two lowercase hexadecimal digits and a
    space. *)
Definition hex_digit (n : N) : ascii :=
  match String.get (N.to_nat n) "0123456789abcdef" with
  | Some c => c
  | None => "?"%char
  end.

Definition hex2 (b : byte) : string :=
  String (hex_digit (Byte.to_N b / 16))
    (String (hex_digit (Byte.to_N b mod 16)) " ").

(** [for (size_t i = 0; i < std::min(packet.size(), size_t(n)); ++i)
      printf("%02x ", packet[i]);] *)
Fixpoint hex_bytes (n : nat) (packet : list byte) : string :=
  match n, packet with
  | S n', b :: rest => hex2 b +:+ hex_bytes n' rest
  | _, _ => EmptyString
  end.

(** The second line of [printPacketInfo]: the first 16 bytes, and an
    ellipsis when there are more. *)
Definition data_line (packet : list byte) : string :=
  "  Data: " +:+ hex_bytes 16 packet
  +:+ (if (16 <? length packet)%nat then "..." else "").

(** [printPacketInfo(interface_name, packet)] *)
Definition printPacketInfo (interface_name : string) (packet : list byte)
  : M unit :=
  print Cout ("[" +:+ interface_name +:+ "] Received packet of "
              +:+ pretty (length packet) +:+ " bytes") ;;
  print Cout (data_line packet).

(** The two lambdas of [main]: [handler1] captures [interface2] by
    reference, prints the packet and writes it to [interface2]; [handler2]
    does the same towards [interface1].  The result of [writePacket] is
    dropped. *)
Definition handler1 : hid := 1%nat.
Definition handler2 : hid := 2%nat.

Definition forward (label : string) (dest : addr) (k : write_sys)
  (packet : buf_id) : M unit :=
  data <- get_vector packet ;;
  printPacketInfo label data ;;
  writePacket dest data k ;;
  ret tt.

(** The handlers as the capture threads run them.  [kernel_write] is what
    [write] answers, as a function of what has happened so far.  Neither
    lambda throws; one that uses an object that does not exist ends the
    process. *)
Definition main_handlers (interface1 interface2 : addr)
  (kernel_write : World -> write_sys) : hid -> buf_id -> World -> hres :=
  fun h packet w =>
    let run (m : M unit) :=
      match m w with
      | Done _ w' => HReturn w'
      | Fail _ => HThrowOther w
      end in
    if decide (h = handler1)
    then run (forward "Interface1" interface2 (kernel_write w) packet)
    else if decide (h = handler2)
    then run (forward "Interface2" interface1 (kernel_write w) packet)
    else HReturn w.

(** ** main.cpp: main *)

(** What [po::parse_command_line], [po::store] and [po::notify] leave in
    [vm]: they throw, or [--help] was given, or the options have their
    values (the defaults where none was given). *)
Record options := mkOptions {
  opt_tun : bool;
  opt_interface1 : string;
  opt_interface2 : string;
  opt_ip1 : string;
  opt_ip2 : string;
  opt_netmask : string
}.

Inductive parsed :=
| ParseError (what : string)
| ParseHelp
| ParseOk (o : options).

(** What goes on beside the main thread between two of its statements: a
    step of the capture thread of the first or of the second interface with
    what its [read] returns, or the statistics thread waking up after its
    10 seconds. *)
Inductive step :=
| StepCapture (first : bool) (k : read_sys)
| StepReport.

(** The environment of a run of [main]: the answers of the kernel, the
    steps of the other threads in each phase, and the signal that ends the
    run.  The signal is taken to arrive while [main] waits in its loop. *)
Record main_sys := mkMainSys {
  k_init1 : init_sys;
  k_init2 : init_sys;
  k_configure1 : configure_sys;
  k_configure2 : configure_sys;
  k_write : World -> write_sys;
  steps_starting : list step;   (* between the two calls of startCapture *)
  steps_running : list step;    (* until the signal *)
  k_signal : Z;
  steps_stopping : list step;   (* from the signal to the first stopCapture *)
  steps_between_stops : list step
}.

(** The two interfaces of [main], in the order of their declarations. *)
Definition interface1 : addr := 1%nat.
Definition interface2 : addr := 2%nat.

Definition nl : string := String (ascii_of_nat 10) EmptyString.

(** The text of [std::cout << desc]; its layout is that of the library. *)
Definition desc : string := "SDR Network Interface Options".

(** [signalHandler(signal)]: it prints and clears the global flag
    [running], which ends the loops of [main] and of the statistics
    thread. *)
Definition signalHandler (signal : Z) : M unit :=
  print Cout (nl +:+ "Received signal " +:+ pretty signal
              +:+ ", shutting down...").

(** One line of the statistics, from the accessors of the interface. *)
Definition statistics_line (o : TunTapInterface) : string :=
  getName o +:+ ": RX=" +:+ pretty (getPacketsReceived o)
  +:+ " packets (" +:+ pretty (getBytesReceived o) +:+ " bytes), TX="
  +:+ pretty (getPacketsSent o)
  +:+ " packets (" +:+ pretty (getBytesSent o) +:+ " bytes)".

(** The report of the statistics thread and the final statistics. *)
Definition print_statistics (title : string) : M unit :=
  print Cout title ;;
  o1 <- get_obj interface1 ;;
  print Cout (statistics_line o1) ;;
  o2 <- get_obj interface2 ;;
  print Cout (statistics_line o2).

Section Main.

Variable k : main_sys.

Definition handlers : hid -> buf_id -> World -> hres :=
  main_handlers interface1 interface2 (k_write k).

(** A step of the capture thread of an interface, if it has one. *)
Definition capture_step (this : addr) (r : read_sys) : M unit :=
  o <- get_obj this ;;
  match capture_thread_ o with
  | Some t => captureThreadFunc handlers t (Some r) ;; ret tt
  | None => ret tt
  end.

(** The steps of the other threads; [stats] tells whether the statistics
    thread exists and finds [running] set. *)
Definition run_step (stats : bool) (s : step) : M unit :=
  match s with
  | StepCapture true r => capture_step interface1 r
  | StepCapture false r => capture_step interface2 r
  | StepReport =>
      if stats then print_statistics (nl +:+ "--- Statistics ---") else ret tt
  end.

Fixpoint run_steps (stats : bool) (ss : list step) : M unit :=
  match ss with
  | [] => ret tt
  | s :: ss' => run_step stats s ;; run_steps stats ss'
  end.

(** [return code;] inside the [try] block: the two interfaces are
    destroyed in the reverse order of their declarations. *)
Definition leave (code : Z) : M Z :=
  dtor handlers interface2 [] ;;
  dtor handlers interface1 [] ;;
  ret code.

(** [main], from the result of the command-line parser on. *)
Definition main (p : parsed) : M Z :=
  match p with
  | ParseError what =>
      print Cerr ("Error: " +:+ what) ;;
      print Cout desc ;;
      ret 1
  | ParseHelp =>
      print Cout desc ;;
      ret 0
  | ParseOk o =>
      print Cout "SDR Network Interface System" ;;
      print Cout "============================" ;;
      let interface_type := if opt_tun o then TUN else TAP in
      print Cout ("Using " +:+ type_name interface_type +:+ " interfaces") ;;
      TunTapInterface_ctor interface1 (opt_interface1 o) interface_type ;;
      TunTapInterface_ctor interface2 (opt_interface2 o) interface_type ;;
      print Cout (nl +:+ "Initializing interfaces...") ;;
      ok <- initialize interface1 (k_init1 k) ;;
      if negb ok then
        print Cerr "Failed to initialize first interface" ;; leave 1
      else
      ok <- initialize interface2 (k_init2 k) ;;
      if negb ok then
        print Cerr "Failed to initialize second interface" ;; leave 1
      else
      print Cout "Configuring interfaces..." ;;
      ok <- configure interface1 (opt_ip1 o) (opt_netmask o) (k_configure1 k) ;;
      if negb ok then
        print Cerr "Failed to configure first interface" ;; leave 1
      else
      ok <- configure interface2 (opt_ip2 o) (opt_netmask o) (k_configure2 k) ;;
      if negb ok then
        print Cerr "Failed to configure second interface" ;; leave 1
      else
      print Cout "Starting packet capture..." ;;
      ok <- startCapture interface1 handler1 ;;
      if negb ok then
        print Cerr "Failed to start capture on first interface" ;; leave 1
      else
      run_steps false (steps_starting k) ;;
      ok <- startCapture interface2 handler2 ;;
      if negb ok then
        print Cerr "Failed to start capture on second interface" ;; leave 1
      else
      print Cout (nl +:+ "System is running. Try the following commands to test:") ;;
      print Cout ("  ping " +:+ opt_ip2 o +:+ " -I " +:+ opt_ip1 o) ;;
      print Cout "  Or use iperf3 for throughput testing." ;;
      print Cout ("Press Ctrl+C to stop." +:+ nl) ;;
      run_steps true (steps_running k) ;;
      signalHandler (k_signal k) ;;
      run_steps false (steps_stopping k) ;;
      print Cout (nl +:+ "Shutting down...") ;;
      stopCapture handlers interface1 [] ;;
      run_steps false (steps_between_stops k) ;;
      stopCapture handlers interface2 [] ;;
      print_statistics (nl +:+ "--- Final Statistics ---") ;;
      print Cout "Shutdown complete." ;;
      leave 0
  end.

End Main.

(** What [main] needs of the kernel to get to its loop. *)
Definition init_ok (ks : init_sys) : Prop :=
  0 <= open_ret ks /\ 0 <= tunsetiff_ret ks
  /\ 0 <= getfl_ret ks /\ 0 <= setfl_ret ks.

Definition configure_ok (ks : configure_sys) : Prop :=
  0 <= socket_ret ks /\ 0 <= getifflags_ret ks /\ 0 <= setifflags_ret ks
  /\ 0 <= setifaddr_ret ks /\ 0 <= setifnetmask_ret ks.

(** A world in which nothing is left: no object, no thread, no vector, and
    every descriptor obtained has been closed, once. *)
Definition released (w : World) : Prop :=
  objs w = ∅ /\ threads w = ∅ /\ vectors w = ∅
  /\ closes (trace w) ≡ₚ opens (trace w).

(** *** The worlds of main *)

(** What no step of a capture thread and no handler of [main] changes in
    an interface: everything but the counters. *)
Definition static (o o' : TunTapInterface) : Prop :=
  name_ o' = name_ o /\ type_ o' = type_ o /\ fd_ o' = fd_ o
  /\ running_ o' = running_ o /\ capture_thread_ o' = capture_thread_ o.

(** The capture task of the interface [o] at [this] in [main]: it has no
    thread and is not running, or it is running and its thread runs on it
    with its handler, is joinable, and is before its loop or in it with a
    live scratch buffer. *)
Definition task_ok (this : addr) (h : hid) (o : TunTapInterface) (w : World)
  : Prop :=
  match capture_thread_ o with
  | None => running_ o = false
  | Some t =>
      running_ o = true
      /\ exists pc, threads w !! t = Some (mkThread this h pc)
                    /\ match pc with
                       | Starting => True
                       | Looping b => is_Some (vectors w !! b)
                       | Finished => False
                       end
  end.

(** The descriptor that an interface holds, if any. *)
Definition held (fd : Z) : list Z := if 0 <=? fd then [fd] else [].

(** The worlds of [main] between the construction and the destruction of
    its interfaces [o1] and [o2]: they are the only objects; the threads
    are their capture threads and the vectors are the scratch buffers of
    these; and the descriptors obtained so far are those closed and those
    that the two interfaces hold. *)
Record main_shape (w : World) (o1 o2 : TunTapInterface) : Prop := mkMainShape {
  shape_o1 : objs w !! interface1 = Some o1;
  shape_o2 : objs w !! interface2 = Some o2;
  shape_dom : dom (objs w) = {[interface1; interface2]};
  shape_task1 : task_ok interface1 handler1 o1 w;
  shape_task2 : task_ok interface2 handler2 o2 w;
  shape_threads : forall t,
    is_Some (threads w !! t) ->
    capture_thread_ o1 = Some t \/ capture_thread_ o2 = Some t;
  shape_vectors : forall b,
    is_Some (vectors w !! b) ->
    exists t th, threads w !! t = Some th /\ th_pc th = Looping b;
  shape_distinct : forall t,
    capture_thread_ o1 = Some t -> capture_thread_ o2 = Some t -> False;
  shape_buffers : forall t t' th th' b,
    threads w !! t = Some th -> threads w !! t' = Some th' ->
    th_pc th = Looping b -> th_pc th' = Looping b -> t = t';
  shape_balance :
    opens (trace w) ≡ₚ closes (trace w) ++ held (fd_ o1) ++ held (fd_ o2)
}.

(** ** Sample runs *)

Definition empty_world : World := mkWorld ∅ ∅ ∅ [].

(** A handler that returns, one that throws a [std::runtime_error], and one
    that throws an [int]. *)
Definition quiet_handler : hid -> buf_id -> World -> hres :=
  fun _ _ w => HReturn w.
Definition faulty_handler : hid -> buf_id -> World -> hres :=
  fun _ _ w => HThrowStd "bad packet" w.
Definition foreign_handler : hid -> buf_id -> World -> hres :=
  fun _ _ w => HThrowOther w.

Definition world_of (r : res unit) : World :=
  match r with
  | Done _ w => w
  | Fail _ => empty_world
  end.

(** The kernel creates the device and accepts both [fcntl] calls. *)
Definition kernel_ok (fd : Z) (name : string) : init_sys :=
  mkInitSys fd 0 name 2 0 0.

(** The kernel creates the device and names it, then [fcntl(F_GETFL)] fails. *)
Definition kernel_fcntl_fails (fd : Z) (name : string) : init_sys :=
  mkInitSys fd 0 name (-1) 0 9.

(** [TunTapInterface a("tap0", TAP); a.initialize(); a.startCapture(h);] and
    the first iteration of the thread, which receives three bytes. *)
Definition world_constructed : World :=
  world_of (run_ops quiet_handler [OpCtor 0%nat "tap0" TAP] empty_world).

Definition world_initialized : World :=
  world_of (run_ops quiet_handler
              [OpInitialize 0%nat (kernel_ok 3 "tap0")] world_constructed).

Definition world_capturing : World :=
  world_of (run_ops quiet_handler [OpStartCapture 0%nat 7%nat] world_initialized).

Definition world_received : World :=
  world_of (run_ops quiet_handler
              [OpCaptureStep 0%nat (ReadOk [x01; x02; x03])] world_capturing).

(** ... and a second interface, constructed only. *)
Definition world_two : World :=
  world_of (run_ops quiet_handler [OpCtor 1%nat "tap1" TAP] world_received).

(** ... then some traffic and a second, failing [initialize] on it. *)
Definition world_busy : World :=
  world_of (run_ops quiet_handler
              [OpCaptureStep 0%nat (ReadOk [x04; x05]);
               OpWritePacket 0%nat [x09] (WriteOk 1);
               OpConfigure 0%nat "10.0.0.1" "255.255.255.0"
                 (mkConfigureSys 5 0 0 0 0 4098 0);
               OpCaptureStep 0%nat (ReadErr EAGAIN);
               OpInitialize 0%nat (mkInitSys (-1) 0 "" 0 0 13)]
              world_capturing).

(** Traffic on the capturing interface, its configuration, and a second
    interface that is started and stopped: nothing stops or moves the
    first. *)
Definition ops_traffic : list op :=
  [OpCaptureStep 0%nat (ReadOk [x04; x05]);
   OpWritePacket 0%nat [x09] (WriteOk 1);
   OpConfigure 0%nat "10.0.0.1" "255.255.255.0"
     (mkConfigureSys 5 0 0 0 0 4098 0);
   OpCaptureStep 0%nat (ReadErr EAGAIN);
   OpCtor 1%nat "tap1" TAP;
   OpInitialize 1%nat (kernel_ok 4 "tap1");
   OpStartCapture 1%nat 7%nat;
   OpStopCapture 1%nat;
   OpDtor 1%nat].

Definition world_traffic : World :=
  world_of (run_ops quiet_handler ops_traffic world_capturing).

(** [TunTapInterface a("", TAP);]: the kernel is to choose the name. *)
Definition world_unnamed : World :=
  world_of (run_ops quiet_handler [OpCtor 0%nat "" TAP] empty_world).

(** [TunTapInterface a("sdr_tap_interface_0", TAP);]: a name of 19
    characters. *)
Definition world_long_name : World :=
  world_of (run_ops quiet_handler [OpCtor 0%nat "sdr_tap_interface_0" TAP]
              empty_world).

(** The two interfaces of [main], initialized and capturing, once the thread
    of the first has entered its loop; [write] accepts whatever it is
    given. *)
Definition kernel_accepts : World -> write_sys := fun _ => WriteOk 2048.

Definition world_forwarding : World :=
  world_of (run_ops (main_handlers interface1 interface2 kernel_accepts)
              [OpCtor interface1 "sdr_tap0" TAP;
               OpCtor interface2 "sdr_tap1" TAP;
               OpInitialize interface1 (kernel_ok 3 "sdr_tap0");
               OpInitialize interface2 (kernel_ok 4 "sdr_tap1");
               OpStartCapture interface1 handler1;
               OpStartCapture interface2 handler2;
               OpCaptureStep 0%nat (ReadErr EAGAIN)]
              empty_world).

Definition sdr_tap0 : TunTapInterface :=
  mkTunTap "sdr_tap0" TAP 3 true (Some 0%nat) 0 0 0 0.

Definition sdr_tap1 : TunTapInterface :=
  mkTunTap "sdr_tap1" TAP 4 true (Some 1%nat) 0 0 0 0.

(** The two interfaces of [main]: the first is configured, both capture and
    a packet that arrives on the first is forwarded; then the second is moved
    onto the first, and initialized again, [open] returning the descriptor
    that the move closed. *)
Definition ops_reusing : list op :=
  [OpCtor interface1 "sdr_tap0" TAP;
   OpCtor interface2 "sdr_tap1" TAP;
   OpInitialize interface1 (kernel_ok 3 "sdr_tap0");
   OpInitialize interface2 (kernel_ok 4 "sdr_tap1");
   OpConfigure interface1 "10.0.0.1" "255.255.255.0" (mkConfigureSys 5 0 0 0 0 4098 0);
   OpStartCapture interface1 handler1;
   OpStartCapture interface2 handler2;
   OpCaptureStep 0%nat (ReadOk [x01; x02]);
   OpMoveAssign interface1 interface2;
   OpInitialize interface2 (kernel_ok 3 "sdr_tap1")].

(** The object at [a] after a call. *)
Definition obj_after {A} (r : res A) (a : addr) : option TunTapInterface :=
  match r with
  | Done _ w => objs w !! a
  | Fail _ => None
  end.

(** The interface of the sample runs once it has received three bytes, and
    the scratch buffer of its thread. *)
Definition tap0_received : TunTapInterface :=
  mkTunTap "tap0" TAP 3 true (Some 0%nat) 1 0 3 0.

Definition scratch_received : list byte :=
  [x01; x02; x03] ++ replicate 2045 x00.

(** * Properties *)

Ltac run_m :=
  cbv beta delta [bind ret fail emit print get_obj modify_obj get_thread set_pc
                  joinable new_vector delete_vector get_vector set_vector] iota.

Ltac simpl_w :=
  unfold with_objs, with_threads, with_vectors, with_trace;
  cbn [objs threads vectors trace].

Section Properties.

Variable run_handler : hid -> buf_id -> World -> hres.

Lemma wrap64_range z : uint64_range (wrap64 z).
Proof. unfold uint64_range, wrap64. apply Z.mod_pos_bound. lia. Qed.

Lemma wrap64_small z : uint64_range z -> wrap64 z = z.
Proof. unfold uint64_range, wrap64. intros H. apply Z.mod_small. lia. Qed.

(** Away from the end of the range an increment is an increment of the
    integer. *)
Lemma wrap64_add c k :
  uint64_range c -> 0 <= k -> c + k < 2 ^ 64 -> wrap64 (c + k) = c + k.
Proof.
  intros Hc Hk Hmax. apply wrap64_small. unfold uint64_range in *. lia.
Qed.

Lemma count_received_exact nread o :
  counters_in_range o -> 0 <= nread ->
  packets_received_ o + 1 < 2 ^ 64 ->
  bytes_received_ o + nread < 2 ^ 64 ->
  getPacketsReceived (count_received nread o) = getPacketsReceived o + 1
  /\ getBytesReceived (count_received nread o) = getBytesReceived o + nread.
Proof.
  intros (R1 & _ & R3 & _) Hn H1 H3. cbn. split; apply wrap64_add; lia || assumption.
Qed.

Lemma count_sent_exact written o :
  counters_in_range o -> 0 <= written ->
  packets_sent_ o + 1 < 2 ^ 64 ->
  bytes_sent_ o + written < 2 ^ 64 ->
  getPacketsSent (count_sent written o) = getPacketsSent o + 1
  /\ getBytesSent (count_sent written o) = getBytesSent o + written.
Proof.
  intros (_ & R2 & _ & R4) Hn H1 H3. cbn. split; apply wrap64_add; lia || assumption.
Qed.

(** Writing into a live vector does not change which identities are free. *)
Lemma dom_set_vector w b d d' :
  vectors w !! b = Some d ->
  dom (<[b := d']> (vectors w)) = dom (vectors w).
Proof. intros Hb. apply dom_insert_lookup_L. eauto. Qed.

Lemma next_buf_fresh w : vectors w !! next_buf w = None.
Proof. apply not_elem_of_dom. unfold next_buf. apply is_fresh. Qed.

Lemma next_tid_fresh w : threads w !! next_tid w = None.
Proof. apply not_elem_of_dom. unfold next_tid. apply is_fresh. Qed.

Lemma bind_Done {A B} (m : M A) (k : A -> M B) w b w' :
  bind m k w = Done b w' ->
  exists a w1, m w = Done a w1 /\ k a w1 = Done b w'.
Proof.
  unfold bind. destruct (m w) as [a w1 | f]; [| discriminate].
  intros H. exists a, w1. split; [reflexivity | exact H].
Qed.

Lemma get_obj_Done a w o w' :
  get_obj a w = Done o w' -> w' = w /\ objs w !! a = Some o.
Proof.
  unfold get_obj. destruct (objs w !! a); [| discriminate].
  intros H. injection H as -> ->. split; reflexivity.
Qed.

Lemma modify_obj_Done a f w u w' :
  modify_obj a f w = Done u w' ->
  exists o, objs w !! a = Some o /\ w' = with_objs (insert a (f o)) w.
Proof.
  unfold modify_obj. destruct (objs w !! a) as [o |]; [| discriminate].
  intros H. injection H as _ <-. exists o. split; reflexivity.
Qed.

Lemma emit_Done e w u w' :
  emit e w = Done u w' -> w' = with_trace (fun tr => tr ++ [e]) w.
Proof. unfold emit. intros H. injection H as _ <-. reflexivity. Qed.

Lemma destroy_thread_Done p w u w' :
  destroy_thread p w = Done u w' -> w' = w.
Proof.
  unfold destroy_thread. destruct p as [t |]; run_m.
  - destruct (bool_decide _); [discriminate |].
    intros H. injection H as _ <-. reflexivity.
  - intros H. injection H as _ <-. reflexivity.
Qed.

(** The loop body on a read that delivers data: what is stored is cut to the
    size of the scratch buffer, the counters are updated, the bytes are
    copied to a new vector and the handler is run on it. *)
Lemma capture_iteration_read_clipped w t this h buffer o buf data :
  objs w !! this = Some o ->
  vectors w !! buffer = Some buf ->
  (0 < length (take (length buf) data))%nat ->
  capture_iteration run_handler t this h buffer (ReadOk data) w
  = after_handler (next_buf w)
      (run_handler h (next_buf w)
         (at_handler_call t this h buffer o buf (take (length buf) data) w)).
Proof.
  intros Ho Hb Hpos.
  unfold capture_iteration, call_handler. run_m.
  rewrite Ho, Hb. simpl_w. rewrite Hb. cbn [sys_read fst snd]. simpl_w.
  set (d := take (length buf) data) in *.
  destruct (Z.ltb_spec (Z.of_nat (length d)) 0) as [Hneg | _]; [lia |].
  destruct (Z.ltb_spec 0 (Z.of_nat (length d))) as [_ | Hz]; [| lia].
  simpl_w. rewrite Ho. simpl_w.
  unfold next_buf. simpl_w. rewrite !(dom_set_vector w buffer buf _ Hb).
  fold (next_buf w).
  rewrite lookup_insert_eq. simpl_w.
  rewrite Nat2Z.id, take_app_length.
  rewrite <- app_assoc. cbn [app].
  unfold at_handler_call, after_handler.
  destruct (run_handler h (next_buf w) _); simpl_w; reflexivity.
Qed.

Lemma capture_iteration_read w t this h buffer o buf data :
  objs w !! this = Some o ->
  vectors w !! buffer = Some buf ->
  (0 < length data <= length buf)%nat ->
  capture_iteration run_handler t this h buffer (ReadOk data) w
  = after_handler (next_buf w)
      (run_handler h (next_buf w) (at_handler_call t this h buffer o buf data w)).
Proof.
  intros Ho Hb [Hpos Hle].
  pose proof (capture_iteration_read_clipped w t this h buffer o buf data Ho Hb)
    as H.
  rewrite take_ge in H by exact Hle. apply H. exact Hpos.
Qed.

(** ** The capture loop *)

(** While its flag is set, a step of a thread that is in the loop is one
    iteration of the loop body. *)
Lemma captureThreadFunc_looping w t this h buffer o k :
  threads w !! t = Some (mkThread this h (Looping buffer)) ->
  objs w !! this = Some o ->
  running_ o = true ->
  captureThreadFunc run_handler t (Some k) w
  = capture_iteration run_handler t this h buffer k w.
Proof.
  intros Ht Ho Hr. unfold captureThreadFunc, loop_head. run_m.
  rewrite Ht. cbn [th_pc th_this th_handler]. rewrite Ho, Hr. reflexivity.
Qed.

(** C1. A read of N > 0 bytes in the capture loop: the handler runs inside
    the iteration, in a world where the received-packet counter of the
    interface has advanced by 1 and its received-byte counter by N (in the
    arithmetic of [uint64_t]), and it is given a vector that did not exist
    before the iteration, holds exactly the N bytes read, and is not the
    scratch buffer, which keeps its full size. *)
Theorem capture_iteration_received w t this h buffer o buf data :
  objs w !! this = Some o ->
  vectors w !! buffer = Some buf ->
  (0 < length data <= length buf)%nat ->
  let packet := next_buf w in
  let w1 := at_handler_call t this h buffer o buf data w in
  capture_iteration run_handler t this h buffer (ReadOk data) w
  = after_handler packet (run_handler h packet w1)
  /\ (exists o1, objs w1 !! this = Some o1
      /\ getPacketsReceived o1 = wrap64 (getPacketsReceived o + 1)
      /\ getBytesReceived o1
         = wrap64 (getBytesReceived o + Z.of_nat (length data))
      /\ getPacketsSent o1 = getPacketsSent o
      /\ getBytesSent o1 = getBytesSent o)
  /\ vectors w !! packet = None
  /\ vectors w1 !! packet = Some data
  /\ packet <> buffer
  /\ vectors w1 !! buffer = Some (data ++ drop (length data) buf)
  /\ trace w1 = trace w ++ [EvRead (fd_ o) (length buf) (Z.of_nat (length data));
                            EvHandler t h packet data].
Proof.
  intros Ho Hb Hlen packet w1.
  pose proof (next_buf_fresh w) as Hfresh. fold packet in Hfresh.
  assert (Hne : packet <> buffer).
  { intros Heq. rewrite Heq in Hfresh. congruence. }
  split; [apply capture_iteration_read; assumption |].
  split.
  { exists (count_received (Z.of_nat (length data)) o).
    subst w1. unfold at_handler_call. cbn [objs].
    rewrite lookup_insert_eq. repeat split; reflexivity. }
  split; [exact Hfresh |].
  subst w1. unfold at_handler_call. cbn [vectors trace].
  repeat split.
  - apply lookup_insert_eq.
  - exact Hne.
  - rewrite lookup_insert_ne by exact Hne. apply lookup_insert_eq.
Qed.

(** The loop body on a read that returns 0. *)
Lemma capture_iteration_zero w t this h buffer o buf k :
  objs w !! this = Some o ->
  vectors w !! buffer = Some buf ->
  fst (sys_read buf k) = 0 ->
  capture_iteration run_handler t this h buffer k w
  = Done Continue
      (with_trace (fun tr => tr ++ [EvRead (fd_ o) (length buf) 0; EvSleep 1]) w).
Proof.
  intros Ho Hb Hz.
  assert (Hsnd : snd (sys_read buf k) = buf).
  { destruct k as [e | data]; cbn in Hz |- *; [reflexivity |].
    assert (Hl : length (take (length buf) data) = 0%nat) by lia.
    rewrite Hl. destruct (take (length buf) data); [| discriminate].
    reflexivity. }
  unfold capture_iteration. run_m. rewrite Ho, Hb. simpl_w.
  rewrite Hz, Hsnd, Hb. cbn [Z.ltb Z.compare]. simpl_w.
  rewrite insert_id by exact Hb.
  rewrite <- app_assoc. destruct w; reflexivity.
Qed.

(** C10. A read that returns 0 bytes: the iteration changes nothing but the
    trace, to which it adds the read and a sleep of 1 ms; no handler is
    invoked, no counter moves, and the loop goes on. *)
Theorem capture_iteration_empty_read w t this h buffer o buf k :
  objs w !! this = Some o ->
  vectors w !! buffer = Some buf ->
  fst (sys_read buf k) = 0 ->
  capture_iteration run_handler t this h buffer k w
  = Done Continue
      (with_trace (fun tr => tr ++ [EvRead (fd_ o) (length buf) 0; EvSleep 1]) w).
Proof. apply capture_iteration_zero. Qed.

(** C6, as the code has it: a fault of a class derived from [std::exception]
    is caught in the iteration.  The iteration ends normally with a message
    on [cerr], the thread table is as the handler left it, and the loop is
    not left: the next step of the thread is again an iteration. *)
Theorem capture_iteration_std_exception w t this h buffer o buf data what w' :
  objs w !! this = Some o ->
  vectors w !! buffer = Some buf ->
  (0 < length data <= length buf)%nat ->
  run_handler h (next_buf w) (at_handler_call t this h buffer o buf data w)
  = HThrowStd what w' ->
  let w2 := with_vectors (delete (next_buf w))
              (with_trace
                 (fun tr => tr ++ [EvPrint Cerr ("Exception in packet handler: "
                                                 +:+ what)]) w') in
  capture_iteration run_handler t this h buffer (ReadOk data) w
  = Done Continue w2
  /\ threads w2 = threads w'
  /\ objs w2 = objs w'
  /\ forall o2 k,
       threads w2 !! t = Some (mkThread this h (Looping buffer)) ->
       objs w2 !! this = Some o2 ->
       running_ o2 = true ->
       captureThreadFunc run_handler t (Some k) w2
       = capture_iteration run_handler t this h buffer k w2.
Proof.
  intros Ho Hb Hlen Hthrow w2.
  split.
  { rewrite (capture_iteration_read w t this h buffer o buf data Ho Hb Hlen).
    rewrite Hthrow. reflexivity. }
  split; [reflexivity |]. split; [reflexivity |].
  intros o2 k Ht Ho2 Hr. eapply captureThreadFunc_looping; eassumption.
Qed.

(** ** writePacket *)

(** The guard [fd_ < 0 || !running_] of [writePacket]. *)
Lemma writePacket_not_ready w this o packet k :
  objs w !! this = Some o ->
  fd_ o < 0 \/ running_ o = false ->
  writePacket this packet k w = Done false w.
Proof.
  intros Ho Hc. unfold writePacket. run_m. rewrite Ho.
  destruct Hc as [Hfd | Hr].
  - apply Z.ltb_lt in Hfd. rewrite Hfd. reflexivity.
  - rewrite Hr. rewrite orb_true_r. reflexivity.
Qed.

(** C9. [writePacket] on an interface that has no device or is not running
    returns [false] and leaves the world, and so all four counters, as it
    was. *)
Theorem writePacket_refused w this o packet k :
  objs w !! this = Some o ->
  fd_ o < 0 \/ running_ o = false ->
  writePacket this packet k w = Done false w.
Proof. apply writePacket_not_ready. Qed.

Lemma sys_write_bounds len k :
  0 <= sys_write len k -> 0 <= sys_write len k <= Z.of_nat len.
Proof. destruct k as [e | n]; cbn; lia. Qed.

(** What is known when [writePacket] has returned [true]. *)
Lemma writePacket_true_inv w this o packet k w' :
  objs w !! this = Some o ->
  writePacket this packet k w = Done true w' ->
  let written := sys_write (length packet) k in
  0 <= fd_ o /\ running_ o = true
  /\ 0 <= written <= Z.of_nat (length packet)
  /\ (exists o', objs w' !! this = Some o'
      /\ getPacketsSent o' = wrap64 (getPacketsSent o + 1)
      /\ getBytesSent o' = wrap64 (getBytesSent o + written)
      /\ getPacketsReceived o' = getPacketsReceived o
      /\ getBytesReceived o' = getBytesReceived o)
  /\ (forall n, k = WriteOk n -> (length packet <= n)%nat ->
      written = Z.of_nat (length packet)).
Proof.
  intros Ho Hw written. unfold writePacket in Hw. revert Hw. run_m.
  rewrite Ho.
  destruct (Z.ltb_spec (fd_ o) 0) as [Hfd | Hfd]; cbn [orb]; [discriminate |].
  destruct (running_ o) eqn:Hr; cbn [negb]; [| discriminate].
  simpl_w. fold written.
  destruct (Z.ltb_spec written 0) as [Hneg | Hpos].
  { destruct (negb _ && negb _); simpl_w; discriminate. }
  simpl_w. rewrite Ho. simpl_w. intros Hw. injection Hw as <-.
  split; [exact Hfd |]. split; [reflexivity |].
  split; [apply sys_write_bounds; exact Hpos |].
  split.
  { exists (count_sent written o). simpl_w. rewrite lookup_insert_eq.
    repeat split; reflexivity. }
  intros n -> Hn. subst written. cbn. f_equal. lia.
Qed.

(** C2, as the code has it: when [writePacket] returns [true] the interface
    had a device and was running, the sent-packet counter has advanced by 1
    and the sent-byte counter by the number of bytes that [write] reported,
    which is at most the length of the packet and equal to it when the write
    was not short. *)
Theorem writePacket_accepted w this o packet k w' :
  objs w !! this = Some o ->
  writePacket this packet k w = Done true w' ->
  let written := sys_write (length packet) k in
  0 <= fd_ o /\ running_ o = true
  /\ 0 <= written <= Z.of_nat (length packet)
  /\ (exists o', objs w' !! this = Some o'
      /\ getPacketsSent o' = wrap64 (getPacketsSent o + 1)
      /\ getBytesSent o' = wrap64 (getBytesSent o + written)
      /\ getPacketsReceived o' = getPacketsReceived o
      /\ getBytesReceived o' = getBytesReceived o)
  /\ (forall n, k = WriteOk n -> (length packet <= n)%nat ->
      written = Z.of_nat (length packet)).
Proof. apply writePacket_true_inv. Qed.

(** ** stopCapture *)

Lemma stopCapture_not_running w this o rs :
  objs w !! this = Some o ->
  running_ o = false ->
  stopCapture run_handler this rs w = Done tt w.
Proof.
  intros Ho Hr. unfold stopCapture. run_m. rewrite Ho, Hr. reflexivity.
Qed.

Lemma stopCapture_no_thread w this o rs :
  objs w !! this = Some o ->
  capture_thread_ o = None ->
  stopCapture run_handler this rs w = Done tt w.
Proof.
  intros Ho Ht. unfold stopCapture. run_m. rewrite Ho, Ht.
  destruct (running_ o); reflexivity.
Qed.

(** When [stopCapture] has returned, the object is not running or owns no
    thread. *)
Lemma stopCapture_returned w this rs w1 :
  stopCapture run_handler this rs w = Done tt w1 ->
  exists o1, objs w1 !! this = Some o1
             /\ (running_ o1 = false \/ capture_thread_ o1 = None).
Proof.
  unfold stopCapture. intros H.
  apply bind_Done in H as (o & w0 & Hget & H).
  apply get_obj_Done in Hget as [-> Ho].
  destruct (running_ o) eqn:Hr; cycle 1.
  { injection H as <-. exists o. split; [exact Ho | left; exact Hr]. }
  destruct (capture_thread_ o) as [t |] eqn:Ht; cycle 1.
  { injection H as <-. exists o. split; [exact Ho | right; exact Ht]. }
  apply bind_Done in H as (? & wa & _ & H).
  apply bind_Done in H as (j & wb & _ & H).
  apply bind_Done in H as (? & wc & _ & H).
  apply bind_Done in H as (? & wd & _ & H).
  apply bind_Done in H as (? & we & Hmod & H).
  apply bind_Done in H as (o' & wf & Hget & H).
  apply get_obj_Done in Hget as [-> Ho'].
  apply emit_Done in H as ->.
  apply modify_obj_Done in Hmod as (od & Hod & ->).
  exists (with_capture_thread None od). simpl_w.
  rewrite lookup_insert_eq. split; [reflexivity | right; reflexivity].
Qed.

(** C8. [stopCapture] is idempotent: on an interface that is not running it
    returns and leaves the world as it was, and once a call has returned, a
    further call returns and leaves the world as the first call left it. *)
Theorem stopCapture_idempotent w this o rs rs' :
  objs w !! this = Some o ->
  (running_ o = false -> stopCapture run_handler this rs w = Done tt w)
  /\ (forall w1, stopCapture run_handler this rs w = Done tt w1 ->
                 stopCapture run_handler this rs' w1 = Done tt w1).
Proof.
  intros Ho. split.
  - intros Hr. eapply stopCapture_not_running; eassumption.
  - intros w1 H1.
    destruct (stopCapture_returned _ _ _ _ H1) as (o1 & Ho1 & [Hr | Ht]).
    + eapply stopCapture_not_running; eassumption.
    + eapply stopCapture_no_thread; eassumption.
Qed.

(** A thread whose object has a cleared flag leaves the loop at its next
    step, wherever it is in its function. *)
Lemma captureThreadFunc_leaves w t th o k :
  threads w !! t = Some th ->
  objs w !! th_this th = Some o ->
  running_ o = false ->
  exists w',
    captureThreadFunc run_handler t k w = Done Exit w'
    /\ objs w' = objs w /\ trace w' = trace w
    /\ delete t (threads w') = delete t (threads w).
Proof.
  intros Ht Ho Hr. unfold captureThreadFunc, loop_head. run_m.
  rewrite Ht. destruct (th_pc th) as [| buffer |]; simpl_w.
  - rewrite Ht. simpl_w. rewrite Ho, Hr. simpl_w.
    rewrite lookup_insert_eq. eexists. split; [reflexivity |]. simpl_w.
    repeat split. rewrite !delete_insert_eq. reflexivity.
  - rewrite Ho, Hr. simpl_w. rewrite Ht.
    eexists. split; [reflexivity |]. simpl_w.
    repeat split. rewrite delete_insert_eq. reflexivity.
  - eexists. split; [reflexivity |]. repeat split.
Qed.

(** [stopCapture] returns on every running interface whose thread runs on
    the interface itself: the thread is joined and the flag and the handle
    are cleared. *)
Lemma stopCapture_returns w this o t th rs :
  objs w !! this = Some o ->
  running_ o = true ->
  capture_thread_ o = Some t ->
  threads w !! t = Some th ->
  th_this th = this ->
  exists w1,
    stopCapture run_handler this rs w = Done tt w1
    /\ objs w1 = <[this := with_capture_thread None (with_running false o)]>
                   (objs w)
    /\ threads w1 = delete t (threads w)
    /\ trace w1 = trace w ++ [EvJoin t;
                              EvPrint Cout ("Stopped packet capture on interface "
                                            +:+ name_ o)].
Proof.
  intros Ho Hr Hc Ht Hthis.
  set (w0 := mkWorld (<[this := with_running false o]> (objs w)) (threads w)
               (vectors w) (trace w)).
  assert (Hstep : forall k, exists w',
             captureThreadFunc run_handler t k w0 = Done Exit w'
             /\ objs w' = objs w0 /\ trace w' = trace w0
             /\ delete t (threads w') = delete t (threads w0)).
  { intros k. apply (captureThreadFunc_leaves w0 t th (with_running false o)).
    - exact Ht.
    - rewrite Hthis. apply lookup_insert_eq.
    - reflexivity. }
  assert (Hrun : exists w',
             run_to_exit run_handler t rs w0 = Done tt w'
             /\ objs w' = objs w0 /\ trace w' = trace w0
             /\ delete t (threads w') = delete t (threads w0)).
  { destruct rs as [| r rs]; cbn [run_to_exit]; unfold bind.
    - destruct (Hstep None) as (w' & -> & H). exists w'. split; [reflexivity | exact H].
    - destruct (Hstep (Some r)) as (w' & -> & H). exists w'.
      split; [reflexivity | exact H]. }
  destruct Hrun as (w' & Hrun & Hobjs & Htrace & Hthreads).
  unfold stopCapture, join, destroy_thread. run_m. rewrite Ho, Hr, Hc. simpl_w.
  rewrite Ho. simpl_w. rewrite Ht.
  rewrite bool_decide_eq_true_2 by eauto.
  fold w0. rewrite Hrun. simpl_w. rewrite lookup_delete_eq.
  rewrite bool_decide_eq_false_2 by (intros [? ?]; discriminate).
  simpl_w. rewrite Hobjs. subst w0. simpl_w. rewrite lookup_insert_eq.
  simpl_w. rewrite lookup_insert_eq.
  eexists. split; [reflexivity |]. simpl_w.
  rewrite insert_insert_eq, Hthreads, Htrace. simpl_w.
  rewrite <- app_assoc. repeat split.
Qed.

(** ** Construction and moves *)

Lemma inert_refuses_all w a o :
  objs w !! a = Some o ->
  inert o ->
  refuses_all run_handler a w.
Proof.
  intros Ho (Hfd & Hr & Ht). repeat split.
  - intros h. unfold startCapture. run_m. rewrite Ho, Hfd. reflexivity.
  - intros packet k. apply (writePacket_not_ready w a o); [exact Ho |].
    left. lia.
  - intros rs. eapply stopCapture_not_running; eassumption.
  - intros rs. unfold dtor. unfold bind at 1.
    rewrite (stopCapture_not_running w a o rs Ho Hr).
    unfold destroy_thread. run_m. rewrite Ho, Hfd. cbn [Z.leb Z.compare].
    rewrite Ho, Ht. reflexivity.
Qed.

(** The constructor makes an inert object with its counters at zero. *)
Lemma ctor_inert w a name type w' :
  TunTapInterface_ctor a name type w = Done tt w' ->
  exists o, objs w' !! a = Some o /\ inert o
            /\ counters a w' = Some (0, 0, 0, 0) /\ getName o = name
            /\ refuses_all run_handler a w'.
Proof.
  unfold TunTapInterface_ctor. destruct (objs w !! a) eqn:Ha; [discriminate |].
  intros H. injection H as <-.
  assert (Ho : objs (with_objs
                       (insert a (mkTunTap name type (-1) false None 0 0 0 0)) w)
               !! a = Some (mkTunTap name type (-1) false None 0 0 0 0)).
  { simpl_w. apply lookup_insert_eq. }
  eexists. split; [exact Ho |].
  assert (Hin : inert (mkTunTap name type (-1) false None 0 0 0 0))
    by (repeat split).
  split; [exact Hin |]. split.
  { unfold counters. rewrite Ho. reflexivity. }
  split; [reflexivity |]. eapply inert_refuses_all; eassumption.
Qed.

Lemma moved_state_intro src this other w' :
  this <> other ->
  objs w' !! this = Some (moved_to src) ->
  objs w' !! other = Some (moved_from src) ->
  moved_state run_handler src this other w'.
Proof.
  intros Hne Hd Hs. exists (moved_to src), (moved_from src).
  split; [exact Hd |]. split; [exact Hs |].
  assert (Hin : inert (moved_from src)) by (repeat split).
  repeat (split; [reflexivity |]).
  split; [exact Hin |].
  repeat (split; [reflexivity |]).
  eapply inert_refuses_all; eassumption.
Qed.

Lemma move_ctor_moves w this other src w' :
  objs w !! other = Some src ->
  move_ctor this other w = Done tt w' ->
  moved_state run_handler src this other w'.
Proof.
  intros Ho. unfold move_ctor. run_m. rewrite Ho.
  destruct (objs w !! this) eqn:Hthis; [discriminate |].
  intros H. injection H as <-.
  assert (Hne : this <> other) by congruence.
  apply moved_state_intro; [exact Hne | |]; simpl_w.
  - rewrite lookup_insert_ne by congruence. apply lookup_insert_eq.
  - apply lookup_insert_eq.
Qed.

(** The shape of a move assignment between two objects that returns. *)
Lemma move_assign_Done w this other rs w' :
  this <> other ->
  move_assign run_handler this other rs w = Done tt w' ->
  exists w1 wb src,
    stopCapture run_handler this rs w = Done tt w1
    /\ objs wb = objs w1
    /\ objs w1 !! other = Some src
    /\ w' = with_objs (insert other (moved_from src))
              (with_objs (insert this (moved_to src)) wb)
    /\ threads wb = threads w1
    /\ exists o, objs w1 !! this = Some o
                 /\ destroy_thread (capture_thread_ o) wb = Done tt wb.
Proof.
  intros Hne H. unfold move_assign in H.
  apply bind_Done in H as (? & wa & Hg & H).
  apply get_obj_Done in Hg as [-> _].
  apply bind_Done in H as (? & wa & Hg & H).
  apply get_obj_Done in Hg as [-> _].
  destruct (decide (this = other)) as [Heq | _]; [contradiction |].
  apply bind_Done in H as ([] & w1 & Hstop & H).
  apply bind_Done in H as (o & wa & Hg & H).
  apply get_obj_Done in Hg as [-> Ho].
  apply bind_Done in H as (? & wb & Hclose & H).
  apply bind_Done in H as (src & wc & Hg & H).
  apply get_obj_Done in Hg as [-> Hsrc].
  apply bind_Done in H as ([] & wd & Hd & H).
  pose proof (destroy_thread_Done _ _ _ _ Hd) as ->.
  apply bind_Done in H as (? & we & Hm & H).
  apply modify_obj_Done in Hm as (? & _ & ->).
  apply modify_obj_Done in H as (? & _ & ->).
  assert (Hsame : objs wb = objs w1 /\ threads wb = threads w1).
  { destruct (0 <=? fd_ o).
    - apply emit_Done in Hclose as ->. repeat split.
    - inversion Hclose. repeat split. }
  destruct Hsame as (Hobjs & Hthreads).
  exists w1, wb, src. split; [exact Hstop |]. split; [exact Hobjs |].
  split; [rewrite <- Hobjs; exact Hsrc |]. split; [reflexivity |].
  split; [exact Hthreads |].
  exists o. split; [exact Ho | exact Hd].
Qed.

Lemma move_assign_moves w this other rs w' :
  this <> other ->
  move_assign run_handler this other rs w = Done tt w' ->
  exists w1 src,
    stopCapture run_handler this rs w = Done tt w1
    /\ objs w1 !! other = Some src
    /\ moved_state run_handler src this other w'.
Proof.
  intros Hne H.
  destruct (move_assign_Done _ _ _ _ _ Hne H)
    as (w1 & wb & src & Hstop & Hobjs & Hsrc & -> & _).
  exists w1, src. split; [exact Hstop |]. split; [exact Hsrc |].
  apply moved_state_intro; [exact Hne | |]; simpl_w.
  - rewrite lookup_insert_ne by congruence. apply lookup_insert_eq.
  - apply lookup_insert_eq.
Qed.

Lemma move_assign_self w this o rs :
  objs w !! this = Some o ->
  move_assign run_handler this this rs w = Done tt w.
Proof.
  intros Ho. unfold move_assign. run_m. rewrite Ho.
  destruct (decide (this = this)); [| contradiction].
  rewrite Ho. reflexivity.
Qed.

(** C3, as the code has it.  A move between two distinct objects (the move
    constructor, or the move assignment once the destination has stopped its
    own capture) gives the destination the four counters, the running flag,
    the descriptor and the thread of the source.  The source is left without
    descriptor, thread or flag, so that [isRunning] is false and
    [startCapture], [writePacket], [stopCapture] and the destructor do on it
    what they do on an interface that was never initialized; its counters
    keep their values and its name is that of a moved-from string.  A move
    assignment of an object to itself changes nothing. *)
Theorem move_leaves_source_inert this other :
  (forall w src w',
      objs w !! other = Some src ->
      move_ctor this other w = Done tt w' ->
      moved_state run_handler src this other w')
  /\ (forall w rs w',
         this <> other ->
         move_assign run_handler this other rs w = Done tt w' ->
         exists w1 src,
           stopCapture run_handler this rs w = Done tt w1
           /\ objs w1 !! other = Some src
           /\ (forall o, objs w !! this = Some o -> running_ o = false ->
                         w1 = w)
           /\ moved_state run_handler src this other w')
  /\ (forall w rs o,
         objs w !! this = Some o ->
         move_assign run_handler this this rs w = Done tt w).
Proof.
  split; [| split].
  - intros w src w'. apply move_ctor_moves.
  - intros w rs w' Hne H.
    destruct (move_assign_moves _ _ _ _ _ Hne H) as (w1 & src & Hs & Hsrc & Hm).
    exists w1, src. split; [exact Hs |]. split; [exact Hsrc |].
    split; [| exact Hm].
    intros o Ho Hr.
    rewrite (stopCapture_not_running w this o rs Ho Hr) in Hs.
    injection Hs as <-. reflexivity.
  - intros w rs o. apply move_assign_self.
Qed.

(** ** What an operation leaves in place *)

Lemma keeps_ret R `{!Frame R} {A} (a : A) : keeps R (ret a).
Proof. intros w a' w' H. injection H as _ <-. apply frame_refl. Qed.

Lemma keeps_fail R {A} f : keeps R (@fail A f).
Proof. intros w a w' H. discriminate. Qed.

Lemma keeps_bind R `{!Frame R} {A B} (m : M A) (k : A -> M B) :
  keeps R m -> (forall a, keeps R (k a)) -> keeps R (bind m k).
Proof.
  intros Hm Hk w b w' H.
  apply bind_Done in H as (a & w1 & H1 & H2).
  eapply frame_trans; [eapply Hm | eapply Hk]; eassumption.
Qed.

Lemma keeps_emit R `{!Frame R} e : keeps R (emit e).
Proof. intros w a w' H. injection H as _ <-. apply frame_trace. Qed.

Lemma keeps_print R `{!Frame R} st msg : keeps R (print st msg).
Proof. exact (keeps_emit R (EvPrint st msg)). Qed.

Lemma keeps_get_obj R `{!Frame R} a : keeps R (get_obj a).
Proof.
  intros w o w' H. apply get_obj_Done in H as [-> _]. apply frame_refl.
Qed.

Lemma keeps_get_thread R `{!Frame R} t : keeps R (get_thread t).
Proof.
  intros w th w'. unfold get_thread. destruct (threads w !! t); [| discriminate].
  intros H. injection H as _ <-. apply frame_refl.
Qed.

Lemma keeps_set_pc R `{!Frame R} t pc : keeps R (set_pc t pc).
Proof.
  intros w u w'. unfold set_pc.
  destruct (threads w !! t) as [th |] eqn:Ht; [| discriminate].
  intros H. injection H as _ <-. apply frame_pc. exact Ht.
Qed.

Lemma keeps_joinable R `{!Frame R} t : keeps R (joinable t).
Proof. intros w b w' H. injection H as _ <-. apply frame_refl. Qed.

Lemma keeps_new_vector R `{!Frame R} d : keeps R (new_vector d).
Proof. intros w b w' H. injection H as _ <-. apply frame_vectors. Qed.

Lemma keeps_delete_vector R `{!Frame R} b : keeps R (delete_vector b).
Proof. intros w u w' H. injection H as _ <-. apply frame_vectors. Qed.

Lemma keeps_get_vector R `{!Frame R} b : keeps R (get_vector b).
Proof.
  intros w d w'. unfold get_vector. destruct (vectors w !! b); [| discriminate].
  intros H. injection H as _ <-. apply frame_refl.
Qed.

Lemma keeps_set_vector R `{!Frame R} b d : keeps R (set_vector b d).
Proof.
  intros w u w'. unfold set_vector. destruct (vectors w !! b); [| discriminate].
  intros H. injection H as _ <-. apply frame_vectors.
Qed.

Lemma keeps_destroy_thread R `{!Frame R} p : keeps R (destroy_thread p).
Proof.
  intros w u w' H. apply destroy_thread_Done in H as ->. apply frame_refl.
Qed.

Lemma keeps_modify_obj R a f : updates R a f -> keeps R (modify_obj a f).
Proof.
  intros Hup w u w' H. apply modify_obj_Done in H as (o & Ho & ->).
  apply Hup. exact Ho.
Qed.

Lemma keeps_unit R {A} (m : M A) : keeps R m -> keeps R (m ;; ret tt).
Proof.
  intros Hm w u w' H. apply bind_Done in H as (b & w1 & H1 & H2).
  injection H2 as _ <-. eapply Hm. exact H1.
Qed.

Create HintDb keeps discriminated.

#[local] Hint Resolve keeps_ret keeps_fail keeps_print keeps_emit keeps_get_obj
  keeps_get_thread keeps_set_pc keeps_joinable keeps_new_vector
  keeps_delete_vector keeps_get_vector keeps_set_vector keeps_destroy_thread
  keeps_modify_obj : keeps.

(** One step through a computation: a known part, a bind, or a case
    distinction of the code. *)
Ltac keeps_step :=
  first
    [ solve [auto 3 with keeps]
    | apply keeps_bind; [solve [auto 3 with keeps] | | intros ?]
    | match goal with
      | |- keeps _ (if ?b then _ else _) => destruct b
      | |- keeps _ (match ?x with _ => _ end) => destruct x
      end ].

Ltac keeps_auto := repeat keeps_step.

Section Keeps.

Context (R : World -> World -> Prop) `{!Frame R}.

Lemma keeps_close_device a :
  updates R a (with_fd (-1)) -> keeps R (close_device a).
Proof. intros H. unfold close_device. keeps_auto. Qed.

Lemma keeps_initialize a k :
  (forall fd, updates R a (with_fd fd)) ->
  (forall n, updates R a (with_name n)) ->
  keeps R (initialize a k).
Proof.
  intros Hfd Hname. unfold initialize.
  pose proof (keeps_close_device a (Hfd (-1))) as Hclose.
  keeps_auto.
Qed.

Lemma keeps_configure a ip mask k : keeps R (configure a ip mask k).
Proof. unfold configure. keeps_auto. Qed.

Lemma keeps_writePacket a packet k :
  (forall n, updates R a (count_sent n)) ->
  keeps R (writePacket a packet k).
Proof. intros Hc. unfold writePacket. keeps_auto. Qed.

(** The capture thread, for handlers that respect the frame. *)
Hypothesis handler_ok :
  forall h packet w, R w (hres_world (run_handler h packet w)).

Lemma keeps_call_handler t h packet :
  keeps R (call_handler run_handler t h packet).
Proof.
  unfold call_handler. keeps_auto.
  intros w u w' H. pose proof (handler_ok h packet w) as Hh.
  destruct (run_handler h packet w) as [w1 | what w1 | w1]; cbn in Hh.
  - injection H as _ <-. exact Hh.
  - apply emit_Done in H as ->.
    eapply frame_trans; [exact Hh |]. apply frame_trace.
  - discriminate.
Qed.

Lemma keeps_capture_iteration t a h buffer k :
  (forall n, updates R a (count_received n)) ->
  keeps R (capture_iteration run_handler t a h buffer k).
Proof.
  intros Hrec. unfold capture_iteration.
  pose proof (keeps_call_handler t h) as Hcall.
  keeps_auto.
Qed.

Lemma keeps_captureThreadFunc t k :
  k = None \/ receives R ->
  keeps R (captureThreadFunc run_handler t k).
Proof.
  intros Hk. unfold captureThreadFunc, loop_head.
  assert (Hit : forall a h buffer r, k = Some r ->
            keeps R (capture_iteration run_handler t a h buffer r)).
  { intros a h buffer r ->. destruct Hk as [Hk | Hk]; [discriminate |].
    apply keeps_capture_iteration. intros n. apply Hk. }
  destruct k as [r |]; keeps_auto.
Qed.

Lemma keeps_run_to_exit t rs :
  rs = [] \/ receives R ->
  keeps R (run_to_exit run_handler t rs).
Proof.
  intros Hrs.
  assert (Hnone : keeps R (captureThreadFunc run_handler t None))
    by (apply keeps_captureThreadFunc; left; reflexivity).
  destruct Hrs as [-> | Hrec]; [cbn [run_to_exit]; keeps_auto |].
  assert (Hstep : forall k, keeps R (captureThreadFunc run_handler t k))
    by (intros k; apply keeps_captureThreadFunc; right; exact Hrec).
  induction rs as [| r rs IH]; cbn [run_to_exit]; keeps_auto.
Qed.

End Keeps.

(** The frame of one object. *)
Section Framed.

Variable this : addr.
Variable ok : TunTapInterface -> TunTapInterface -> Prop.
Hypothesis ok_refl : forall o, ok o o.
Hypothesis ok_trans : forall o1 o2 o3, ok o1 o2 -> ok o2 o3 -> ok o1 o3.

Lemma framed_same_objs w w' : objs w' = objs w -> framed this ok w w'.
Proof.
  intros Heq o Ho. exists o. rewrite Heq. split; [exact Ho | apply ok_refl].
Qed.

#[local] Instance framed_frame : Frame (framed this ok).
Proof.
  split.
  - intros w. apply framed_same_objs. reflexivity.
  - intros w1 w2 w3 H12 H23 o Ho.
    destruct (H12 o Ho) as (o2 & Ho2 & Hok2).
    destruct (H23 o2 Ho2) as (o3 & Ho3 & Hok3).
    exists o3. split; [exact Ho3 | eapply ok_trans; eassumption].
  - intros w f. apply framed_same_objs. reflexivity.
  - intros w vs nb. apply framed_same_objs. reflexivity.
  - intros w t th pc _. apply framed_same_objs. reflexivity.
Qed.

Lemma allowed_updates a f :
  allowed this ok a f -> updates (framed this ok) a f.
Proof.
  intros Hal w oa Hoa o Ho. simpl_w.
  destruct (decide (a = this)) as [-> | Hne].
  - rewrite lookup_insert_eq. exists (f oa). split; [reflexivity |].
    destruct Hal as [Hc | Hok]; [contradiction |].
    rewrite Hoa in Ho. injection Ho as <-. apply Hok.
  - rewrite lookup_insert_ne by exact Hne. exists o.
    split; [exact Ho | apply ok_refl].
Qed.

#[local] Hint Resolve framed_frame allowed_updates : keeps.

Lemma keeps_spawn a h : keeps (framed this ok) (spawn a h).
Proof.
  intros w t w' H. injection H as _ <-. apply framed_same_objs. reflexivity.
Qed.

#[local] Hint Resolve keeps_spawn : keeps.

Lemma keeps_startCapture a h :
  allowed this ok a (with_running true) ->
  (forall p, allowed this ok a (with_capture_thread p)) ->
  keeps (framed this ok) (startCapture a h).
Proof. intros Hr Hc. unfold startCapture. keeps_auto. Qed.

Hypothesis handler_ok :
  forall h packet w,
    framed this ok w (hres_world (run_handler h packet w)).

Lemma keeps_join t rs :
  rs = [] \/ receives (framed this ok) ->
  keeps (framed this ok) (join run_handler t rs).
Proof.
  intros Hrs. unfold join.
  pose proof (keeps_run_to_exit (framed this ok) handler_ok t rs Hrs) as Hrun.
  keeps_auto.
  intros w u w' H. injection H as _ <-. apply framed_same_objs. reflexivity.
Qed.

Lemma keeps_stopCapture a rs :
  rs = [] \/ receives (framed this ok) ->
  allowed this ok a (with_running false) ->
  allowed this ok a (with_capture_thread None) ->
  keeps (framed this ok) (stopCapture run_handler a rs).
Proof.
  intros Hrs Hr Hc. unfold stopCapture.
  assert (Hjoin : forall t, keeps (framed this ok) (join run_handler t rs))
    by (intros t; apply keeps_join; exact Hrs).
  keeps_auto.
Qed.

Lemma keeps_ctor a name type :
  keeps (framed this ok) (TunTapInterface_ctor a name type).
Proof.
  intros w u w'. unfold TunTapInterface_ctor.
  destruct (objs w !! a) eqn:Ha; [discriminate |].
  intros H. injection H as _ <-. intros o Ho. simpl_w.
  exists o. split; [| apply ok_refl].
  rewrite lookup_insert_ne by congruence. exact Ho.
Qed.

Lemma keeps_move_ctor a b :
  (b <> this \/ forall o, ok o (moved_from o)) ->
  keeps (framed this ok) (move_ctor a b).
Proof.
  intros Hb w u w'. unfold move_ctor. run_m.
  destruct (objs w !! b) as [src |] eqn:Hsrc; [| discriminate].
  destruct (objs w !! a) eqn:Ha; [discriminate |].
  intros H. injection H as _ <-. intros o Ho. simpl_w.
  assert (Hathis : a <> this) by congruence.
  destruct (decide (b = this)) as [-> | Hne].
  - rewrite lookup_insert_eq. exists (moved_from src).
    split; [reflexivity |].
    destruct Hb as [Hc | Hok]; [contradiction |].
    assert (o = src) as -> by congruence. apply Hok.
  - rewrite !lookup_insert_ne by congruence.
    exists o. split; [exact Ho | apply ok_refl].
Qed.

Lemma keeps_move_assign a b rs :
  rs = [] \/ receives (framed this ok) ->
  a <> this \/ a = b ->
  (b <> this \/ forall o, ok o (moved_from o)) ->
  keeps (framed this ok) (move_assign run_handler a b rs).
Proof.
  intros Hrs Ha Hb w u w' H. destruct u.
  destruct (decide (a = b)) as [<- | Hne].
  { pose proof H as H0. unfold move_assign in H0.
    apply bind_Done in H0 as (o & wa & Hg & _).
    apply get_obj_Done in Hg as [_ Ho].
    rewrite (move_assign_self _ _ _ rs Ho) in H.
    injection H as <-. apply frame_refl. }
  destruct Ha as [Ha | Ha]; [| contradiction].
  destruct (move_assign_Done _ _ _ _ _ Hne H)
    as (w1 & wb & src & Hstop & Hobjs & Hsrc & -> & _).
  assert (Hk : keeps (framed this ok) (stopCapture run_handler a rs))
    by (apply keeps_stopCapture; [exact Hrs | left; exact Ha ..]).
  eapply frame_trans; [eapply Hk; exact Hstop |].
  intros o Ho. simpl_w. rewrite Hobjs.
  destruct (decide (b = this)) as [-> | Hbne].
  - rewrite lookup_insert_eq. exists (moved_from src).
    split; [reflexivity |].
    destruct Hb as [Hc | Hok]; [contradiction |].
    assert (o = src) as -> by congruence. apply Hok.
  - rewrite !lookup_insert_ne by congruence.
    exists o. split; [exact Ho | apply ok_refl].
Qed.

Lemma keeps_dtor a rs :
  rs = [] \/ receives (framed this ok) ->
  a <> this -> keeps (framed this ok) (dtor run_handler a rs).
Proof.
  intros Hrs Ha. unfold dtor.
  assert (Hstop : keeps (framed this ok) (stopCapture run_handler a rs))
    by (apply keeps_stopCapture; [exact Hrs | left; exact Ha ..]).
  assert (Hclose : keeps (framed this ok) (close_device a)).
  { apply keeps_close_device; [exact framed_frame |].
    apply allowed_updates. left. exact Ha. }
  keeps_auto.
  intros w u w' H. injection H as _ <-. intros o Ho. simpl_w.
  exists o. split; [| apply ok_refl].
  rewrite lookup_delete_ne by exact Ha. exact Ho.
Qed.

End Framed.


(** ** startCapture *)

Lemma startCapture_started w this h w1 :
  startCapture this h w = Done true w1 ->
  exists o1, objs w1 !! this = Some o1 /\ running_ o1 = true
             /\ capture_thread_ o1 = Some (next_tid w)
             /\ threads w !! next_tid w = None
             /\ threads w1
                = <[next_tid w := mkThread this h Starting]> (threads w).
Proof.
  unfold startCapture. intros H.
  apply bind_Done in H as (o & wa & Hg & H).
  apply get_obj_Done in Hg as [-> Ho].
  destruct (fd_ o <? 0).
  { apply bind_Done in H as (? & ? & _ & H). discriminate. }
  destruct (running_ o).
  { apply bind_Done in H as (? & ? & _ & H). discriminate. }
  apply bind_Done in H as (? & wa & Hm & H).
  apply modify_obj_Done in Hm as (? & _ & ->).
  apply bind_Done in H as (t & wb & Hsp & H).
  injection Hsp as <- <-.
  apply bind_Done in H as (? & wc & Hd & H).
  apply destroy_thread_Done in Hd as ->.
  apply bind_Done in H as (? & wd & Hm & H).
  apply modify_obj_Done in Hm as (o2 & Ho2 & ->).
  apply bind_Done in H as (? & we & He & H).
  apply emit_Done in He as ->. injection H as <-.
  revert Ho2. simpl_w. rewrite !lookup_insert_eq.
  intros Ho2. injection Ho2 as <-.
  eexists. split; [reflexivity |]. repeat split.
  apply next_tid_fresh.
Qed.

Lemma startCapture_while_running w this o h :
  objs w !! this = Some o ->
  running_ o = true ->
  startCapture this h w
  = Done false
      (with_trace
         (fun tr => tr ++ [EvPrint Cerr
                             (if fd_ o <? 0
                              then "Cannot start capture: interface not initialized"
                              else "Capture already running")]) w).
Proof.
  intros Ho Hr. unfold startCapture. run_m. rewrite Ho, Hr.
  destruct (fd_ o <? 0); reflexivity.
Qed.

Lemma stays_running_refl o : stays_running o o.
Proof. intros H. exact H. Qed.

Lemma stays_running_trans o1 o2 o3 :
  stays_running o1 o2 -> stays_running o2 o3 -> stays_running o1 o3.
Proof. unfold stays_running. auto. Qed.

Lemma stays_running_frame this : Frame (framed this stays_running).
Proof.
  apply framed_frame; [exact stays_running_refl | exact stays_running_trans].
Qed.

Lemma stays_running_allowed this a f :
  (forall o, running_ (f o) = running_ o \/ running_ (f o) = true) ->
  updates (framed this stays_running) a f.
Proof.
  intros Hf. apply allowed_updates; [exact stays_running_refl |].
  right. intros o Hr. destruct (Hf o) as [-> | ->]; [exact Hr | reflexivity].
Qed.

Lemma run_op_stays_running this c :
  (forall g packet w0,
      framed this stays_running w0 (hres_world (run_handler g packet w0))) ->
  ends_capture this c = false ->
  keeps (framed this stays_running) (run_op run_handler c).
Proof.
  intros Hh Hc.
  pose proof stays_running_refl as Hrefl.
  pose proof stays_running_trans as Htrans.
  pose proof (stays_running_frame this) as Hframe.
  assert (Hrec : receives (framed this stays_running)).
  { intros a n. apply stays_running_allowed. intros o. left. reflexivity. }
  destruct c as [a name type | a k | a ip mask k | a h | a | a packet k
                 | a b | a b | a | t k]; cbn [run_op ends_capture] in Hc |- *.
  - apply keeps_ctor. exact Hrefl.
  - apply keeps_unit. apply keeps_initialize; [exact Hframe | |];
      intros; apply stays_running_allowed; intros o; left; reflexivity.
  - apply keeps_unit. apply keeps_configure. exact Hframe.
  - apply keeps_unit. apply keeps_startCapture; try assumption;
      intros; right; intros o Hr; reflexivity || exact Hr.
  - apply bool_decide_eq_false in Hc.
    apply keeps_stopCapture; try assumption; unfold allowed; auto.
  - apply keeps_unit. apply keeps_writePacket; [exact Hframe |].
    intros n. apply stays_running_allowed. intros o. left. reflexivity.
  - apply orb_false_iff in Hc as [Ha Hb].
    apply bool_decide_eq_false in Hb.
    apply keeps_move_ctor; [exact Hrefl | left; exact Hb].
  - apply orb_false_iff in Hc as [Ha Hb].
    apply bool_decide_eq_false in Ha. apply bool_decide_eq_false in Hb.
    apply keeps_move_assign; try assumption; unfold allowed; auto.
  - apply bool_decide_eq_false in Hc.
    apply keeps_dtor; try assumption; unfold allowed; auto.
  - apply keeps_unit.
    apply keeps_captureThreadFunc; [exact Hframe | exact Hh |].
    right. exact Hrec.
Qed.

Lemma run_ops_stays_running this cs :
  (forall g packet w0,
      framed this stays_running w0 (hres_world (run_handler g packet w0))) ->
  forallb (fun c => negb (ends_capture this c)) cs = true ->
  keeps (framed this stays_running) (run_ops run_handler cs).
Proof.
  intros Hh. pose proof (stays_running_frame this) as Hframe.
  induction cs as [| c cs IH]; cbn [run_ops forallb]; intros Hcs.
  - apply keeps_ret. exact Hframe.
  - apply andb_true_iff in Hcs as [Hc Hcs]. apply negb_true_iff in Hc.
    apply keeps_bind.
    + exact Hframe.
    + apply run_op_stays_running; assumption.
    + intros _. apply IH. exact Hcs.
Qed.


(** ** The statistics *)

Lemma same_counters_refl o : same_counters o o.
Proof. repeat split. Qed.

Lemma same_counters_trans o1 o2 o3 :
  same_counters o1 o2 -> same_counters o2 o3 -> same_counters o1 o3.
Proof.
  intros (A1 & A2 & A3 & A4) (B1 & B2 & B3 & B4).
  repeat split; congruence.
Qed.

Lemma advanced_same kmax c : uint64_range c -> 0 <= kmax -> advanced kmax c c.
Proof.
  intros Hc Hk. exists 0. split; [lia |].
  rewrite Z.add_0_r. symmetry. apply wrap64_small. exact Hc.
Qed.

(** A counter that advanced by at most [kmax] did not decrease, unless the
    addition passed 2^64. *)
Lemma advanced_le kmax c c' :
  uint64_range c -> advanced kmax c c' -> c + kmax < 2 ^ 64 -> c <= c'.
Proof.
  intros Hc (k & Hk & ->) Hmax.
  rewrite wrap64_small; [lia |]. unfold uint64_range in *. lia.
Qed.

Lemma op_packets_nonneg c : 0 <= op_packets c.
Proof. destruct c; cbn; lia. Qed.

Lemma op_bytes_nonneg c : 0 <= op_bytes c.
Proof. destruct c as [| | | | | | | | | t [e | data]]; cbn; lia. Qed.

Lemma same_counters_advanced c o o' :
  counters_in_range o -> same_counters o o' -> counters_advanced c o o'.
Proof.
  intros (R1 & R2 & R3 & R4) (E1 & E2 & E3 & E4).
  pose proof (op_packets_nonneg c). pose proof (op_bytes_nonneg c).
  unfold counters_advanced, getPacketsReceived, getPacketsSent,
    getBytesReceived, getBytesSent.
  rewrite E1, E2, E3, E4. repeat split; apply advanced_same; assumption.
Qed.

Lemma same_objs_advanced c a w w' o o' :
  counters_in_range o ->
  objs w' = objs w ->
  objs w !! a = Some o -> objs w' !! a = Some o' ->
  counters_advanced c o o'.
Proof.
  intros Hr Heq Ho Ho'. rewrite Heq, Ho in Ho'. injection Ho' as <-.
  apply same_counters_advanced; [exact Hr | apply same_counters_refl].
Qed.

Lemma same_counters_frame a : Frame (framed a same_counters).
Proof.
  apply framed_frame; [exact same_counters_refl | exact same_counters_trans].
Qed.

Lemma same_counters_allowed this a f :
  a <> this \/ (forall o, same_counters o (f o)) ->
  updates (framed this same_counters) a f.
Proof.
  intros Hf. apply allowed_updates; [exact same_counters_refl | exact Hf].
Qed.

Lemma keeps_same_counters_advanced {A} a (m : M A) c w u w' o o' :
  keeps (framed a same_counters) m ->
  counters_in_range o ->
  m w = Done u w' ->
  objs w !! a = Some o -> objs w' !! a = Some o' ->
  counters_advanced c o o'.
Proof.
  intros Hk Hr Hm Ho Ho'.
  destruct (Hk w u w' Hm o Ho) as (o2 & Ho2 & Hsame).
  assert (o2 = o') as -> by congruence.
  apply same_counters_advanced; assumption.
Qed.

Lemma writePacket_false_objs w this packet k w' :
  writePacket this packet k w = Done false w' -> objs w' = objs w.
Proof.
  unfold writePacket. run_m.
  destruct (objs w !! this) as [o |]; [| discriminate].
  destruct ((fd_ o <? 0) || negb (running_ o)).
  { intros H. injection H as <-. reflexivity. }
  simpl_w. destruct (sys_write (length packet) k <? 0).
  - destruct (negb _ && negb _); simpl_w; intros H; inversion H;
      reflexivity.
  - simpl_w. destruct (objs w !! this); simpl_w; intros H; discriminate H.
Qed.

Lemma dtor_removes w this rs w' :
  dtor run_handler this rs w = Done tt w' -> objs w' !! this = None.
Proof.
  unfold dtor. intros H.
  apply bind_Done in H as (? & w1 & _ & H).
  apply bind_Done in H as (? & w2 & _ & H).
  apply bind_Done in H as (? & w3 & _ & H).
  apply bind_Done in H as (? & w4 & _ & H).
  apply bind_Done in H as (? & w5 & _ & H).
  injection H as <-. simpl_w. apply lookup_delete_eq.
Qed.

(** A step of a thread either leaves the objects alone or is an iteration of
    the loop body, on the objects as they were. *)
Lemma captureThreadFunc_Done w t k ctl w' :
  captureThreadFunc run_handler t (Some k) w = Done ctl w' ->
  objs w' = objs w
  \/ exists th buffer w0,
       threads w !! t = Some th /\ objs w0 = objs w
       /\ capture_iteration run_handler t (th_this th) (th_handler th)
            buffer k w0 = Done ctl w'.
Proof.
  unfold captureThreadFunc. intros H.
  apply bind_Done in H as (th & wa & Hg & H).
  assert (Hth : threads w !! t = Some th /\ wa = w).
  { unfold get_thread in Hg. destruct (threads w !! t); [| discriminate].
    injection Hg as <- <-. split; reflexivity. }
  destruct Hth as [Hth ->].
  assert (Hhead : forall buffer w0,
            objs w0 = objs w ->
            loop_head run_handler t (th_this th) (th_handler th) buffer
              (Some k) w0 = Done ctl w' ->
            objs w' = objs w
            \/ exists th buffer w0,
                 threads w !! t = Some th /\ objs w0 = objs w
                 /\ capture_iteration run_handler t (th_this th)
                      (th_handler th) buffer k w0 = Done ctl w').
  { intros buffer w0 Hobjs Hl. unfold loop_head in Hl.
    apply bind_Done in Hl as (o & wb & Hg' & Hl).
    apply get_obj_Done in Hg' as [-> _].
    destruct (running_ o).
    - right. exists th, buffer, w0. repeat split; assumption.
    - left. revert Hl. unfold set_pc. run_m. simpl_w.
      destruct (threads w0 !! t); [| discriminate].
      intros Hl. injection Hl as _ <-. exact Hobjs. }
  destruct (th_pc th) as [| buffer |].
  - apply bind_Done in H as (buffer & wb & Hn & H).
    apply bind_Done in H as (? & wc & Hs & H).
    assert (Hb : objs wb = objs w).
    { unfold new_vector in Hn. injection Hn as _ <-. reflexivity. }
    assert (Hc : objs wc = objs wb).
    { unfold set_pc in Hs. destruct (threads wb !! t); [| discriminate].
      injection Hs as _ <-. reflexivity. }
    eapply Hhead; [| exact H]. congruence.
  - eapply Hhead; [| exact H]. reflexivity.
  - injection H as _ <-. left. reflexivity.
Qed.

Lemma capture_iteration_counters a w t x h buffer k ctl w' o o' :
  (forall g packet w0,
      framed a same_counters w0 (hres_world (run_handler g packet w0))) ->
  counters_in_range o ->
  objs w !! a = Some o -> objs w' !! a = Some o' ->
  capture_iteration run_handler t x h buffer k w = Done ctl w' ->
  counters_advanced (OpCaptureStep t k) o o'.
Proof.
  intros Hh Hr Ho Ho' H.
  destruct (decide (x = a)) as [-> | Hne].
  2: { eapply (keeps_same_counters_advanced a); try eassumption.
       apply keeps_capture_iteration.
       - apply same_counters_frame.
       - exact Hh.
       - intros n. apply same_counters_allowed. left. exact Hne. }
  assert (Hb : exists buf, vectors w !! buffer = Some buf).
  { unfold capture_iteration in H.
    apply bind_Done in H as (? & wa & Hg & H).
    apply get_obj_Done in Hg as [-> _].
    apply bind_Done in H as (buf & wb & Hg & _).
    unfold get_vector in Hg. destruct (vectors w !! buffer) as [b |];
      [| discriminate]. exists b. reflexivity. }
  destruct Hb as (buf & Hb).
  destruct k as [e | data].
  - eapply same_objs_advanced; try eassumption.
    revert H. unfold capture_iteration. run_m. rewrite Ho, Hb. simpl_w.
    rewrite ?Hb. simpl_w.
    cbn [sys_read fst snd Z.ltb Z.compare].
    destruct (negb _ && negb _); simpl_w; intros H; inversion H; reflexivity.
  - destruct (length (take (length buf) data)) as [| n] eqn:Hlen.
    + eapply same_objs_advanced; try eassumption.
      rewrite (capture_iteration_zero w t a h buffer o buf (ReadOk data))
        in H; try assumption.
      * inversion H. reflexivity.
      * cbn [sys_read fst]. rewrite Hlen. reflexivity.
    + rewrite (capture_iteration_read_clipped w t a h buffer o buf data Ho Hb)
        in H by lia.
      set (d := take (length buf) data) in *.
      set (w1 := at_handler_call t a h buffer o buf d w) in *.
      assert (Ho1 : objs w1 !! a = Some (count_received (Z.of_nat (length d)) o)).
      { subst w1. unfold at_handler_call. cbn [objs]. apply lookup_insert_eq. }
      destruct (Hh h (next_buf w) w1 _ Ho1) as (o2 & Ho2 & E1 & E2 & E3 & E4).
      assert (o2 = o') as ->.
      { destruct (run_handler h (next_buf w) w1) as [w2 | what w2 | w2];
          cbn [hres_world after_handler] in Ho2, H;
          [| | discriminate]; inversion H; subst w'; revert Ho';
          simpl_w; congruence. }
      destruct Hr as (R1 & R2 & R3 & R4).
      assert (Hd : (length d <= length data)%nat).
      { subst d. rewrite length_take. lia. }
      unfold counters_advanced, getPacketsReceived, getPacketsSent,
        getBytesReceived, getBytesSent.
      cbn [op_packets op_bytes].
      rewrite E1, E2, E3, E4. cbn [count_received packets_received_
        packets_sent_ bytes_received_ bytes_sent_].
      repeat split.
      * exists 1. split; [lia | reflexivity].
      * apply advanced_same; [exact R2 | lia].
      * exists (Z.of_nat (length d)). split; [lia | reflexivity].
      * apply advanced_same; [exact R4 | lia].
Qed.

(** The counters across an operation, with handlers that leave the counters
    of the interface alone. *)
Lemma counters_advance_framed a c w w' o o' :
  (forall g packet w0,
      framed a same_counters w0 (hres_world (run_handler g packet w0))) ->
  overwrites a c = false ->
  counters_in_range o ->
  objs w !! a = Some o ->
  run_op run_handler c w = Done tt w' ->
  objs w' !! a = Some o' ->
  counters_advanced c o o'.
Proof.
  intros Hh Hc Hr Ho H Ho'.
  pose proof same_counters_refl as Hrefl.
  pose proof same_counters_trans as Htrans.
  pose proof (same_counters_frame a) as Hframe.
  assert (Hall : forall x f, (forall o1, same_counters o1 (f o1)) ->
                             allowed a same_counters x f).
  { intros x f Hf. right. exact Hf. }
  assert (Hupd : forall x f, (forall o1, same_counters o1 (f o1)) ->
                             updates (framed a same_counters) x f).
  { intros x f Hf. apply same_counters_allowed. right. exact Hf. }
  destruct c as [x name type | x k | x ip mask k | x h | x | x packet k
                 | x y | x y | x | t k]; cbn [run_op overwrites] in Hc, H.
  - eapply (keeps_same_counters_advanced a); try eassumption.
    apply keeps_ctor. exact Hrefl.
  - eapply (keeps_same_counters_advanced a); try eassumption.
    apply keeps_unit. apply keeps_initialize; [exact Hframe | |];
      intros; apply Hupd; intros; repeat split.
  - eapply (keeps_same_counters_advanced a); try eassumption.
    apply keeps_unit. apply keeps_configure. exact Hframe.
  - eapply (keeps_same_counters_advanced a); try eassumption.
    apply keeps_unit. apply keeps_startCapture; try assumption;
      intros; apply Hall; intros; repeat split.
  - eapply (keeps_same_counters_advanced a); try eassumption.
    apply keeps_stopCapture; try assumption;
      [left; reflexivity | apply Hall; intros; repeat split ..].
  - apply bind_Done in H as (b & w1 & Hw & H). injection H as <-.
    destruct (decide (x = a)) as [-> | Hne].
    + destruct b.
      * destruct (writePacket_true_inv w a o packet k w1 Ho Hw)
          as (_ & _ & Hwr & (o2 & Ho2 & E2 & E4 & E1 & E3) & _).
        assert (o2 = o') as -> by congruence.
        destruct Hr as (R1 & R2 & R3 & R4).
        unfold counters_advanced. cbn [op_packets op_bytes].
        rewrite E1, E2, E3, E4. repeat split.
        -- apply advanced_same; [exact R1 | lia].
        -- exists 1. split; [lia | reflexivity].
        -- apply advanced_same; [exact R3 | lia].
        -- exists (sys_write (length packet) k). split; [lia | reflexivity].
      * eapply same_objs_advanced; try eassumption.
        eapply writePacket_false_objs. exact Hw.
    + eapply (keeps_same_counters_advanced a); try eassumption.
      apply keeps_writePacket; [exact Hframe |].
      intros n. apply same_counters_allowed. left. exact Hne.
  - eapply (keeps_same_counters_advanced a); try eassumption.
    apply keeps_move_ctor; [exact Hrefl |]. right. intros; repeat split.
  - eapply (keeps_same_counters_advanced a); try eassumption.
    apply keeps_move_assign; try assumption.
    + left. reflexivity.
    + destruct (decide (x = a)) as [-> | Hne]; [| left; exact Hne].
      right. rewrite bool_decide_eq_true_2 in Hc by reflexivity.
      cbn [andb] in Hc. apply negb_false_iff, bool_decide_eq_true in Hc.
      symmetry. exact Hc.
    + right. intros; repeat split.
  - destruct (decide (x = a)) as [-> | Hne].
    + apply dtor_removes in H. congruence.
    + eapply (keeps_same_counters_advanced a); try eassumption.
      apply keeps_dtor; try assumption. left. reflexivity.
  - apply bind_Done in H as (ctl & w1 & Hs & H). injection H as <-.
    destruct (captureThreadFunc_Done _ _ _ _ _ Hs)
      as [Hobjs | (th & buffer & w0 & Hth & Hobjs & Hit)].
    + eapply same_objs_advanced; eassumption.
    + eapply (capture_iteration_counters a w0 t _ _ buffer k ctl w1 o o');
        try eassumption.
      rewrite Hobjs. exact Ho.
Qed.

(** ** The capture tasks *)

#[local] Instance same_tasks_frame : Frame same_tasks.
Proof.
  split.
  - intros w. repeat split.
  - intros w1 w2 w3 (A1 & A2) (B1 & B2). split; congruence.
  - intros w f. repeat split.
  - intros w vs. repeat split.
  - intros w t th pc Ht. split; [reflexivity |].
    unfold joinables. simpl_w. apply dom_insert_lookup_L. eauto.
Qed.

Lemma tasks_insert w a o :
  tasks (with_objs (insert a o) w) = <[a := lifecycle o]> (tasks w).
Proof. unfold tasks. simpl_w. apply fmap_insert. Qed.

Lemma tasks_lookup w a : tasks w !! a = lifecycle <$> objs w !! a.
Proof. unfold tasks. apply lookup_fmap. Qed.

Lemma same_tasks_updates a f :
  (forall o, lifecycle (f o) = lifecycle o) -> updates same_tasks a f.
Proof.
  intros Hf w o Ho. split; [| reflexivity].
  rewrite tasks_insert, Hf. apply insert_id.
  rewrite tasks_lookup, Ho. reflexivity.
Qed.

(** The invariant only depends on what [same_tasks] keeps. *)
Lemma tasks_ok_same_tasks w w' : same_tasks w w' -> tasks_ok w -> tasks_ok w'.
Proof. unfold tasks_ok. intros (-> & ->) H. exact H. Qed.

Lemma tasks_ok_empty : tasks_ok empty_world.
Proof.
  unfold tasks_ok, tasks, joinables, empty_world. cbn [objs threads].
  rewrite fmap_empty, dom_empty_L.
  split; intros;
    try match goal with
      | H : ∅ !! _ = Some _ |- _ => rewrite lookup_empty in H; discriminate
      | H : _ ∈ ∅ |- _ => apply not_elem_of_empty in H; destruct H
      end.
Qed.

(** The invariant across the five changes that the operations make to the
    task records. *)
Section TasksInv.

Variable L : gmap addr (bool * option tid).
Variable T : gset tid.
Hypothesis Hinv : tasks_inv L T.

Lemma tasks_inv_ctor a :
  L !! a = None -> tasks_inv (<[a := (false, None)]> L) T.
Proof.
  intros Ha. destruct Hinv as [F O J W]. split.
  - intros x r p. destruct (decide (a = x)) as [<- | Hne].
    + rewrite lookup_insert_eq. intros [= <- <-].
      split; [discriminate | intros [? ?]; discriminate].
    + rewrite lookup_insert_ne by exact Hne. apply F.
  - intros x x' r r' t. destruct (decide (a = x)) as [<- | Hx];
      [rewrite lookup_insert_eq; discriminate |].
    destruct (decide (a = x')) as [<- | Hx'];
      [rewrite lookup_insert_eq; discriminate |].
    rewrite !lookup_insert_ne by assumption. apply O.
  - intros x r t. destruct (decide (a = x)) as [<- | Hx];
      [rewrite lookup_insert_eq; discriminate |].
    rewrite lookup_insert_ne by assumption. apply J.
  - intros t Ht. destruct (W t Ht) as (x & r & Hx). exists x, r.
    rewrite lookup_insert_ne by congruence. exact Hx.
Qed.

Lemma tasks_inv_start a n :
  n ∉ T ->
  L !! a = Some (false, None) ->
  tasks_inv (<[a := (true, Some n)]> L) ({[n]} ∪ T).
Proof.
  intros Hn Ha. destruct Hinv as [F O J W].
  assert (Hfresh : forall x r, L !! x = Some (r, Some n) -> False).
  { intros x r Hx. apply Hn. eapply J. exact Hx. }
  split.
  - intros x r p. destruct (decide (a = x)) as [<- | Hne].
    + rewrite lookup_insert_eq. intros [= <- <-]. split; eauto.
    + rewrite lookup_insert_ne by exact Hne. apply F.
  - intros x x' r r' t. destruct (decide (a = x)) as [<- | Hx];
      destruct (decide (a = x')) as [<- | Hx']; try reflexivity.
    + rewrite lookup_insert_eq, lookup_insert_ne by assumption.
      intros [= <- <-] H. destruct (Hfresh _ _ H).
    + rewrite lookup_insert_eq, lookup_insert_ne by assumption.
      intros H [= <- <-]. destruct (Hfresh _ _ H).
    + rewrite !lookup_insert_ne by assumption. apply O.
  - intros x r t. destruct (decide (a = x)) as [<- | Hx].
    + rewrite lookup_insert_eq. intros [= <- <-].
      apply elem_of_union. left. apply elem_of_singleton. reflexivity.
    + rewrite lookup_insert_ne by assumption. intros H.
      apply elem_of_union. right. eapply J. exact H.
  - intros t Ht. apply elem_of_union in Ht as [Ht | Ht].
    + apply elem_of_singleton in Ht as ->. exists a, true.
      apply lookup_insert_eq.
    + destruct (W t Ht) as (x & r & Hx). exists x, r.
      rewrite lookup_insert_ne by congruence. exact Hx.
Qed.

Lemma tasks_inv_stop a r t :
  L !! a = Some (r, Some t) ->
  tasks_inv (<[a := (false, None)]> L) (T ∖ {[t]}).
Proof.
  intros Ha. destruct Hinv as [F O J W]. split.
  - intros x r0 p. destruct (decide (a = x)) as [<- | Hne].
    + rewrite lookup_insert_eq. intros [= <- <-].
      split; [discriminate | intros [? ?]; discriminate].
    + rewrite lookup_insert_ne by exact Hne. apply F.
  - intros x x' r0 r' t0. destruct (decide (a = x)) as [<- | Hx];
      [rewrite lookup_insert_eq; discriminate |].
    destruct (decide (a = x')) as [<- | Hx'];
      [rewrite lookup_insert_eq; discriminate |].
    rewrite !lookup_insert_ne by assumption. apply O.
  - intros x r0 t0. destruct (decide (a = x)) as [<- | Hx];
      [rewrite lookup_insert_eq; discriminate |].
    rewrite lookup_insert_ne by assumption. intros H.
    apply elem_of_difference. split; [eapply J; exact H |].
    intros Heq. apply elem_of_singleton in Heq as ->.
    apply Hx. eapply O; eassumption.
  - intros t0 Ht. apply elem_of_difference in Ht as [Ht Hne].
    destruct (W t0 Ht) as (x & r0 & Hx). exists x, r0.
    rewrite lookup_insert_ne; [exact Hx |].
    intros <-. rewrite Ha in Hx. injection Hx as _ <-.
    apply Hne. apply elem_of_singleton. reflexivity.
Qed.

Lemma tasks_inv_move a b l :
  a <> b ->
  (L !! a = None \/ exists r, L !! a = Some (r, None)) ->
  L !! b = Some l ->
  tasks_inv (<[b := (false, None)]> (<[a := l]> L)) T.
Proof.
  intros Hab Ha Hb. destruct Hinv as [F O J W].
  assert (Hnone : forall r t, L !! a = Some (r, Some t) -> False).
  { intros r t H. destruct Ha as [Ha | [r' Ha]]; congruence. }
  split.
  - intros x r p. destruct (decide (b = x)) as [<- | Hbx].
    + rewrite lookup_insert_eq. intros [= <- <-].
      split; [discriminate | intros [? ?]; discriminate].
    + rewrite lookup_insert_ne by exact Hbx.
      destruct (decide (a = x)) as [<- | Hax].
      * rewrite lookup_insert_eq. intros [= ->]. eapply F. exact Hb.
      * rewrite lookup_insert_ne by exact Hax. apply F.
  - assert (Hlook : forall x r t,
              <[b := (false, None)]> (<[a := l]> L) !! x = Some (r, Some t) ->
              x <> b /\ (x = a /\ L !! b = Some (r, Some t)
                         \/ x <> a /\ L !! x = Some (r, Some t))).
    { intros x r t. destruct (decide (b = x)) as [<- | Hbx];
        [rewrite lookup_insert_eq; discriminate |].
      rewrite lookup_insert_ne by exact Hbx.
      destruct (decide (a = x)) as [<- | Hax].
      - rewrite lookup_insert_eq. intros [= ->]. split; [congruence |].
        left. split; [reflexivity | exact Hb].
      - rewrite lookup_insert_ne by exact Hax. intros H.
        split; [congruence |]. right. split; [congruence | exact H]. }
    intros x x' r r' t H1 H2.
    apply Hlook in H1 as (Hxb & [[-> H1] | [Hxa H1]]);
      apply Hlook in H2 as (Hxb' & [[-> H2] | [Hxa' H2]]).
    + reflexivity.
    + exfalso. apply Hxb'. symmetry. eapply O; eassumption.
    + exfalso. apply Hxb. symmetry. eapply O; eassumption.
    + eapply O; eassumption.
  - intros x r t. destruct (decide (b = x)) as [<- | Hbx];
      [rewrite lookup_insert_eq; discriminate |].
    rewrite lookup_insert_ne by exact Hbx.
    destruct (decide (a = x)) as [<- | Hax].
    + rewrite lookup_insert_eq. intros [= ->]. eapply J. exact Hb.
    + rewrite lookup_insert_ne by exact Hax. apply J.
  - intros t Ht. destruct (W t Ht) as (x & r & Hx).
    destruct (decide (x = b)) as [-> | Hxb].
    + exists a, r. rewrite lookup_insert_ne by congruence.
      rewrite lookup_insert_eq. congruence.
    + exists x, r. rewrite lookup_insert_ne by congruence.
      rewrite lookup_insert_ne; [exact Hx |].
      intros <-. eapply Hnone. exact Hx.
Qed.

Lemma tasks_inv_dtor a r :
  L !! a = Some (r, None) -> tasks_inv (delete a L) T.
Proof.
  intros Ha. destruct Hinv as [F O J W]. split.
  - intros x r0 p H. apply lookup_delete_Some in H as [_ H]. eapply F. exact H.
  - intros x x' r0 r' t H1 H2.
    apply lookup_delete_Some in H1 as [_ H1].
    apply lookup_delete_Some in H2 as [_ H2]. eapply O; eassumption.
  - intros x r0 t H. apply lookup_delete_Some in H as [_ H]. eapply J. exact H.
  - intros t Ht. destruct (W t Ht) as (x & r0 & Hx). exists x, r0.
    apply lookup_delete_Some. split; [| exact Hx]. intros <-. congruence.
Qed.

End TasksInv.

(** What each operation does to the task records, for handlers that leave
    them alone. *)
Section Tasks.

Hypothesis handler_tasks :
  forall h packet w, same_tasks w (hres_world (run_handler h packet w)).

Lemma receives_same_tasks : receives same_tasks.
Proof. intros a n. apply same_tasks_updates. reflexivity. Qed.

Lemma ctor_tasks w a name type w' :
  TunTapInterface_ctor a name type w = Done tt w' ->
  tasks w !! a = None
  /\ tasks w' = <[a := (false, None)]> (tasks w)
  /\ joinables w' = joinables w.
Proof.
  unfold TunTapInterface_ctor.
  destruct (objs w !! a) eqn:Ha; [discriminate |].
  intros H. injection H as <-.
  split; [rewrite tasks_lookup, Ha; reflexivity |].
  split; [apply tasks_insert | reflexivity].
Qed.

Lemma startCapture_tasks w a h b w' :
  startCapture a h w = Done b w' ->
  b = false /\ same_tasks w w'
  \/ b = true
     /\ (exists p, tasks w !! a = Some (false, p))
     /\ tasks w' = <[a := (true, Some (next_tid w))]> (tasks w)
     /\ joinables w' = {[next_tid w]} ∪ joinables w.
Proof.
  unfold startCapture. intros H.
  apply bind_Done in H as (o & wa & Hg & H).
  apply get_obj_Done in Hg as [-> Ho].
  destruct (fd_ o <? 0).
  { apply bind_Done in H as (? & ? & He & H). apply emit_Done in He as ->.
    injection H as <- <-. left. split; [reflexivity | apply frame_trace]. }
  destruct (running_ o) eqn:Hr.
  { apply bind_Done in H as (? & ? & He & H). apply emit_Done in He as ->.
    injection H as <- <-. left. split; [reflexivity | apply frame_trace]. }
  apply bind_Done in H as (? & wa & Hm & H).
  apply modify_obj_Done in Hm as (? & _ & ->).
  apply bind_Done in H as (t & wb & Hsp & H).
  injection Hsp as <- <-.
  apply bind_Done in H as (? & wc & Hd & H).
  apply destroy_thread_Done in Hd as ->.
  apply bind_Done in H as (? & wd & Hm & H).
  apply modify_obj_Done in Hm as (o2 & Ho2 & ->).
  apply bind_Done in H as (? & we & He & H).
  apply emit_Done in He as ->. injection H as <- <-.
  revert Ho2. simpl_w. rewrite lookup_insert_eq. intros [= <-].
  right. split; [reflexivity |]. split.
  { exists (capture_thread_ o). rewrite tasks_lookup, Ho. cbn.
    unfold lifecycle. rewrite Hr. reflexivity. }
  unfold tasks, joinables. simpl_w.
  rewrite insert_insert_eq, fmap_insert, dom_insert_L. repeat split.
Qed.

Lemma stopCapture_tasks w a rs w' :
  stopCapture run_handler a rs w = Done tt w' ->
  same_tasks w w'
  \/ exists t,
       tasks w !! a = Some (true, Some t)
       /\ tasks w' = <[a := (false, None)]> (tasks w)
       /\ joinables w' = joinables w ∖ {[t]}.
Proof.
  unfold stopCapture. intros H.
  apply bind_Done in H as (o & wa & Hg & H).
  apply get_obj_Done in Hg as [-> Ho].
  destruct (running_ o) eqn:Hr; cycle 1.
  { injection H as <-. left. apply frame_refl. }
  destruct (capture_thread_ o) as [t |] eqn:Ht; cycle 1.
  { injection H as <-. left. apply frame_refl. }
  right. exists t.
  apply bind_Done in H as (? & wa & Hm & H).
  apply modify_obj_Done in Hm as (o0 & Ho0 & ->).
  assert (o0 = o) as -> by congruence.
  set (wa := with_objs (insert a (with_running false o)) w) in *.
  assert (Hwa : tasks wa = <[a := (false, Some t)]> (tasks w)
                /\ joinables wa = joinables w).
  { subst wa. rewrite tasks_insert. unfold lifecycle. cbn. rewrite Ht.
    repeat split. }
  destruct Hwa as (Twa & Jwa).
  apply bind_Done in H as (j & wb & Hj & H).
  injection Hj as <- <-.
  apply bind_Done in H as (? & wd & Hjoin & H).
  assert (Hwd : tasks wd = tasks wa
                /\ joinables wd = joinables wa ∖ {[t]}).
  { change (threads wa) with (threads w) in Hjoin.
    destruct (bool_decide (is_Some (threads w !! t))) eqn:Hjb.
    - unfold join in Hjoin.
      apply bind_Done in Hjoin as (? & wb & Hrun & Hjoin).
      apply bind_Done in Hjoin as (? & wc & He & Hjoin).
      apply emit_Done in He as ->. injection Hjoin as _ <-.
      destruct (keeps_run_to_exit same_tasks handler_tasks t rs
                  (or_intror receives_same_tasks) _ _ _ Hrun)
        as (Tb & Jb).
      split; [exact Tb |].
      unfold joinables in *. simpl_w. rewrite dom_delete_L, Jb. reflexivity.
    - injection Hjoin as _ <-. repeat split.
      apply bool_decide_eq_false in Hjb.
      unfold joinables. symmetry. apply difference_disjoint_L.
      apply disjoint_singleton_r. intros Hin. apply Hjb.
      apply elem_of_dom. exact Hin. }
  destruct Hwd as (Twd & Jwd).
  apply bind_Done in H as (? & we & Hd & H).
  apply destroy_thread_Done in Hd as ->.
  apply bind_Done in H as (? & wf & Hm & H).
  apply modify_obj_Done in Hm as (od & Hod & ->).
  apply bind_Done in H as (? & wg & Hg & H).
  apply get_obj_Done in Hg as [-> _].
  apply emit_Done in H as ->.
  assert (Hlod : lifecycle od = (false, Some t)).
  { assert (Hl : tasks wd !! a = Some (lifecycle od))
      by (rewrite tasks_lookup, Hod; reflexivity).
    rewrite Twd, Twa, lookup_insert_eq in Hl. congruence. }
  split.
  { rewrite tasks_lookup, Ho. cbn. unfold lifecycle. rewrite Hr, Ht.
    reflexivity. }
  split.
  { change (tasks (with_objs (insert a (with_capture_thread None od)) wd)
            = <[a := (false, None)]> (tasks w)).
    rewrite tasks_insert, Twd, Twa, insert_insert_eq.
    unfold lifecycle in *. cbn. injection Hlod as -> _. reflexivity. }
  change (joinables wd = joinables w ∖ {[t]}). rewrite Jwd, Jwa.
  reflexivity.
Qed.

Lemma move_ctor_tasks w a b w' :
  move_ctor a b w = Done tt w' ->
  a <> b /\ tasks w !! a = None
  /\ (exists l, tasks w !! b = Some l
                /\ tasks w' = <[b := (false, None)]> (<[a := l]> (tasks w)))
  /\ joinables w' = joinables w.
Proof.
  unfold move_ctor. run_m.
  destruct (objs w !! b) as [src |] eqn:Hsrc; [| discriminate].
  destruct (objs w !! a) eqn:Ha; [discriminate |].
  intros H. injection H as <-.
  split; [congruence |].
  split; [rewrite tasks_lookup, Ha; reflexivity |].
  split; [| reflexivity].
  exists (lifecycle src). split; [rewrite tasks_lookup, Hsrc; reflexivity |].
  unfold tasks. simpl_w. rewrite !fmap_insert. reflexivity.
Qed.

Lemma tasks_ok_stopped w a rs w' :
  tasks_ok w' ->
  stopCapture run_handler a rs w = Done tt w' ->
  tasks w' !! a = Some (false, None).
Proof.
  intros Hok H.
  destruct (stopCapture_returned _ _ _ _ H) as (o & Ho & Hcase).
  pose proof (flag_iff_task _ _ Hok a (running_ o) (capture_thread_ o))
    as Hflag.
  rewrite tasks_lookup, Ho in Hflag. specialize (Hflag eq_refl).
  rewrite tasks_lookup, Ho. cbn. unfold lifecycle.
  destruct Hcase as [Hr | Ht].
  - rewrite Hr in *. destruct (capture_thread_ o) as [t |]; [| reflexivity].
    assert (false = true) by (apply Hflag; eauto). discriminate.
  - rewrite Ht in *. destruct (running_ o); [| reflexivity].
    destruct Hflag as [Hflag _]. destruct (Hflag eq_refl). discriminate.
Qed.

Lemma stopCapture_tasks_ok w a rs w' :
  tasks_ok w ->
  stopCapture run_handler a rs w = Done tt w' ->
  tasks_ok w'.
Proof.
  intros Hok H.
  destruct (stopCapture_tasks _ _ _ _ H) as [Hs | (t & Ha & Ht & Hj)].
  - eapply tasks_ok_same_tasks; eassumption.
  - unfold tasks_ok. rewrite Ht, Hj.
    eapply tasks_inv_stop; eassumption.
Qed.

(** The invariant holds across every operation. *)
Lemma run_op_tasks_ok c w w' :
  tasks_ok w ->
  run_op run_handler c w = Done tt w' ->
  tasks_ok w'.
Proof.
  intros Hok H.
  assert (Hkeep : forall (m : M bool),
            keeps same_tasks m -> (m ;; ret tt) w = Done tt w' -> tasks_ok w').
  { intros m Hm Hrun. apply (keeps_unit same_tasks m Hm) in Hrun.
    eapply tasks_ok_same_tasks; eassumption. }
  destruct c as [x name type | x k | x ip mask k | x h | x | x packet k
                 | x y | x y | x | t k]; cbn [run_op] in H.
  - destruct (ctor_tasks _ _ _ _ _ H) as (Hx & Ht & Hj).
    unfold tasks_ok. rewrite Ht, Hj. apply tasks_inv_ctor; assumption.
  - eapply Hkeep; [| exact H].
    apply keeps_initialize; [exact same_tasks_frame | |];
      intros; apply same_tasks_updates; reflexivity.
  - eapply Hkeep; [| exact H]. apply keeps_configure. exact same_tasks_frame.
  - apply bind_Done in H as (b & w1 & Hs & H). injection H as <-.
    destruct (startCapture_tasks _ _ _ _ _ Hs)
      as [[_ Hsame] | (_ & (p & Hx) & Ht & Hj)].
    + eapply tasks_ok_same_tasks; eassumption.
    + assert (p = None) as ->.
      { destruct p as [t |]; [| reflexivity].
        assert (false = true)
          by (apply (flag_iff_task _ _ Hok x false (Some t) Hx); eauto).
        discriminate. }
      unfold tasks_ok. rewrite Ht, Hj.
      apply tasks_inv_start; [exact Hok | | exact Hx].
      unfold joinables, next_tid. apply is_fresh.
  - eapply stopCapture_tasks_ok; eassumption.
  - eapply Hkeep; [| exact H].
    apply keeps_writePacket; [exact same_tasks_frame |].
    intros; apply same_tasks_updates; reflexivity.
  - destruct (move_ctor_tasks _ _ _ _ H)
      as (Hne & Hx & (l & Hy & Ht) & Hj).
    unfold tasks_ok. rewrite Ht, Hj.
    apply tasks_inv_move; auto.
  - destruct (decide (x = y)) as [<- | Hne].
    { pose proof H as H0. unfold move_assign in H0.
      apply bind_Done in H0 as (o & wa & Hg & _).
      apply get_obj_Done in Hg as [_ Ho].
      rewrite (move_assign_self _ _ _ [] Ho) in H.
      injection H as <-. exact Hok. }
    destruct (move_assign_Done _ _ _ _ _ Hne H)
      as (w1 & wb & src & Hstop & Hobjs & Hsrc & -> & Hthreads & _).
    pose proof (stopCapture_tasks_ok _ _ _ _ Hok Hstop) as Hok1.
    pose proof (tasks_ok_stopped _ _ _ _ Hok1 Hstop) as Hx.
    assert (Ht : tasks (with_objs (insert y (moved_from src))
                          (with_objs (insert x (moved_to src)) wb))
                 = <[y := (false, None)]>
                     (<[x := lifecycle src]> (tasks w1))).
    { rewrite !tasks_insert. unfold tasks. rewrite Hobjs. reflexivity. }
    unfold tasks_ok. rewrite Ht. unfold joinables. simpl_w.
    rewrite Hthreads.
    apply tasks_inv_move; [exact Hok1 | exact Hne | eauto |].
    rewrite tasks_lookup, Hsrc. reflexivity.
  - unfold dtor in H.
    apply bind_Done in H as ([] & w1 & Hstop & H).
    pose proof (stopCapture_tasks_ok _ _ _ _ Hok Hstop) as Hok1.
    pose proof (tasks_ok_stopped _ _ _ _ Hok1 Hstop) as Hx.
    apply bind_Done in H as (o & wa & Hg & H).
    apply get_obj_Done in Hg as [-> Ho].
    apply bind_Done in H as (? & w2 & Hclose & H).
    assert (Hsame : same_tasks w1 w2).
    { destruct (0 <=? fd_ o).
      - eapply (keeps_close_device same_tasks); [| exact Hclose].
        apply same_tasks_updates. reflexivity.
      - injection Hclose as _ <-. apply frame_refl. }
    apply bind_Done in H as (o2 & wb & Hg & H).
    apply get_obj_Done in Hg as [-> Ho2].
    apply bind_Done in H as (? & wc & Hd & H).
    apply destroy_thread_Done in Hd as ->.
    injection H as <-.
    pose proof (tasks_ok_same_tasks _ _ Hsame Hok1) as Hok2.
    destruct Hsame as (Ht & _).
    unfold tasks_ok, tasks, joinables in *. simpl_w. rewrite fmap_delete.
    eapply tasks_inv_dtor; [exact Hok2 |]. rewrite Ht. exact Hx.
  - apply bind_Done in H as (ctl & w1 & Hs & H). injection H as <-.
    eapply tasks_ok_same_tasks; [| exact Hok].
    eapply (keeps_captureThreadFunc same_tasks handler_tasks); [| exact Hs].
    right. exact receives_same_tasks.
Qed.

(** At most one capture task per interface, at any time: the invariant
    holds in every world that a program reaches from the empty one. *)
Lemma run_ops_tasks_ok cs w w' :
  tasks_ok w ->
  run_ops run_handler cs w = Done tt w' ->
  tasks_ok w'.
Proof.
  revert w. induction cs as [| c cs IH]; intros w Hok H; cbn [run_ops] in H.
  - injection H as <-. exact Hok.
  - apply bind_Done in H as ([] & w1 & H1 & H).
    eapply IH; [| exact H]. eapply run_op_tasks_ok; eassumption.
Qed.

End Tasks.

(** ** initialize *)

(** What a failed [initialize] leaves: no descriptor, and the name either as
    it was (the device could not be opened or created) or as the kernel set
    it (the device was created and [fcntl] failed afterwards). *)
Lemma initialize_failed w this o k w' :
  objs w !! this = Some o ->
  initialize this k w = Done false w' ->
  exists o', objs w' !! this = Some o'
    /\ fd_ o' < 0
    /\ type_ o' = type_ o /\ running_ o' = running_ o
    /\ capture_thread_ o' = capture_thread_ o
    /\ same_counters o o'
    /\ (name_ o' = name_ o /\ (open_ret k < 0 \/ tunsetiff_ret k < 0)
        \/ name_ o' = strncpy (IFNAMSIZ - 1) (tunsetiff_name k)
           /\ 0 <= open_ret k /\ 0 <= tunsetiff_ret k
           /\ (getfl_ret k < 0 \/ setfl_ret k < 0)).
Proof.
  intros Ho. unfold initialize, close_device. run_m. simpl_w. rewrite Ho.
  simpl_w. rewrite lookup_insert_eq. cbn [fd_ with_fd].
  destruct (Z.ltb_spec (open_ret k) 0) as [Hopen | Hopen]; simpl_w.
  { intros H. injection H as <-. simpl_w. rewrite lookup_insert_eq.
    eexists. split; [reflexivity |]. cbn. repeat split; auto. }
  destruct (Z.ltb_spec (tunsetiff_ret k) 0) as [Hset | Hset]; simpl_w.
  { rewrite lookup_insert_eq. simpl_w. rewrite lookup_insert_eq.
    intros H. injection H as <-. simpl_w. rewrite lookup_insert_eq.
    eexists. split; [reflexivity |]. cbn. repeat split; auto; lia. }
  rewrite lookup_insert_eq. simpl_w.
  destruct (Z.ltb_spec (getfl_ret k) 0) as [Hget | Hget]; simpl_w.
  { rewrite lookup_insert_eq. simpl_w. rewrite lookup_insert_eq.
    intros H. injection H as <-. simpl_w. rewrite lookup_insert_eq.
    eexists. split; [reflexivity |]. cbn. repeat split; auto; try lia.
    right. repeat split; auto. }
  destruct (Z.ltb_spec (setfl_ret k) 0) as [Hfl | Hfl]; simpl_w.
  { rewrite lookup_insert_eq. simpl_w. rewrite lookup_insert_eq.
    intros H. injection H as <-. simpl_w. rewrite lookup_insert_eq.
    eexists. split; [reflexivity |]. cbn. repeat split; auto; try lia.
    right. repeat split; auto. }
  rewrite lookup_insert_eq. simpl_w. discriminate.
Qed.

(** A successful [initialize] holds the descriptor that [open] returned and
    the name the kernel chose. *)
Lemma initialize_succeeded w this o k w' :
  objs w !! this = Some o ->
  initialize this k w = Done true w' ->
  exists o', objs w' !! this = Some o'
    /\ fd_ o' = open_ret k /\ 0 <= fd_ o'
    /\ name_ o' = strncpy (IFNAMSIZ - 1) (tunsetiff_name k)
    /\ running_ o' = running_ o /\ same_counters o o'.
Proof.
  intros Ho. unfold initialize, close_device. run_m. simpl_w. rewrite Ho.
  simpl_w. rewrite lookup_insert_eq. cbn [fd_ with_fd].
  destruct (Z.ltb_spec (open_ret k) 0) as [Hopen | Hopen]; simpl_w;
    [discriminate |].
  destruct (Z.ltb_spec (tunsetiff_ret k) 0) as [Hset | Hset]; simpl_w.
  { rewrite lookup_insert_eq. simpl_w. rewrite lookup_insert_eq. discriminate. }
  rewrite lookup_insert_eq. simpl_w.
  destruct (Z.ltb_spec (getfl_ret k) 0) as [Hget | Hget]; simpl_w.
  { rewrite lookup_insert_eq. simpl_w. rewrite lookup_insert_eq. discriminate. }
  destruct (Z.ltb_spec (setfl_ret k) 0) as [Hfl | Hfl]; simpl_w.
  { rewrite lookup_insert_eq. simpl_w. rewrite lookup_insert_eq. discriminate. }
  rewrite lookup_insert_eq. simpl_w.
  intros H. injection H as <-. simpl_w. rewrite lookup_insert_eq.
  eexists. split; [reflexivity |]. cbn. repeat split; auto.
Qed.

End Properties.

(** * The theorems at work on the sample runs *)

Lemma quiet_handler_framed this ok :
  (forall o, ok o o) ->
  forall g packet w0,
    framed this ok w0 (hres_world (quiet_handler g packet w0)).
Proof.
  intros Hrefl g packet w0 o Ho. exists o. split; [exact Ho | apply Hrefl].
Defined.

Lemma capture_iteration_received_witness :
  let w := world_received in
  let data := [x04; x05] in
  let w1 := at_handler_call 0 0 7 0 tap0_received scratch_received data w in
  capture_iteration quiet_handler 0 0 7 0 (ReadOk data) w
  = after_handler (next_buf w) (quiet_handler 7%nat (next_buf w) w1)
  /\ counters 0%nat w = Some (1, 0, 3, 0)
  /\ counters 0%nat w1 = Some (2, 0, 5, 0)
  /\ vectors w1 !! next_buf w = Some data
  /\ next_buf w <> 0%nat.
Proof.
  intros w data w1.
  destruct (capture_iteration_received quiet_handler w 0 0 7 0
              tap0_received scratch_received data)
    as (H1 & _ & _ & H3 & H4 & _).
  - reflexivity.
  - vm_compute. reflexivity.
  - cbn. lia.
  - split; [exact H1 |]. split; [reflexivity |].
    split; [vm_compute; reflexivity |]. split; [exact H3 | exact H4].
Defined.

Lemma capture_iteration_empty_read_witness :
  capture_iteration quiet_handler 0 0 7 0 (ReadOk []) world_received
  = Done Continue
      (with_trace (fun tr => tr ++ [EvRead 3 2048 0; EvSleep 1]) world_received).
Proof.
  apply (capture_iteration_empty_read quiet_handler world_received 0 0 7 0
           tap0_received scratch_received (ReadOk [])).
  - reflexivity.
  - vm_compute. reflexivity.
  - reflexivity.
Defined.

Lemma capture_iteration_std_exception_witness :
  capture_iteration faulty_handler 0 0 7 0 (ReadOk [x04; x05]) world_received
  = Done Continue
      (with_vectors (delete (next_buf world_received))
         (with_trace
            (fun tr => tr ++ [EvPrint Cerr
                                "Exception in packet handler: bad packet"])
            (at_handler_call 0 0 7 0 tap0_received scratch_received
               [x04; x05] world_received))).
Proof.
  destruct (capture_iteration_std_exception faulty_handler world_received
              0 0 7 0 tap0_received scratch_received [x04; x05] "bad packet"
              (at_handler_call 0 0 7 0 tap0_received scratch_received
                 [x04; x05] world_received))
    as (H & _).
  - reflexivity.
  - vm_compute. reflexivity.
  - cbn. lia.
  - reflexivity.
  - exact H.
Defined.

(** C6 as stated fails: a handler that throws something that is not a
    [std::exception] ends the thread function, and with it the process. *)
Lemma capture_iteration_foreign_exception :
  capture_iteration foreign_handler 0 0 7 0 (ReadOk [x04; x05]) world_received
  = Fail Terminate
  /\ captureThreadFunc foreign_handler 0 (Some (ReadOk [x04; x05]))
       world_received
     = Fail Terminate.
Proof. split; vm_compute; reflexivity. Qed.

(** Never initialized, never started, and stopped. *)
Lemma writePacket_refused_witness :
  let stopped := world_of (stopCapture quiet_handler 0 [] world_received) in
  writePacket 0 [x01; x02] (WriteOk 2) world_constructed
  = Done false world_constructed
  /\ writePacket 0 [x01; x02] (WriteOk 2) world_initialized
     = Done false world_initialized
  /\ writePacket 0 [x01; x02] (WriteOk 2) stopped = Done false stopped.
Proof.
  intros stopped. split; [| split].
  - apply (writePacket_refused world_constructed 0
             (mkTunTap "tap0" TAP (-1) false None 0 0 0 0)).
    + reflexivity.
    + left. cbn. lia.
  - apply (writePacket_refused world_initialized 0
             (mkTunTap "tap0" TAP 3 false None 0 0 0 0)).
    + reflexivity.
    + right. reflexivity.
  - apply (writePacket_refused stopped 0
             (mkTunTap "tap0" TAP 3 false None 1 0 3 0)).
    + vm_compute. reflexivity.
    + right. reflexivity.
Defined.

Lemma writePacket_accepted_witness :
  obj_after (writePacket 0 [x01; x02; x03; x04] (WriteOk 4) world_received) 0
  = Some (mkTunTap "tap0" TAP 3 true (Some 0%nat) 1 1 3 4)
  /\ sys_write 4 (WriteOk 4) = 4.
Proof.
  destruct (writePacket_accepted world_received 0 tap0_received
              [x01; x02; x03; x04] (WriteOk 4)
              (world_of (run_ops quiet_handler
                           [OpWritePacket 0%nat [x01; x02; x03; x04] (WriteOk 4)]
                           world_received)))
    as (_ & _ & _ & _ & H).
  - reflexivity.
  - vm_compute. reflexivity.
  - split; [vm_compute; reflexivity |].
    apply (H 4%nat); [reflexivity | cbn; lia].
Defined.

(** C2 as stated fails: [write] accepts two of four bytes, the call returns
    [true], and the sent-byte counter has advanced by two. *)
Lemma writePacket_short_write :
  let r := writePacket 0 [x01; x02; x03; x04] (WriteOk 2) world_received in
  outcome r = Some true
  /\ (getBytesSent <$> objs world_received !! 0%nat) = Some 0
  /\ (getBytesSent <$> obj_after r 0) = Some 2
  /\ 2 <> 0 + Z.of_nat (length [x01; x02; x03; x04]).
Proof. vm_compute. repeat split; discriminate. Qed.

Lemma stopCapture_idempotent_witness :
  let w1 := world_of (stopCapture quiet_handler 0 [] world_received) in
  stopCapture quiet_handler 0 [] world_initialized = Done tt world_initialized
  /\ stopCapture quiet_handler 0 [] world_received = Done tt w1
  /\ stopCapture quiet_handler 0 [ReadOk [x01]] w1 = Done tt w1
  /\ (isRunning <$> objs w1 !! 0%nat) = Some false.
Proof.
  intros w1.
  destruct (stopCapture_idempotent quiet_handler world_initialized 0
              (mkTunTap "tap0" TAP 3 false None 0 0 0 0) [] [])
    as (Hidle & _); [reflexivity |].
  destruct (stopCapture_idempotent quiet_handler world_received 0
              tap0_received [] [ReadOk [x01]])
    as (_ & Hagain); [reflexivity |].
  assert (Hfirst : stopCapture quiet_handler 0 [] world_received = Done tt w1)
    by (vm_compute; reflexivity).
  split; [apply Hidle; reflexivity |].
  split; [exact Hfirst |].
  split; [apply Hagain; exact Hfirst |].
  vm_compute. reflexivity.
Defined.

Lemma move_leaves_source_inert_witness :
  moved_state quiet_handler tap0_received 1 0
    (world_of (move_ctor 1 0 world_received))
  /\ moved_state quiet_handler tap0_received 1 0
       (world_of (move_assign quiet_handler 1 0 [] world_two))
  /\ move_assign quiet_handler 0 0 [] world_received = Done tt world_received.
Proof.
  destruct (move_leaves_source_inert quiet_handler 1 0)
    as (Hctor & Hassign & _).
  destruct (move_leaves_source_inert quiet_handler 0 0) as (_ & _ & Hself).
  split; [| split].
  - apply (Hctor world_received); [reflexivity | vm_compute; reflexivity].
  - destruct (Hassign world_two []
                (world_of (move_assign quiet_handler 1 0 [] world_two)))
      as (w1 & src & Hstop & Hsrc & Hsame & Hmoved).
    + discriminate.
    + vm_compute. reflexivity.
    + assert (Hw1 : w1 = world_two).
      { apply (Hsame (mkTunTap "tap1" TAP (-1) false None 0 0 0 0));
          reflexivity. }
      subst w1.
      assert (Hs : src = tap0_received).
      { assert (Hl : objs world_two !! 0%nat = Some tap0_received)
          by reflexivity.
        pose proof (eq_trans (eq_sym Hsrc) Hl) as Heq.
        injection Heq as ->. reflexivity. }
      subst src. exact Hmoved.
  - apply (Hself world_received [] tap0_received). reflexivity.
Defined.

(** C3 as stated fails.  A move assignment of a capturing interface to
    itself leaves it with its descriptor and its flag.  After a move
    construction the source reports the counts it had and an empty name,
    where the interface as constructed reports zeros and its name. *)
Lemma move_source_not_as_constructed :
  move_assign quiet_handler 0 0 [] world_received = Done tt world_received
  /\ (fd_ <$> objs world_received !! 0%nat) = Some 3
  /\ (isRunning <$> objs world_received !! 0%nat) = Some true
  /\ counters 0 (world_of (move_ctor 1 0 world_received)) = Some (1, 0, 3, 0)
  /\ counters 0 world_constructed = Some (0, 0, 0, 0)
  /\ (getName <$> objs (world_of (move_ctor 1 0 world_received)) !! 0%nat)
     = Some ""%string
  /\ (getName <$> objs world_constructed !! 0%nat) = Some "tap0"%string.
Proof. vm_compute. repeat split. Qed.

(** C4 fails on the code: the kernel creates the device and names it
    ["tap0"], then [fcntl(F_GETFL)] fails.  [initialize] returns [false] and
    holds no descriptor, but the name of the interface is no longer the
    empty one it was constructed with. *)
Theorem initialize_failure_keeps_kernel_name :
  let r := initialize 0 (kernel_fcntl_fails 3 "tap0") world_unnamed in
  outcome r = Some false
  /\ (getName <$> objs world_unnamed !! 0%nat) = Some ""%string
  /\ (getName <$> obj_after r 0) = Some "tap0"%string
  /\ (fd_ <$> obj_after r 0) = Some (-1).
Proof. vm_compute. repeat split. Qed.




(** The capture thread keeps the [this] it was started with.  After a move
    of a capturing interface the destination reports that it is running,
    but the thread, which tests the flag of the source, leaves its loop at
    its next step; and once the source is destroyed the thread uses an
    object that does not exist. *)
Lemma moved_capture_thread_stays_on_source :
  let w := world_of (move_ctor 1 0 world_received) in
  (isRunning <$> objs w !! 1%nat) = Some true
  /\ (th_this <$> threads w !! 0%nat) = Some 0%nat
  /\ outcome (captureThreadFunc quiet_handler 0 (Some (ReadOk [x04])) w)
     = Some Exit
  /\ captureThreadFunc quiet_handler 0 (Some (ReadOk [x04]))
       (world_of (dtor quiet_handler 0 [] w))
     = Fail Undefined.
Proof. vm_compute. repeat split. Qed.

(** * The statistics, with handlers that send *)

Lemma kept_or_advanced_advanced kmax k c c' :
  uint64_range c -> 0 <= kmax <= k ->
  kept_or_advanced kmax c c' -> advanced k c c'.
Proof.
  intros Hc Hk [-> | (j & Hj & ->)].
  - apply advanced_same; [exact Hc | lia].
  - exists j. split; [lia | reflexivity].
Qed.

(** The operations of the program itself run no handler. *)
Lemma run_op_no_handler rh rh' c :
  (forall t k, c <> OpCaptureStep t k) -> run_op rh c = run_op rh' c.
Proof.
  destruct c; intros H; try reflexivity. destruct (H t k eq_refl).
Qed.

Section Statistics.

Variable run_handler : hid -> buf_id -> World -> hres.
Variable a : addr.

(** The handlers do no more to the counters of the interface than one
    [writePacket] of the packet they are given. *)
Hypothesis handler_sends :
  forall g packet w0 data,
    vectors w0 !! packet = Some data ->
    framed a (sends_at_most (Z.of_nat (length data))) w0
      (hres_world (run_handler g packet w0)).

Lemma capture_iteration_sends w t x h buffer k ctl w' o o' :
  counters_in_range o ->
  objs w !! a = Some o -> objs w' !! a = Some o' ->
  capture_iteration run_handler t x h buffer k w = Done ctl w' ->
  counters_advanced (OpCaptureStep t k) o o'.
Proof.
  intros Hr Ho Ho' H.
  assert (Hx : exists ox buf,
             objs w !! x = Some ox /\ vectors w !! buffer = Some buf).
  { pose proof H as H0. unfold capture_iteration in H0.
    apply bind_Done in H0 as (ox & wa & Hg & H0).
    apply get_obj_Done in Hg as [-> Hox].
    apply bind_Done in H0 as (buf & wb & Hg & _).
    unfold get_vector in Hg. destruct (vectors w !! buffer) as [b |];
      [| discriminate]. exists ox, b. split; [exact Hox | reflexivity]. }
  destruct Hx as (ox & buf & Hox & Hb).
  destruct k as [e | data].
  - eapply same_objs_advanced; try eassumption.
    revert H. unfold capture_iteration. run_m. rewrite Hox, Hb. simpl_w.
    rewrite ?Hb. simpl_w.
    cbn [sys_read fst snd Z.ltb Z.compare].
    destruct (negb _ && negb _); simpl_w; intros H; inversion H; reflexivity.
  - destruct (length (take (length buf) data)) as [| n] eqn:Hlen.
    + eapply same_objs_advanced; try eassumption.
      rewrite (capture_iteration_zero run_handler w t x h buffer ox buf
                 (ReadOk data)) in H; try assumption.
      * inversion H. reflexivity.
      * cbn [sys_read fst]. rewrite Hlen. reflexivity.
    + rewrite (capture_iteration_read_clipped run_handler w t x h buffer ox buf
                 data Hox Hb) in H by lia.
      set (d := take (length buf) data) in *.
      set (w1 := at_handler_call t x h buffer ox buf d w) in *.
      assert (Hd : (length d <= length data)%nat).
      { subst d. rewrite length_take. lia. }
      assert (Hv : vectors w1 !! next_buf w = Some d).
      { subst w1. unfold at_handler_call. cbn [vectors].
        apply lookup_insert_eq. }
      assert (Ho1 : exists o1,
                 objs w1 !! a = Some o1
                 /\ advanced 1 (packets_received_ o) (packets_received_ o1)
                 /\ advanced (Z.of_nat (length data))
                      (bytes_received_ o) (bytes_received_ o1)
                 /\ packets_sent_ o1 = packets_sent_ o
                 /\ bytes_sent_ o1 = bytes_sent_ o).
      { destruct Hr as (R1 & R2 & R3 & R4).
        subst w1. unfold at_handler_call. cbn [objs].
        destruct (decide (x = a)) as [-> | Hne].
        - assert (ox = o) as -> by congruence.
          eexists. split; [apply lookup_insert_eq |].
          cbn [count_received packets_received_ packets_sent_
                 bytes_received_ bytes_sent_].
          split; [exists 1; split; [lia | reflexivity] |].
          split; [exists (Z.of_nat (length d)); split; [lia | reflexivity] |].
          split; reflexivity.
        - exists o. rewrite lookup_insert_ne by exact Hne.
          split; [exact Ho |].
          split; [apply advanced_same; [exact R1 | lia] |].
          split; [apply advanced_same; [exact R3 | lia] |].
          split; reflexivity. }
      destruct Ho1 as (o1 & Ho1 & A1 & A3 & E2 & E4).
      destruct (handler_sends h (next_buf w) w1 d Hv o1 Ho1)
        as (o2 & Ho2 & E1 & E3 & S2 & S4).
      assert (o2 = o') as ->.
      { destruct (run_handler h (next_buf w) w1) as [w2 | what w2 | w2];
          cbn [hres_world after_handler] in Ho2, H;
          [| | discriminate]; inversion H; subst w'; revert Ho';
          simpl_w; congruence. }
      destruct Hr as (R1 & R2 & R3 & R4).
      unfold counters_advanced, getPacketsReceived, getPacketsSent,
        getBytesReceived, getBytesSent.
      cbn [op_packets op_bytes].
      rewrite E1, E3. rewrite E2 in S2. rewrite E4 in S4.
      split; [exact A1 |].
      split; [apply (kept_or_advanced_advanced 1); [exact R2 | lia | exact S2] |].
      split; [exact A3 |].
      apply (kept_or_advanced_advanced (Z.of_nat (length d)));
        [exact R4 | lia | exact S4].
Qed.


End Statistics.

(** * The lifecycle, path by path *)

(** ** C strings *)

Lemma c_str_prefix s : String.prefix (c_str s) s = true.
Proof.
  induction s as [| c s IH]; cbn; [reflexivity |].
  destruct (Ascii.eqb c Ascii.zero); cbn; [reflexivity |].
  destruct (ascii_dec c c); [exact IH | contradiction].
Qed.

Lemma substring_prefix n s : String.prefix (substring 0 n s) s = true.
Proof.
  revert s. induction n as [| n IH]; intros [| c s]; cbn; try reflexivity.
  destruct (ascii_dec c c); [apply IH | contradiction].
Qed.

Lemma prefix_trans s1 s2 s3 :
  String.prefix s1 s2 = true -> String.prefix s2 s3 = true ->
  String.prefix s1 s3 = true.
Proof.
  revert s2 s3. induction s1 as [| c s1 IH]; intros [| c2 s2] [| c3 s3]; cbn;
    try reflexivity; try discriminate.
  destruct (ascii_dec c c2) as [-> |]; [| discriminate].
  destruct (ascii_dec c2 c3) as [-> |]; [| discriminate].
  apply IH.
Qed.

Lemma substring_length_le n s : (String.length (substring 0 n s) <= n)%nat.
Proof.
  revert s. induction n as [| n IH]; intros [| c s]; cbn; try lia.
  specialize (IH s). lia.
Qed.

Lemma substring_all n s :
  (String.length s <= n)%nat -> substring 0 n s = s.
Proof.
  revert s. induction n as [| n IH]; intros [| c s]; cbn; try reflexivity;
    try lia.
  intros H. rewrite IH by lia. reflexivity.
Qed.

(** The name that [strncpy] leaves in a zeroed [ifr_name]: at most [n]
    characters, a prefix of the source, and the source itself when that is a
    C string of at most [n] characters. *)
Lemma strncpy_bounds n s :
  (String.length (strncpy n s) <= n)%nat
  /\ String.prefix (strncpy n s) s = true
  /\ (c_str s = s -> (String.length s <= n)%nat -> strncpy n s = s).
Proof.
  unfold strncpy. split; [apply substring_length_le |]. split.
  - eapply prefix_trans; [apply substring_prefix | apply c_str_prefix].
  - intros -> H. apply substring_all. exact H.
Qed.

Ltac trace_lists :=
  unfold opens, closes, ioctls, ifr_names, prints, writes; simpl_w;
  rewrite ?omap_app; cbn [omap list_omap opened closed ioctl_of ifr_name_of
                          printed written_of app].

Section Lifecycle.

Variable run_handler : hid -> buf_id -> World -> hres.

(** ** initialize *)

(** Every call of [initialize] on an interface returns; what it returns, the
    object it leaves and the calls it makes. *)
Lemma initialize_Done w this o k :
  objs w !! this = Some o ->
  exists b o' evs,
    initialize this k w
    = Done b (mkWorld (<[this := o']> (objs w)) (threads w) (vectors w)
                (trace w ++ evs))
    /\ (b = true <-> 0 <= open_ret k /\ 0 <= tunsetiff_ret k
                     /\ 0 <= getfl_ret k /\ 0 <= setfl_ret k)
    /\ (if b then fd_ o' = open_ret k
                  /\ name_ o' = strncpy (IFNAMSIZ - 1) (tunsetiff_name k)
        else fd_ o' < 0)
    /\ type_ o' = type_ o /\ running_ o' = running_ o
    /\ capture_thread_ o' = capture_thread_ o /\ same_counters o o'
    /\ opens evs = (if 0 <=? open_ret k then [open_ret k] else [])
    /\ closes evs
       = (if b then [] else if 0 <=? open_ret k then [open_ret k] else [])
    /\ (0 <= open_ret k ->
        exists rest,
          evs = EvOpenTun (open_ret k)
                :: EvTunSetIff (open_ret k)
                     (if decide (name_ o = EmptyString) then EmptyString
                      else strncpy (IFNAMSIZ - 1) (name_ o))
                     (Z.lor (match type_ o with TUN => IFF_TUN | TAP => IFF_TAP end)
                        IFF_NO_PI)
                     (tunsetiff_ret k)
                :: rest).
Proof.
  intros Ho. unfold initialize, close_device. run_m. simpl_w. rewrite Ho.
  simpl_w. rewrite lookup_insert_eq. cbn [fd_ with_fd].
  destruct (Z.ltb_spec (open_ret k) 0) as [Hopen | Hopen]; simpl_w.
  { do 3 eexists. split; [rewrite <- !app_assoc; reflexivity |].
    split; [split; [discriminate | lia] |].
    cbn [fd_ with_fd type_ running_ capture_thread_ app].
    split; [exact Hopen |]. do 3 (split; [reflexivity |]).
    split; [repeat split |]. trace_lists.
    destruct (Z.leb_spec 0 (open_ret k)); [lia |].
    repeat split. lia. }
  destruct (Z.leb_spec 0 (open_ret k)) as [_ |]; [| lia].
  destruct (Z.ltb_spec (tunsetiff_ret k) 0) as [Hset | Hset]; simpl_w.
  { rewrite lookup_insert_eq. simpl_w. rewrite lookup_insert_eq.
    rewrite !insert_insert_eq.
    do 3 eexists. split; [rewrite <- !app_assoc; reflexivity |].
    split; [split; [discriminate | lia] |].
    cbn [fd_ with_fd type_ running_ capture_thread_ app].
    split; [lia |]. do 3 (split; [reflexivity |]).
    split; [repeat split |]. trace_lists.
    destruct (Z.leb_spec 0 (open_ret k)); [| lia].
    repeat split. intros _. eexists. reflexivity. }
  rewrite lookup_insert_eq. simpl_w.
  destruct (Z.ltb_spec (getfl_ret k) 0) as [Hget | Hget]; simpl_w.
  { rewrite lookup_insert_eq. simpl_w. rewrite lookup_insert_eq.
    rewrite !insert_insert_eq.
    do 3 eexists. split; [rewrite <- !app_assoc; reflexivity |].
    split; [split; [discriminate | lia] |].
    cbn [fd_ with_fd with_name type_ running_ capture_thread_ app].
    split; [lia |]. do 3 (split; [reflexivity |]).
    split; [repeat split |]. trace_lists.
    destruct (Z.leb_spec 0 (open_ret k)); [| lia].
    repeat split. intros _. eexists. reflexivity. }
  destruct (Z.ltb_spec (setfl_ret k) 0) as [Hfl | Hfl]; simpl_w.
  { rewrite lookup_insert_eq. simpl_w. rewrite lookup_insert_eq.
    rewrite !insert_insert_eq.
    do 3 eexists. split; [rewrite <- !app_assoc; reflexivity |].
    split; [split; [discriminate | lia] |].
    cbn [fd_ with_fd with_name type_ running_ capture_thread_ app].
    split; [lia |]. do 3 (split; [reflexivity |]).
    split; [repeat split |]. trace_lists.
    destruct (Z.leb_spec 0 (open_ret k)); [| lia].
    repeat split. intros _. eexists. reflexivity. }
  rewrite lookup_insert_eq. simpl_w.
  rewrite !insert_insert_eq.
  do 3 eexists. split; [rewrite <- !app_assoc; reflexivity |].
  split; [split; [intros _; lia | reflexivity] |].
  cbn [fd_ with_fd with_name name_ type_ running_ capture_thread_ app].
  split; [split; reflexivity |]. do 3 (split; [reflexivity |]).
  split; [repeat split |]. trace_lists.
  destruct (Z.leb_spec 0 (open_ret k)); [| lia].
  repeat split. intros _. eexists. reflexivity.
Qed.

(** [initialize] returns on every interface and for every behaviour of the
    kernel.  It returns [true] exactly when [open], [ioctl(TUNSETIFF)] and
    both calls of [fcntl] succeeded; the interface then holds the descriptor
    that [open] returned and the name the kernel left in the request.  When
    it returns [false] the interface holds no descriptor.  The type, the
    flag, the thread and the counters are as they were, and so are the other
    objects, the threads and the vectors. *)
Theorem initialize_succeeds_iff w this o k :
  objs w !! this = Some o ->
  exists b w' o',
    initialize this k w = Done b w'
    /\ (b = true <-> 0 <= open_ret k /\ 0 <= tunsetiff_ret k
                     /\ 0 <= getfl_ret k /\ 0 <= setfl_ret k)
    /\ objs w' = <[this := o']> (objs w)
    /\ threads w' = threads w /\ vectors w' = vectors w
    /\ (if b then fd_ o' = open_ret k
                  /\ name_ o' = strncpy (IFNAMSIZ - 1) (tunsetiff_name k)
        else fd_ o' < 0)
    /\ type_ o' = type_ o /\ isRunning o' = isRunning o
    /\ capture_thread_ o' = capture_thread_ o /\ same_counters o o'.
Proof.
  intros Ho.
  destruct (initialize_Done w this o k Ho)
    as (b & o' & evs & H & Hb & Hfd & Ht & Hr & Hc & Hn & _).
  do 2 eexists. exists o'. split; [exact H |]. simpl_w.
  split; [exact Hb |]. do 3 (split; [reflexivity |]).
  split; [exact Hfd |]. repeat split; try assumption; apply Hn.
Qed.

(** The descriptors of [initialize]: the one that [open] returned is closed
    again, once, on every path that returns [false]; nothing else is closed,
    and nothing is closed when [initialize] returns [true]. *)
Theorem initialize_closes_on_failure w this o k b w' :
  objs w !! this = Some o ->
  initialize this k w = Done b w' ->
  opens (trace w')
  = opens (trace w) ++ (if 0 <=? open_ret k then [open_ret k] else [])
  /\ closes (trace w')
     = closes (trace w)
       ++ (if b then [] else if 0 <=? open_ret k then [open_ret k] else []).
Proof.
  intros Ho H.
  destruct (initialize_Done w this o k Ho)
    as (b0 & o' & evs & H0 & _ & _ & _ & _ & _ & _ & Hop & Hcl & _).
  rewrite H0 in H. injection H as <- <-.
  unfold opens, closes in *. simpl_w. rewrite !omap_app, Hop, Hcl.
  split; reflexivity.
Qed.

(** [initialize] on an interface that holds a descriptor: the descriptor is
    not closed, and unless [open] returns the same number again the
    interface no longer holds it. *)
Theorem initialize_again_leaks w this o k b w' :
  objs w !! this = Some o ->
  0 <= fd_ o ->
  open_ret k <> fd_ o ->
  initialize this k w = Done b w' ->
  exists o' cl,
    objs w' !! this = Some o'
    /\ fd_ o' <> fd_ o
    /\ closes (trace w') = closes (trace w) ++ cl
    /\ fd_ o ∉ cl.
Proof.
  intros Ho Hfd Hne H.
  destruct (initialize_Done w this o k Ho)
    as (b0 & o' & evs & H0 & _ & Hfd' & _ & _ & _ & _ & _ & Hcl & _).
  rewrite H0 in H. injection H as <- <-.
  exists o', (closes evs). simpl_w.
  split; [apply lookup_insert_eq |]. split.
  { destruct b0; [destruct Hfd' as [-> _]; exact Hne | lia]. }
  split; [unfold closes; apply omap_app |].
  rewrite Hcl. destruct b0; [apply not_elem_of_nil |].
  destruct (0 <=? open_ret k); [| apply not_elem_of_nil].
  intros Hin. apply list_elem_of_singleton in Hin. congruence.
Qed.

(** The request that creates the device.  It carries [IFF_NO_PI] and, of
    [IFF_TUN] and [IFF_TAP], the flag of the interface's type.  The name in
    it has at most 15 characters and is a prefix of the interface's name: the
    name itself when that is a C string of at most 15 characters, and empty
    when the name is empty, which leaves the choice to the kernel. *)
Theorem initialize_request w this o k b w' :
  objs w !! this = Some o ->
  0 <= open_ret k ->
  initialize this k w = Done b w' ->
  exists nm flags rest,
    trace w' = trace w ++ EvOpenTun (open_ret k)
                 :: EvTunSetIff (open_ret k) nm flags (tunsetiff_ret k) :: rest
    /\ (String.length nm <= 15)%nat
    /\ String.prefix nm (name_ o) = true
    /\ (c_str (name_ o) = name_ o -> (String.length (name_ o) <= 15)%nat ->
        nm = name_ o)
    /\ Z.testbit flags 12 = true
    /\ Z.land flags (Z.lor IFF_TUN IFF_TAP)
       = match type_ o with TUN => IFF_TUN | TAP => IFF_TAP end.
Proof.
  intros Ho Hopen H.
  destruct (initialize_Done w this o k Ho)
    as (b0 & o' & evs & H0 & _ & _ & _ & _ & _ & _ & _ & _ & Hev).
  rewrite H0 in H. injection H as <- <-.
  destruct (Hev Hopen) as (rest & ->).
  do 3 eexists. split; [reflexivity |].
  destruct (strncpy_bounds (IFNAMSIZ - 1) (name_ o)) as (Hlen & Hpre & Hsame).
  change (IFNAMSIZ - 1)%nat with 15%nat in *.
  destruct (decide (name_ o = EmptyString)) as [He | He].
  - rewrite He. cbn. repeat split; try lia; destruct (type_ o); reflexivity.
  - repeat split; try assumption; destruct (type_ o); reflexivity.
Qed.

(** ** configure *)

(** The four requests of [configure], with their results. *)
Lemma configure_Done w this o ip mask k :
  objs w !! this = Some o ->
  exists b evs,
    configure this ip mask k w
    = Done b (mkWorld (objs w) (threads w) (vectors w) (trace w ++ evs))
    /\ (b = true <-> 0 <= socket_ret k /\ 0 <= getifflags_ret k
                     /\ 0 <= setifflags_ret k /\ 0 <= setifaddr_ret k
                     /\ 0 <= setifnetmask_ret k)
    /\ opens evs = (if 0 <=? socket_ret k then [socket_ret k] else [])
    /\ closes evs = (if 0 <=? socket_ret k then [socket_ret k] else [])
    /\ ioctls evs
       = (if 0 <=? socket_ret k
          then until_failure
                 [("SIOCGIFFLAGS", IfrNone, getifflags_ret k);
                  ("SIOCSIFFLAGS",
                   IfrFlags (Z.lor (getifflags_flags k)
                               (Z.lor IFF_UP IFF_RUNNING)),
                   setifflags_ret k);
                  ("SIOCSIFADDR", IfrAddr (sin_addr ip), setifaddr_ret k);
                  ("SIOCSIFNETMASK", IfrAddr (sin_addr mask),
                   setifnetmask_ret k)]
          else [])
    /\ Forall (fun nm => nm = strncpy (IFNAMSIZ - 1) (name_ o)) (ifr_names evs).
Proof.
  intros Ho. unfold configure. run_m. simpl_w.
  destruct (Z.ltb_spec (socket_ret k) 0) as [Hs | Hs]; simpl_w.
  { do 2 eexists. split; [rewrite <- !app_assoc; reflexivity |].
    split; [split; [discriminate | lia] |]. trace_lists.
    destruct (Z.leb_spec 0 (socket_ret k)); [lia |].
    repeat split. constructor. }
  destruct (Z.leb_spec 0 (socket_ret k)) as [_ |]; [| lia].
  rewrite Ho. simpl_w. cbn [until_failure snd].
  destruct (Z.ltb_spec (getifflags_ret k) 0) as [H1 | H1]; simpl_w.
  { do 2 eexists. split; [rewrite <- !app_assoc; reflexivity |].
    split; [split; [discriminate | lia] |]. trace_lists.
    destruct (Z.leb_spec 0 (socket_ret k)); [| lia].
    repeat split. repeat constructor. }
  destruct (Z.ltb_spec (setifflags_ret k) 0) as [H2 | H2]; simpl_w.
  { do 2 eexists. split; [rewrite <- !app_assoc; reflexivity |].
    split; [split; [discriminate | lia] |]. trace_lists.
    destruct (Z.leb_spec 0 (socket_ret k)); [| lia].
    repeat split. repeat constructor. }
  destruct (Z.ltb_spec (setifaddr_ret k) 0) as [H3 | H3]; simpl_w.
  { do 2 eexists. split; [rewrite <- !app_assoc; reflexivity |].
    split; [split; [discriminate | lia] |]. trace_lists.
    destruct (Z.leb_spec 0 (socket_ret k)); [| lia].
    repeat split. repeat constructor. }
  destruct (Z.ltb_spec (setifnetmask_ret k) 0) as [H4 | H4]; simpl_w.
  { do 2 eexists. split; [rewrite <- !app_assoc; reflexivity |].
    split; [split; [discriminate | lia] |]. trace_lists.
    destruct (Z.leb_spec 0 (socket_ret k)); [| lia].
    repeat split. repeat constructor. }
  do 2 eexists. split; [rewrite <- !app_assoc; reflexivity |].
  split; [split; [intros _; lia | reflexivity] |]. trace_lists.
  destruct (Z.leb_spec 0 (socket_ret k)); [| lia].
  repeat split. repeat constructor.
Qed.

(** [configure] returns on every interface, initialized or not, and for
    every behaviour of the kernel.  It returns [true] exactly when [socket]
    and the four requests succeeded.  It changes no object, thread or
    vector: all it does is in its calls to the kernel and in its output. *)
Theorem configure_succeeds_iff w this o ip mask k :
  objs w !! this = Some o ->
  exists b w',
    configure this ip mask k w = Done b w'
    /\ (b = true <-> 0 <= socket_ret k /\ 0 <= getifflags_ret k
                     /\ 0 <= setifflags_ret k /\ 0 <= setifaddr_ret k
                     /\ 0 <= setifnetmask_ret k)
    /\ objs w' = objs w /\ threads w' = threads w /\ vectors w' = vectors w.
Proof.
  intros Ho.
  destruct (configure_Done w this o ip mask k Ho) as (b & evs & H & Hb & _).
  do 2 eexists. split; [exact H |]. split; [exact Hb |]. repeat split.
Qed.

(** The socket of [configure] is closed once on every path on which it was
    obtained, and nothing else is closed. *)
Theorem configure_closes_socket w this o ip mask k b w' :
  objs w !! this = Some o ->
  configure this ip mask k w = Done b w' ->
  opens (trace w')
  = opens (trace w) ++ (if 0 <=? socket_ret k then [socket_ret k] else [])
  /\ closes (trace w')
     = closes (trace w) ++ (if 0 <=? socket_ret k then [socket_ret k] else []).
Proof.
  intros Ho H.
  destruct (configure_Done w this o ip mask k Ho)
    as (b0 & evs & H0 & _ & Hop & Hcl & _).
  rewrite H0 in H. injection H as <- <-.
  unfold opens, closes in *. simpl_w. rewrite !omap_app, Hop, Hcl.
  split; reflexivity.
Qed.

(** The requests of [configure] are the four steps in their order, up to
    and including the first that fails: nothing is retried, and what the
    earlier steps set is not taken back.  The second request carries the
    flags that the first one read, with [IFF_UP] and [IFF_RUNNING] added.
    The third and the fourth carry the address and the netmask that
    [inet_pton] read from the caller's text, and 0.0.0.0 when it does not
    accept the text: the text is not validated.  Every request names the
    interface by the first 15 characters of its name. *)
Theorem configure_stops_at_failure w this o ip mask k b w' :
  objs w !! this = Some o ->
  0 <= socket_ret k ->
  configure this ip mask k w = Done b w' ->
  exists evs,
    trace w' = trace w ++ evs
    /\ ioctls evs
       = until_failure
           [("SIOCGIFFLAGS", IfrNone, getifflags_ret k);
            ("SIOCSIFFLAGS",
             IfrFlags (Z.lor (getifflags_flags k) (Z.lor IFF_UP IFF_RUNNING)),
             setifflags_ret k);
            ("SIOCSIFADDR",
             IfrAddr (match inet_pton ip with
                      | Some a => a
                      | None => (0, 0, 0, 0)%N
                      end),
             setifaddr_ret k);
            ("SIOCSIFNETMASK",
             IfrAddr (match inet_pton mask with
                      | Some a => a
                      | None => (0, 0, 0, 0)%N
                      end),
             setifnetmask_ret k)]
    /\ Forall (fun nm => nm = strncpy (IFNAMSIZ - 1) (name_ o)
                         /\ (String.length nm <= 15)%nat)
         (ifr_names evs).
Proof.
  intros Ho Hs H.
  destruct (configure_Done w this o ip mask k Ho)
    as (b0 & evs & H0 & _ & _ & _ & Hio & Hnm).
  rewrite H0 in H. injection H as <- <-.
  exists evs. split; [reflexivity |].
  destruct (Z.leb_spec 0 (socket_ret k)); [| lia].
  split; [exact Hio |].
  eapply Forall_impl; [exact Hnm |].
  intros nm ->. split; [reflexivity |].
  apply (strncpy_bounds (IFNAMSIZ - 1) (name_ o)).
Qed.

(** ** The capture thread *)

(** A thread whose object has a cleared flag: its next step. *)
Lemma captureThreadFunc_exit w t th o k :
  threads w !! t = Some th ->
  objs w !! th_this th = Some o ->
  running_ o = false ->
  captureThreadFunc run_handler t k w
  = Done Exit
      (mkWorld (objs w)
         (<[t := mkThread (th_this th) (th_handler th) Finished]> (threads w))
         (match th_pc th with
          | Looping buffer => delete buffer (vectors w)
          | _ => vectors w
          end)
         (trace w)).
Proof.
  intros Ht Ho Hr. unfold captureThreadFunc, loop_head. run_m.
  rewrite Ht. destruct th as [a h pc]. cbn [th_pc th_this th_handler] in *.
  destruct pc as [| buffer |]; simpl_w.
  - rewrite Ht. simpl_w. rewrite Ho, Hr. simpl_w.
    rewrite lookup_insert_eq. simpl_w.
    rewrite insert_insert_eq, delete_insert_id by apply next_buf_fresh.
    reflexivity.
  - rewrite Ho, Hr. simpl_w. rewrite Ht. reflexivity.
  - rewrite insert_id by exact Ht. destruct w; reflexivity.
Qed.


(** ** stopCapture and the destructor *)

Lemma run_to_exit_stopped w t th o rs :
  threads w !! t = Some th ->
  objs w !! th_this th = Some o ->
  running_ o = false ->
  run_to_exit run_handler t rs w
  = Done tt
      (mkWorld (objs w)
         (<[t := mkThread (th_this th) (th_handler th) Finished]> (threads w))
         (match th_pc th with
          | Looping buffer => delete buffer (vectors w)
          | _ => vectors w
          end)
         (trace w)).
Proof.
  intros Ht Ho Hr.
  destruct rs as [| r rs]; cbn [run_to_exit]; unfold bind;
    rewrite (captureThreadFunc_exit w t th o _ Ht Ho Hr); reflexivity.
Qed.

Lemma stopCapture_joined w this o t th rs :
  objs w !! this = Some o ->
  running_ o = true ->
  capture_thread_ o = Some t ->
  threads w !! t = Some th ->
  th_this th = this ->
  stopCapture run_handler this rs w
  = Done tt
      (mkWorld
         (<[this := with_capture_thread None (with_running false o)]> (objs w))
         (delete t (threads w))
         (match th_pc th with
          | Looping buffer => delete buffer (vectors w)
          | _ => vectors w
          end)
         (trace w ++ [EvJoin t;
                      EvPrint Cout ("Stopped packet capture on interface "
                                    +:+ name_ o)])).
Proof.
  intros Ho Hr Hc Ht Hthis.
  set (w0 := mkWorld (<[this := with_running false o]> (objs w)) (threads w)
               (vectors w) (trace w)).
  assert (Hrun := run_to_exit_stopped w0 t th (with_running false o) rs Ht).
  rewrite Hthis in Hrun. specialize (Hrun (lookup_insert_eq _ _ _) eq_refl).
  unfold stopCapture, join, destroy_thread. run_m. rewrite Ho, Hr, Hc. simpl_w.
  rewrite Ho. simpl_w. rewrite Ht.
  rewrite bool_decide_eq_true_2 by eauto.
  fold w0. rewrite Hrun. simpl_w. rewrite lookup_delete_eq.
  rewrite bool_decide_eq_false_2 by (intros [? ?]; discriminate).
  simpl_w. subst w0. simpl_w. rewrite lookup_insert_eq.
  simpl_w. rewrite lookup_insert_eq.
  rewrite insert_insert_eq, delete_insert_eq. simpl_w.
  rewrite <- app_assoc. reflexivity.
Qed.


(** The end of the capture loop.  A thread that finds the flag of its
    interface cleared returns from its function at that step, wherever it is
    in it: it performs no [read] and calls no handler, its scratch buffer is
    destroyed, and the interface is left as it was.  Every later step of the
    thread does nothing. *)
Theorem captureThreadFunc_leaves_loop w t th o k :
  threads w !! t = Some th ->
  objs w !! th_this th = Some o ->
  isRunning o = false ->
  exists w',
    captureThreadFunc run_handler t k w = Done Exit w'
    /\ objs w' = objs w /\ trace w' = trace w
    /\ threads w'
       = <[t := mkThread (th_this th) (th_handler th) Finished]> (threads w)
    /\ vectors w' = match th_pc th with
                    | Looping buffer => delete buffer (vectors w)
                    | _ => vectors w
                    end
    /\ forall k', captureThreadFunc run_handler t k' w' = Done Exit w'.
Proof.
  intros Ht Ho Hr. eexists.
  split; [apply (captureThreadFunc_exit w t th o k Ht Ho Hr) |].
  do 4 (split; [reflexivity |]). intros k'.
  unfold captureThreadFunc. run_m. simpl_w. rewrite lookup_insert_eq.
  reflexivity.
Qed.




(** ** startCapture *)

(** [startCapture] returns [true] exactly when the interface holds a
    descriptor and is not running.  It then sets the flag and starts one
    thread on the interface with the given handler, under an identity that no
    joinable thread has; the thread has not entered its function yet.
    Otherwise it prints a message and changes nothing.  The interface is
    taken to hold no thread when it is not running. *)
Theorem startCapture_succeeds_iff w this o h :
  objs w !! this = Some o ->
  (isRunning o = false -> capture_thread_ o = None) ->
  exists b w',
    startCapture this h w = Done b w'
    /\ b = (0 <=? fd_ o) && negb (isRunning o)
    /\ vectors w' = vectors w
    /\ opens (trace w') = opens (trace w)
    /\ closes (trace w') = closes (trace w)
    /\ if b
       then objs w' = <[this := with_capture_thread (Some (next_tid w))
                                  (with_running true o)]> (objs w)
            /\ threads w !! next_tid w = None
            /\ threads w'
               = <[next_tid w := mkThread this h Starting]> (threads w)
       else objs w' = objs w /\ threads w' = threads w.
Proof.
  intros Ho Hinv. unfold startCapture, isRunning in *. run_m. rewrite Ho.
  destruct (Z.ltb_spec (fd_ o) 0) as [Hfd | Hfd];
    destruct (Z.leb_spec 0 (fd_ o)) as [Hfd' | Hfd']; try lia.
  { do 2 eexists. split; [reflexivity |]. trace_lists.
    rewrite !app_nil_r. repeat split. }
  destruct (running_ o) eqn:Hr.
  { do 2 eexists. split; [reflexivity |]. trace_lists.
    rewrite !app_nil_r. repeat split. }
  rewrite (Hinv eq_refl). unfold spawn, destroy_thread. run_m.
  repeat (progress (simpl_w; rewrite ?Ho, ?lookup_insert_eq)).
  do 2 eexists. split; [reflexivity |]. trace_lists.
  rewrite !app_nil_r, insert_insert_eq. unfold next_tid. simpl_w.
  repeat split. apply (next_tid_fresh w).
Qed.

(** ** writePacket and the capture loop on errors *)

(** A failing [write].  [writePacket] on an interface that is ready returns
    [false] and leaves every object, and so every counter, as it was; it
    does not try again.  Unless [errno] is [EAGAIN] (which is [EWOULDBLOCK]
    on Linux) it prints one line on [std::cerr]: "Failed to write packet: "
    followed by [strerror(errno)]. *)
Theorem writePacket_write_error w this o packet e :
  objs w !! this = Some o ->
  0 <= fd_ o ->
  isRunning o = true ->
  writePacket this packet (WriteErr e) w
  = Done false
      (with_trace
         (fun tr => tr ++ EvWrite (fd_ o) packet (-1)
                      :: (if e =? EAGAIN then []
                          else [EvPrintErrno Cerr "Failed to write packet: " e]))
         w).
Proof.
  intros Ho Hfd Hr. unfold writePacket, isRunning in *. run_m.
  rewrite Ho, Hr.
  destruct (Z.ltb_spec (fd_ o) 0) as [Hfd' | _]; [lia |].
  cbn [negb orb sys_write write_errno Z.ltb Z.compare].
  unfold EWOULDBLOCK, EAGAIN.
  destruct (e =? 11); cbn [negb andb]; simpl_w.
  - reflexivity.
  - rewrite <- app_assoc. reflexivity.
Qed.

Lemma capture_iteration_failed w t this h buffer o buf e :
  objs w !! this = Some o ->
  vectors w !! buffer = Some buf ->
  capture_iteration run_handler t this h buffer (ReadErr e) w
  = Done Continue
      (with_trace
         (fun tr => tr ++ EvRead (fd_ o) (length buf) (-1)
                      :: (if e =? EAGAIN then []
                          else [EvPrintErrno Cerr "Error reading from interface: " e;
                                EvSleep 10]))
         w).
Proof.
  intros Ho Hb. unfold capture_iteration. run_m. rewrite Ho, Hb. simpl_w.
  rewrite Hb. cbn [sys_read fst snd read_errno Z.ltb Z.compare]. simpl_w.
  rewrite (insert_id _ _ _ Hb).
  unfold EWOULDBLOCK, EAGAIN.
  destruct (e =? 11); cbn [negb andb]; simpl_w.
  - reflexivity.
  - rewrite <- !app_assoc. reflexivity.
Qed.

(** A failing [read] in the capture loop.  The iteration changes no object
    and no vector and calls no handler, and the loop goes on.  When [errno]
    is [EAGAIN] (which is [EWOULDBLOCK] on Linux) the next [read] follows
    at once, without a sleep; otherwise the iteration prints one line on
    [std::cerr], "Error reading from interface: " followed by
    [strerror(errno)], and sleeps 10 ms. *)
Theorem capture_iteration_read_error w t this h buffer o buf e :
  objs w !! this = Some o ->
  vectors w !! buffer = Some buf ->
  capture_iteration run_handler t this h buffer (ReadErr e) w
  = Done Continue
      (with_trace
         (fun tr => tr ++ EvRead (fd_ o) (length buf) (-1)
                      :: (if e =? EAGAIN then []
                          else [EvPrintErrno Cerr "Error reading from interface: " e;
                                EvSleep 10]))
         w).
Proof. apply capture_iteration_failed. Qed.


(** ** The constructor *)

(** A constructed interface has the given name and type and no descriptor,
    is not running, holds no thread and reports zero for its four counters.
    [startCapture] and [writePacket] are refused on it, [stopCapture] does
    nothing, and its destructor closes and joins nothing. *)
Theorem ctor_makes_inert w this name type :
  objs w !! this = None ->
  exists w' o,
    TunTapInterface_ctor this name type w = Done tt w'
    /\ objs w' = <[this := o]> (objs w)
    /\ threads w' = threads w /\ vectors w' = vectors w /\ trace w' = trace w
    /\ getName o = name /\ type_ o = type /\ fd_ o = -1
    /\ isRunning o = false /\ capture_thread_ o = None
    /\ counters this w' = Some (0, 0, 0, 0)
    /\ refuses_all run_handler this w'.
Proof.
  intros Hnew. unfold TunTapInterface_ctor. rewrite Hnew.
  do 2 eexists. split; [reflexivity |]. simpl_w.
  do 9 (split; [reflexivity |]). split.
  - unfold counters. simpl_w. rewrite lookup_insert_eq. reflexivity.
  - eapply inert_refuses_all; [simpl_w; apply lookup_insert_eq |].
    repeat split.
Qed.

(** ** The capture tasks of a program *)

(** In every world that a program reaches from the empty one, with handlers
    that leave the task records alone: an interface reports that it is
    running exactly when it holds a thread; the thread it holds is joinable;
    no two interfaces hold the same thread; and every joinable thread is
    held by an interface. *)
Theorem capture_tasks_invariant cs w :
  (forall h packet w0, same_tasks w0 (hres_world (run_handler h packet w0))) ->
  run_ops run_handler cs empty_world = Done tt w ->
  (forall a o, objs w !! a = Some o ->
     (isRunning o = true <-> is_Some (capture_thread_ o))
     /\ (forall t, capture_thread_ o = Some t -> is_Some (threads w !! t)))
  /\ (forall a a' o o' t,
        objs w !! a = Some o -> objs w !! a' = Some o' ->
        capture_thread_ o = Some t -> capture_thread_ o' = Some t -> a = a')
  /\ (forall t, is_Some (threads w !! t) ->
        exists a o, objs w !! a = Some o /\ capture_thread_ o = Some t).
Proof.
  intros Hh H.
  pose proof (run_ops_tasks_ok run_handler Hh cs _ _ tasks_ok_empty H)
    as [F O J W].
  assert (Hl : forall a o, objs w !! a = Some o ->
                 tasks w !! a = Some (running_ o, capture_thread_ o)).
  { intros a o Ho. rewrite tasks_lookup, Ho. reflexivity. }
  split; [| split].
  - intros a o Ho. split; [apply (F a), Hl, Ho |].
    intros t Ht. apply elem_of_dom. apply (J a (running_ o)).
    rewrite (Hl a o Ho), Ht. reflexivity.
  - intros a a' o o' t Ho Ho' Ht Ht'.
    apply (O a a' (running_ o) (running_ o') t).
    + rewrite (Hl a o Ho), Ht. reflexivity.
    + rewrite (Hl a' o' Ho'), Ht'. reflexivity.
  - intros t Ht. apply elem_of_dom in Ht. destruct (W t Ht) as (a & r & Ha).
    rewrite tasks_lookup in Ha.
    destruct (objs w !! a) as [o |] eqn:Ho; [| discriminate].
    injection Ha as _ Hc. exists a, o. split; [exact Ho | exact Hc].
Qed.

End Lifecycle.

(** * The lifecycle on the sample runs *)

Lemma initialize_succeeds_iff_witness :
  exists w' o',
    initialize 0 (kernel_ok 3 "tap0") world_constructed = Done true w'
    /\ objs w' !! 0%nat = Some o'
    /\ fd_ o' = 3 /\ name_ o' = "tap0"%string.
Proof.
  destruct (initialize_succeeds_iff world_constructed 0
              (mkTunTap "tap0" TAP (-1) false None 0 0 0 0) (kernel_ok 3 "tap0"))
    as (b & w' & o' & H & Hb & Hobjs & _ & _ & Hfd & _).
  - reflexivity.
  - assert (Htrue : b = true) by (apply Hb; cbn; lia).
    subst b. exists w', o'. split; [exact H |].
    split; [rewrite Hobjs; apply lookup_insert_eq |].
    destruct Hfd as [Hfd Hname]. split; [exact Hfd | exact Hname].
Defined.

Lemma initialize_closes_on_failure_witness :
  exists w',
    initialize 0 (kernel_fcntl_fails 3 "tap0") world_unnamed = Done false w'
    /\ opens (trace w') = [3] /\ closes (trace w') = [3].
Proof.
  eexists. split; [vm_compute; reflexivity |].
  eapply (initialize_closes_on_failure world_unnamed 0
            (mkTunTap "" TAP (-1) false None 0 0 0 0)
            (kernel_fcntl_fails 3 "tap0") false).
  - reflexivity.
  - vm_compute. reflexivity.
Defined.

Lemma initialize_again_leaks_witness :
  exists w' o' cl,
    initialize 0 (kernel_ok 4 "tap1") world_initialized = Done true w'
    /\ objs w' !! 0%nat = Some o'
    /\ (fd_ <$> objs world_initialized !! 0%nat) = Some 3
    /\ fd_ o' <> 3
    /\ closes (trace w') = closes (trace world_initialized) ++ cl
    /\ 3 ∉ cl.
Proof.
  destruct (initialize_again_leaks world_initialized 0
              (mkTunTap "tap0" TAP 3 false None 0 0 0 0) (kernel_ok 4 "tap1")
              true
              (world_of (run_ops quiet_handler
                           [OpInitialize 0%nat (kernel_ok 4 "tap1")]
                           world_initialized)))
    as (o' & cl & Ho' & Hfd & Hcl & Hin).
  - reflexivity.
  - cbn. lia.
  - cbn. lia.
  - vm_compute. reflexivity.
  - eexists _, o', cl. split; [vm_compute; reflexivity |].
    split; [exact Ho' |]. split; [reflexivity |].
    split; [exact Hfd |]. split; [exact Hcl | exact Hin].
Defined.

Lemma initialize_request_witness :
  let w' := world_of (run_ops quiet_handler
                        [OpInitialize 0%nat (kernel_ok 3 "sdr_tap_interfa")]
                        world_long_name) in
  exists nm flags rest,
    trace w' = trace world_long_name
               ++ EvOpenTun 3 :: EvTunSetIff 3 nm flags 0 :: rest
    /\ (String.length nm <= 15)%nat
    /\ String.prefix nm "sdr_tap_interface_0" = true
    /\ (c_str "sdr_tap_interface_0" = "sdr_tap_interface_0"%string ->
        (String.length "sdr_tap_interface_0" <= 15)%nat ->
        nm = "sdr_tap_interface_0"%string)
    /\ Z.testbit flags 12 = true
    /\ Z.land flags (Z.lor IFF_TUN IFF_TAP) = IFF_TAP.
Proof.
  apply (initialize_request world_long_name 0
           (mkTunTap "sdr_tap_interface_0" TAP (-1) false None 0 0 0 0)
           (kernel_ok 3 "sdr_tap_interfa") true).
  - reflexivity.
  - cbn. lia.
  - vm_compute. reflexivity.
Defined.

Lemma configure_succeeds_iff_witness :
  exists w',
    configure 0 "10.0.0.1" "255.255.255.0" (mkConfigureSys 5 0 0 0 0 4098 0)
      world_initialized = Done true w'
    /\ objs w' = objs world_initialized.
Proof.
  destruct (configure_succeeds_iff world_initialized 0
              (mkTunTap "tap0" TAP 3 false None 0 0 0 0)
              "10.0.0.1" "255.255.255.0" (mkConfigureSys 5 0 0 0 0 4098 0))
    as (b & w' & H & Hb & Hobjs & _).
  - reflexivity.
  - assert (Htrue : b = true) by (apply Hb; cbn; lia).
    subst b. exists w'. split; [exact H | exact Hobjs].
Defined.

Lemma configure_closes_socket_witness :
  exists w',
    configure 0 "10.0.0.1" "255.255.255.0" (mkConfigureSys 5 0 0 (-1) 0 4098 99)
      world_initialized = Done false w'
    /\ opens (trace w') = opens (trace world_initialized) ++ [5]
    /\ closes (trace w') = closes (trace world_initialized) ++ [5].
Proof.
  eexists. split; [vm_compute; reflexivity |].
  eapply (configure_closes_socket world_initialized 0
            (mkTunTap "tap0" TAP 3 false None 0 0 0 0)
            "10.0.0.1" "255.255.255.0" (mkConfigureSys 5 0 0 (-1) 0 4098 99) false).
  - reflexivity.
  - vm_compute. reflexivity.
Defined.

Lemma configure_stops_at_failure_witness :
  let w' := world_of (run_ops quiet_handler
                        [OpConfigure 0%nat "10.0.0.1" "255.255.255"
                           (mkConfigureSys 5 0 0 0 (-1) 4098 22)]
                        world_initialized) in
  exists evs,
    trace w' = trace world_initialized ++ evs
    /\ ioctls evs = [("SIOCGIFFLAGS", IfrNone, 0);
                     ("SIOCSIFFLAGS", IfrFlags 4163, 0);
                     ("SIOCSIFADDR", IfrAddr (10, 0, 0, 1)%N, 0);
                     ("SIOCSIFNETMASK", IfrAddr (0, 0, 0, 0)%N, -1)]
    /\ Forall (fun nm => nm = "tap0"%string /\ (String.length nm <= 15)%nat)
         (ifr_names evs).
Proof.
  apply (configure_stops_at_failure world_initialized 0
           (mkTunTap "tap0" TAP 3 false None 0 0 0 0)
           "10.0.0.1" "255.255.255" (mkConfigureSys 5 0 0 0 (-1) 4098 22) false).
  - reflexivity.
  - cbn. lia.
  - vm_compute. reflexivity.
Defined.

(** The thread of the sample run once its interface has been moved away:
    the flag that it tests is cleared. *)
Lemma captureThreadFunc_leaves_loop_witness :
  let w := world_of (move_ctor 1 0 world_received) in
  exists w',
    captureThreadFunc quiet_handler 0 (Some (ReadOk [x04])) w = Done Exit w'
    /\ trace w' = trace w
    /\ vectors w' = delete 0%nat (vectors w)
    /\ (th_pc <$> threads w' !! 0%nat) = Some Finished.
Proof.
  intros w.
  destruct (captureThreadFunc_leaves_loop quiet_handler w 0
              (mkThread 0 7 (Looping 0))
              (mkTunTap "" TAP (-1) false None 1 0 3 0)
              (Some (ReadOk [x04])))
    as (w' & H & _ & Htr & Hth & Hv & _).
  - reflexivity.
  - reflexivity.
  - reflexivity.
  - exists w'. split; [exact H |]. split; [exact Htr |].
    split; [exact Hv |]. rewrite Hth, lookup_insert_eq. reflexivity.
Defined.



Lemma startCapture_succeeds_iff_witness :
  exists w',
    startCapture 0 7 world_initialized = Done true w'
    /\ threads w'
       = <[next_tid world_initialized := mkThread 0 7 Starting]>
           (threads world_initialized).
Proof.
  destruct (startCapture_succeeds_iff world_initialized 0
              (mkTunTap "tap0" TAP 3 false None 0 0 0 0) 7)
    as (b & w' & H & Hb & _ & _ & _ & Hif).
  - reflexivity.
  - reflexivity.
  - cbn in Hb. subst b. exists w'. split; [exact H |]. apply Hif.
Defined.

Lemma writePacket_write_error_witness :
  writePacket 0 [x01; x02] (WriteErr EAGAIN) world_received
  = Done false
      (with_trace (fun tr => tr ++ [EvWrite 3 [x01; x02] (-1)]) world_received)
  /\ writePacket 0 [x01; x02] (WriteErr 5) world_received
     = Done false
         (with_trace
            (fun tr => tr ++ [EvWrite 3 [x01; x02] (-1);
                              EvPrintErrno Cerr "Failed to write packet: " 5])
            world_received).
Proof.
  split.
  - apply (writePacket_write_error world_received 0 tap0_received [x01; x02]
             EAGAIN); [reflexivity | cbn; lia | reflexivity].
  - apply (writePacket_write_error world_received 0 tap0_received [x01; x02]
             5); [reflexivity | cbn; lia | reflexivity].
Defined.

Lemma capture_iteration_read_error_witness :
  capture_iteration quiet_handler 0 0 7 0 (ReadErr EAGAIN) world_received
  = Done Continue
      (with_trace (fun tr => tr ++ [EvRead 3 2048 (-1)]) world_received)
  /\ capture_iteration quiet_handler 0 0 7 0 (ReadErr 5) world_received
     = Done Continue
         (with_trace
            (fun tr => tr ++ [EvRead 3 2048 (-1);
                              EvPrintErrno Cerr
                                "Error reading from interface: " 5;
                              EvSleep 10])
            world_received).
Proof.
  split.
  - apply (capture_iteration_read_error quiet_handler world_received 0 0 7 0
             tap0_received scratch_received EAGAIN);
      [reflexivity | vm_compute; reflexivity].
  - apply (capture_iteration_read_error quiet_handler world_received 0 0 7 0
             tap0_received scratch_received 5);
      [reflexivity | vm_compute; reflexivity].
Defined.

Lemma ctor_makes_inert_witness :
  exists w' o,
    TunTapInterface_ctor 0 "tap0" TAP empty_world = Done tt w'
    /\ objs w' = <[0%nat := o]> (objs empty_world)
    /\ threads w' = threads empty_world /\ vectors w' = vectors empty_world
    /\ trace w' = trace empty_world
    /\ getName o = "tap0"%string /\ type_ o = TAP /\ fd_ o = -1
    /\ isRunning o = false /\ capture_thread_ o = None
    /\ counters 0 w' = Some (0, 0, 0, 0)
    /\ refuses_all quiet_handler 0 w'.
Proof.
  apply (ctor_makes_inert quiet_handler empty_world 0 "tap0" TAP).
  reflexivity.
Defined.

Lemma capture_tasks_invariant_witness :
  (forall a o, objs world_busy !! a = Some o ->
     (isRunning o = true <-> is_Some (capture_thread_ o))
     /\ (forall t, capture_thread_ o = Some t ->
                   is_Some (threads world_busy !! t)))
  /\ (forall a a' o o' t,
        objs world_busy !! a = Some o -> objs world_busy !! a' = Some o' ->
        capture_thread_ o = Some t -> capture_thread_ o' = Some t -> a = a')
  /\ (forall t, is_Some (threads world_busy !! t) ->
        exists a o, objs world_busy !! a = Some o /\ capture_thread_ o = Some t).
Proof.
  apply (capture_tasks_invariant quiet_handler
           [OpCtor 0%nat "tap0" TAP;
            OpInitialize 0%nat (kernel_ok 3 "tap0");
            OpStartCapture 0%nat 7%nat;
            OpCaptureStep 0%nat (ReadOk [x04; x05]);
            OpWritePacket 0%nat [x09] (WriteOk 1);
            OpConfigure 0%nat "10.0.0.1" "255.255.255.0"
              (mkConfigureSys 5 0 0 0 0 4098 0);
            OpCaptureStep 0%nat (ReadErr EAGAIN);
            OpInitialize 0%nat (mkInitSys (-1) 0 "" 0 0 13)]).
  - intros h packet w0. split; reflexivity.
  - vm_compute. reflexivity.
Defined.

(** * main.cpp *)

(** ** printPacketInfo *)

Lemma hex2_decodable : exists f : string -> option byte, forall b, f (hex2 b) = Some b.
Proof.
  exists (fun s =>
            let v c := match index 0 (String c EmptyString) "0123456789abcdef" with
                       | Some i => N.of_nat i
                       | None => 0%N
                       end in
            match s with
            | String c1 (String c2 _) => Byte.of_N (16 * v c1 + v c2)
            | _ => None
            end).
  intros b. destruct b; reflexivity.
Qed.

Lemma hex2_inj b1 b2 : hex2 b1 = hex2 b2 -> b1 = b2.
Proof.
  destruct hex2_decodable as [f Hf]. intros H.
  apply (f_equal f) in H. rewrite !Hf in H. congruence.
Qed.

Lemma hex2_shape b :
  exists c1 c2, hex2 b = String c1 (String c2 " ") /\ c1 <> "."%char.
Proof. destruct b; do 2 eexists; (split; [reflexivity | discriminate]). Qed.

Lemma append_String c s t : String c s +:+ t = String c (s +:+ t).
Proof. reflexivity. Qed.

Lemma append_Empty t : EmptyString +:+ t = t.
Proof. reflexivity. Qed.

Ltac append_norm := rewrite ?append_String, ?append_Empty in *.

Lemma append_length s t :
  String.length (s +:+ t) = (String.length s + String.length t)%nat.
Proof.
  induction s as [| c s IH]; append_norm; cbn [String.length];
    [reflexivity | rewrite IH; reflexivity].
Qed.

Lemma hex_bytes_length n packet :
  String.length (hex_bytes n packet) = (3 * Nat.min n (length packet))%nat.
Proof.
  revert packet. induction n as [| n IH]; intros [| b rest]; cbn [hex_bytes];
    try (cbn; lia).
  destruct (hex2_shape b) as (c1 & c2 & -> & _). append_norm.
  cbn [String.length length Nat.min]. rewrite IH. lia.
Qed.

Lemma hex_bytes_inj n p q (e1 e2 : bool) :
  hex_bytes n p +:+ (if e1 then "..." else "")
  = hex_bytes n q +:+ (if e2 then "..." else "") ->
  take n p = take n q /\ e1 = e2.
Proof.
  revert p q. induction n as [| n IH]; intros p q.
  { cbn [hex_bytes take]. intros H. split; [reflexivity |].
    destruct e1, e2; append_norm; try reflexivity; discriminate H. }
  destruct p as [| a p], q as [| b q]; cbn [hex_bytes take].
  - intros H. split; [reflexivity |].
    destruct e1, e2; append_norm; try reflexivity; discriminate H.
  - destruct (hex2_shape b) as (c1 & c2 & -> & Hc).
    destruct e1; intros H; append_norm; [| discriminate H].
    injection H as H _. congruence.
  - destruct (hex2_shape a) as (c1 & c2 & -> & Hc).
    destruct e2; intros H; append_norm; [| discriminate H].
    injection H as H _. congruence.
  - destruct (hex2_shape a) as (c1 & c2 & Ha & _).
    destruct (hex2_shape b) as (d1 & d2 & Hb & _).
    rewrite Ha, Hb. intros H. append_norm.
    injection H as H1 H2 H3. apply IH in H3 as [Ht He].
    assert (a = b) as -> by (apply hex2_inj; congruence).
    split; [rewrite Ht; reflexivity | exact He].
Qed.

(** [printPacketInfo] prints two lines.  The second shows the first 16
    bytes of the packet, three characters for each, and an ellipsis when the
    packet has more: two packets with the same line agree on their first 16
    bytes and on having more than 16. *)
Theorem printPacketInfo_data_line name packet w :
  exists first,
    printPacketInfo name packet w
    = Done tt (with_trace
                 (fun tr => tr ++ [EvPrint Cout first;
                                   EvPrint Cout (data_line packet)]) w)
    /\ String.length (data_line packet)
       = (8 + 3 * Nat.min 16 (length packet)
          + (if (16 <? length packet)%nat then 3 else 0))%nat
    /\ forall q, data_line q = data_line packet ->
                 take 16 q = take 16 packet
                 /\ ((16 < length q)%nat <-> (16 < length packet)%nat).
Proof.
  eexists. split; [| split].
  - unfold printPacketInfo. run_m. simpl_w. rewrite <- app_assoc. reflexivity.
  - unfold data_line. append_norm. cbn [String.length].
    rewrite append_length, hex_bytes_length.
    destruct (16 <? length packet)%nat; cbn [String.length]; lia.
  - intros q H. unfold data_line in H.
    remember (hex_bytes 16 q) as hq eqn:Hq.
    remember (hex_bytes 16 packet) as hp eqn:Hp.
    append_norm. injection H as H. subst hq hp.
    apply hex_bytes_inj in H as [Ht He].
    split; [exact Ht |].
    destruct (Nat.ltb_spec 16 (length q)), (Nat.ltb_spec 16 (length packet));
      try discriminate; split; intros; lia.
Qed.

(** ** The handlers of main *)

(** What a handler does when its packet and its destination exist. *)
Lemma forward_Done label dest k packet w data o :
  vectors w !! packet = Some data ->
  objs w !! dest = Some o ->
  exists w' evs,
    forward label dest k packet w = Done tt w'
    /\ trace w' = trace w ++ evs
    /\ threads w' = threads w /\ vectors w' = vectors w
    /\ opens evs = [] /\ closes evs = []
    /\ if (0 <=? fd_ o) && running_ o
       then writes evs = [(fd_ o, data, sys_write (length data) k)]
            /\ objs w'
               = (if sys_write (length data) k <? 0 then objs w
                  else <[dest := count_sent (sys_write (length data) k) o]>
                         (objs w))
       else writes evs = [] /\ objs w' = objs w.
Proof.
  intros Hv Ho. unfold forward, printPacketInfo, writePacket. run_m.
  rewrite Hv. simpl_w. rewrite Ho.
  destruct (Z.ltb_spec (fd_ o) 0) as [Hfd | Hfd];
    destruct (Z.leb_spec 0 (fd_ o)) as [Hfd' | Hfd']; try lia;
    cbn [orb andb].
  { do 2 eexists. split; [reflexivity |]. simpl_w.
    split; [rewrite <- !app_assoc; reflexivity |]. trace_lists.
    repeat split. }
  destruct (running_ o); cbn [negb].
  2: { do 2 eexists. split; [reflexivity |]. simpl_w.
       split; [rewrite <- !app_assoc; reflexivity |]. trace_lists.
       repeat split. }
  simpl_w. destruct (sys_write (length data) k <? 0) eqn:Hw.
  - destruct (negb _ && negb _); simpl_w.
    + do 2 eexists. split; [reflexivity |]. simpl_w.
      split; [rewrite <- !app_assoc; reflexivity |]. trace_lists.
      repeat split.
    + do 2 eexists. split; [reflexivity |]. simpl_w.
      split; [rewrite <- !app_assoc; reflexivity |]. trace_lists.
      repeat split.
  - simpl_w. rewrite Ho. do 2 eexists. split; [reflexivity |]. simpl_w.
    split; [rewrite <- !app_assoc; reflexivity |]. trace_lists.
    repeat split.
Qed.

Lemma forward_Fail label dest k packet w :
  vectors w !! packet = None \/ objs w !! dest = None ->
  exists f, forward label dest k packet w = Fail f.
Proof.
  unfold forward, printPacketInfo, writePacket. run_m.
  destruct (vectors w !! packet) as [data |] eqn:Hv; simpl_w.
  - intros [H | H]; [discriminate |]. rewrite H. eexists. reflexivity.
  - intros _. eexists. reflexivity.
Qed.

Lemma main_handlers_run a1 a2 kw h dest packet w :
  (h = handler1 /\ dest = a2) \/ (h = handler2 /\ dest = a1) ->
  exists label,
    main_handlers a1 a2 kw h packet w
    = match forward label dest (kw w) packet w with
      | Done _ w' => HReturn w'
      | Fail _ => HThrowOther w
      end.
Proof.
  unfold main_handlers. intros [[-> ->] | [-> ->]].
  - exists "Interface1"%string. reflexivity.
  - exists "Interface2"%string. reflexivity.
Qed.

(** A handler of [main] does to the counters what its one call of
    [writePacket] does. *)
Lemma main_handlers_sends a1 a2 kw a g packet w0 data :
  vectors w0 !! packet = Some data ->
  framed a (sends_at_most (Z.of_nat (length data))) w0
    (hres_world (main_handlers a1 a2 kw g packet w0)).
Proof.
  intros Hv.
  assert (Hsame : forall w', objs w' = objs w0 ->
             framed a (sends_at_most (Z.of_nat (length data))) w0 w').
  { intros w' Heq o Ho. exists o. rewrite Heq. split; [exact Ho |].
    split; [reflexivity |]. split; [reflexivity |]. split; left; reflexivity. }
  assert (Hf : forall label dest,
             framed a (sends_at_most (Z.of_nat (length data))) w0
               (hres_world
                  match forward label dest (kw w0) packet w0 with
                  | Done _ w' => HReturn w'
                  | Fail _ => HThrowOther w0
                  end)).
  { intros label dest.
    destruct (objs w0 !! dest) as [od |] eqn:Hd.
    2: { destruct (forward_Fail label dest (kw w0) packet w0
                     (or_intror Hd)) as (f & ->).
         apply Hsame. reflexivity. }
    destruct (forward_Done label dest (kw w0) packet w0 data od Hv Hd)
      as (w' & evs & -> & _ & _ & _ & _ & _ & Hif).
    cbn [hres_world].
    destruct ((0 <=? fd_ od) && running_ od);
      [| apply Hsame; apply Hif].
    destruct Hif as [_ Hobjs].
    destruct (Z.ltb_spec (sys_write (length data) (kw w0)) 0) as [Hneg | Hpos];
      [apply Hsame; exact Hobjs |].
    pose proof (sys_write_bounds (length data) (kw w0) Hpos) as Hb.
    intros o Ho. rewrite Hobjs.
    destruct (decide (dest = a)) as [-> | Hne].
    - rewrite lookup_insert_eq. assert (od = o) as -> by congruence.
      eexists. split; [reflexivity |].
      cbn [count_sent packets_received_ packets_sent_ bytes_received_
             bytes_sent_].
      split; [reflexivity |]. split; [reflexivity |].
      split; right.
      + exists 1. split; [lia | reflexivity].
      + exists (sys_write (length data) (kw w0)). split; [lia | reflexivity].
    - rewrite lookup_insert_ne by exact Hne. exists o. split; [exact Ho |].
      split; [reflexivity |]. split; [reflexivity |].
      split; left; reflexivity. }
  unfold main_handlers.
  destruct (decide (g = handler1)); [apply Hf |].
  destruct (decide (g = handler2)); [apply Hf |].
  apply Hsame. reflexivity.
Qed.

(** Forwarding.  A handler of [main] returns, whatever [write] answers.
    When its destination holds a descriptor and is running, the handler
    calls [write] once, on the descriptor of the destination and with the
    bytes of the packet; unless [write] fails, the sent counters of the
    destination advance by one packet and by the bytes written.  Otherwise
    the packet is dropped: nothing is written and no object changes. *)
Theorem main_handlers_forward a1 a2 kw h dest packet w data o :
  (h = handler1 /\ dest = a2) \/ (h = handler2 /\ dest = a1) ->
  vectors w !! packet = Some data ->
  objs w !! dest = Some o ->
  let written := sys_write (length data) (kw w) in
  exists w' evs,
    main_handlers a1 a2 kw h packet w = HReturn w'
    /\ trace w' = trace w ++ evs
    /\ threads w' = threads w /\ vectors w' = vectors w
    /\ if (0 <=? fd_ o) && isRunning o
       then writes evs = [(fd_ o, data, written)]
            /\ objs w'
               = (if written <? 0 then objs w
                  else <[dest := count_sent written o]> (objs w))
       else writes evs = [] /\ objs w' = objs w.
Proof.
  intros Hh Hv Ho written.
  destruct (main_handlers_run a1 a2 kw h dest packet w Hh) as (label & ->).
  destruct (forward_Done label dest (kw w) packet w data o Hv Ho)
    as (w' & evs & -> & Htr & Hth & Hvec & _ & _ & Hif).
  exists w', evs. do 4 (split; [reflexivity || assumption |]). exact Hif.
Qed.

(** What the handlers of [main] leave alone, in every world: the threads,
    the vectors, the descriptors obtained and closed, and of every
    interface the name, the type, the descriptor, the flag, the thread and
    the received counters.  They end no object and make none. *)
Theorem main_handlers_frame a1 a2 kw h packet w :
  let w' := hres_world (main_handlers a1 a2 kw h packet w) in
  same_tasks w w'
  /\ threads w' = threads w /\ vectors w' = vectors w
  /\ opens (trace w') = opens (trace w)
  /\ closes (trace w') = closes (trace w)
  /\ dom (objs w') = dom (objs w)
  /\ forall a o', objs w' !! a = Some o' ->
       exists o, objs w !! a = Some o
         /\ getName o' = getName o /\ type_ o' = type_ o /\ fd_ o' = fd_ o
         /\ isRunning o' = isRunning o
         /\ capture_thread_ o' = capture_thread_ o
         /\ getPacketsReceived o' = getPacketsReceived o
         /\ getBytesReceived o' = getBytesReceived o.
Proof.
  assert (Hsame : forall w0 : World,
             same_tasks w0 w0
             /\ threads w0 = threads w0 /\ vectors w0 = vectors w0
             /\ opens (trace w0) = opens (trace w0)
             /\ closes (trace w0) = closes (trace w0)
             /\ dom (objs w0) = dom (objs w0)
             /\ forall a o', objs w0 !! a = Some o' ->
                  exists o, objs w0 !! a = Some o
                    /\ getName o' = getName o /\ type_ o' = type_ o
                    /\ fd_ o' = fd_ o /\ isRunning o' = isRunning o
                    /\ capture_thread_ o' = capture_thread_ o
                    /\ getPacketsReceived o' = getPacketsReceived o
                    /\ getBytesReceived o' = getBytesReceived o).
  { intros w0. repeat split. intros a o' Ho'. exists o'. repeat split.
    exact Ho'. }
  assert (Hfwd : forall label dest,
             let w' := hres_world
                         match forward label dest (kw w) packet w with
                         | Done _ w' => HReturn w'
                         | Fail _ => HThrowOther w
                         end in
             same_tasks w w'
             /\ threads w' = threads w /\ vectors w' = vectors w
             /\ opens (trace w') = opens (trace w)
             /\ closes (trace w') = closes (trace w)
             /\ dom (objs w') = dom (objs w)
             /\ forall a o', objs w' !! a = Some o' ->
                  exists o, objs w !! a = Some o
                    /\ getName o' = getName o /\ type_ o' = type_ o
                    /\ fd_ o' = fd_ o /\ isRunning o' = isRunning o
                    /\ capture_thread_ o' = capture_thread_ o
                    /\ getPacketsReceived o' = getPacketsReceived o
                    /\ getBytesReceived o' = getBytesReceived o).
  { intros label dest.
    destruct (vectors w !! packet) as [data |] eqn:Hv; cycle 1.
    { destruct (forward_Fail label dest (kw w) packet w (or_introl Hv))
        as (f & ->). apply Hsame. }
    destruct (objs w !! dest) as [o |] eqn:Ho; cycle 1.
    { destruct (forward_Fail label dest (kw w) packet w (or_intror Ho))
        as (f & ->). apply Hsame. }
    destruct (forward_Done label dest (kw w) packet w data o Hv Ho)
      as (w' & evs & -> & Htr & Hth & Hvec & Hop & Hcl & Hif).
    cbn [hres_world].
    assert (Hobjs : objs w' = objs w
                    \/ exists n, objs w' = <[dest := count_sent n o]> (objs w)).
    { destruct ((0 <=? fd_ o) && running_ o); destruct Hif as [_ Hif];
        [| left; exact Hif].
      destruct (_ <? 0); [left; exact Hif | right; eexists; exact Hif]. }
    assert (Htasks : same_tasks w w').
    { split; [| unfold joinables; rewrite Hth; reflexivity].
      unfold tasks. destruct Hobjs as [-> | [n ->]]; [reflexivity |].
      rewrite fmap_insert. apply insert_id.
      rewrite lookup_fmap, Ho. reflexivity. }
    split; [exact Htasks |]. split; [exact Hth |]. split; [exact Hvec |].
    unfold opens, closes in *. rewrite Htr, !omap_app, Hop, Hcl, !app_nil_r.
    do 2 (split; [reflexivity |]).
    destruct Hobjs as [-> | [n ->]].
    - split; [reflexivity |]. intros a o' Ho'. exists o'. repeat split.
      exact Ho'.
    - split; [apply dom_insert_lookup_L; eauto |].
      intros a o'. destruct (decide (dest = a)) as [<- | Hne].
      + rewrite lookup_insert_eq. intros [= <-]. exists o. repeat split.
        exact Ho.
      + rewrite lookup_insert_ne by exact Hne. intros Ho'. exists o'.
        repeat split. exact Ho'. }
  unfold main_handlers.
  destruct (decide (h = handler1)); [apply Hfwd |].
  destruct (decide (h = handler2)); [apply Hfwd |].
  apply Hsame.
Qed.

(** One iteration of a capture thread of [main] that reads N > 0 bytes,
    while the other interface is ready.  In that one iteration the received
    counters of the thread's interface advance by one packet and N bytes,
    [write] is called once on the descriptor of the other interface with
    exactly the N bytes read, and unless [write] fails the sent counters of
    the other interface advance by one packet and the bytes written.  The
    packet's vector is gone afterwards and the loop goes on. *)
Theorem capture_iteration_forwards a1 a2 kw h this dest w t buffer o1 o2 buf data :
  (h = handler1 /\ dest = a2) \/ (h = handler2 /\ dest = a1) ->
  this <> dest ->
  objs w !! this = Some o1 ->
  objs w !! dest = Some o2 ->
  0 <= fd_ o2 ->
  isRunning o2 = true ->
  vectors w !! buffer = Some buf ->
  (0 < length data <= length buf)%nat ->
  let written :=
    sys_write (length data)
      (kw (at_handler_call t this h buffer o1 buf data w)) in
  exists w' evs,
    capture_iteration (main_handlers a1 a2 kw) t this h buffer (ReadOk data) w
    = Done Continue w'
    /\ objs w' !! this = Some (count_received (Z.of_nat (length data)) o1)
    /\ objs w' !! dest
       = Some (if written <? 0 then o2 else count_sent written o2)
    /\ trace w' = trace w ++ evs
    /\ writes evs = [(fd_ o2, data, written)]
    /\ threads w' = threads w
    /\ vectors w' = <[buffer := data ++ drop (length data) buf]> (vectors w).
Proof.
  intros Hh Hne Ho1 Ho2 Hfd Hr Hb Hlen written.
  rewrite (capture_iteration_read _ w t this h buffer o1 buf data Ho1 Hb Hlen).
  set (w1 := at_handler_call t this h buffer o1 buf data w) in *.
  assert (Hfresh := next_buf_fresh w).
  assert (Hpb : next_buf w <> buffer) by congruence.
  assert (Hv1 : vectors w1 !! next_buf w = Some data).
  { subst w1. unfold at_handler_call. cbn [vectors]. apply lookup_insert_eq. }
  assert (Ho21 : objs w1 !! dest = Some o2).
  { subst w1. unfold at_handler_call. cbn [objs].
    rewrite lookup_insert_ne by exact Hne. exact Ho2. }
  destruct (main_handlers_run a1 a2 kw h dest (next_buf w) w1 Hh)
    as (label & ->).
  destruct (forward_Done label dest (kw w1) (next_buf w) w1 data o2 Hv1 Ho21)
    as (w2 & evs & -> & Htr & Hth & Hvec & _ & _ & Hif).
  unfold isRunning in Hr. rewrite Hr in Hif.
  destruct (Z.leb_spec 0 (fd_ o2)); [| lia]. cbn [andb] in Hif.
  destruct Hif as [Hwr Hobjs]. fold written in Hwr, Hobjs.
  cbn [after_handler]. eexists. eexists. split; [reflexivity |]. simpl_w.
  split.
  { rewrite Hobjs. subst w1. unfold at_handler_call. cbn [objs].
    destruct (written <? 0).
    - apply lookup_insert_eq.
    - rewrite lookup_insert_ne by congruence. apply lookup_insert_eq. }
  split.
  { rewrite Hobjs. destruct (written <? 0); [exact Ho21 |].
    apply lookup_insert_eq. }
  split.
  { rewrite Htr. subst w1. unfold at_handler_call. cbn [trace].
    rewrite <- app_assoc. reflexivity. }
  split.
  { unfold writes in Hwr. trace_lists. rewrite Hwr. reflexivity. }
  split; [rewrite Hth; reflexivity |].
  rewrite Hvec. subst w1. unfold at_handler_call. cbn [vectors].
  apply delete_insert_id. rewrite lookup_insert_ne by congruence.
  exact Hfresh.
Qed.

(** ** main *)

Lemma static_refl o : static o o.
Proof. repeat split. Qed.

Lemma static_trans o1 o2 o3 : static o1 o2 -> static o2 o3 -> static o1 o3.
Proof.
  intros (A1 & A2 & A3 & A4 & A5) (B1 & B2 & B3 & B4 & B5).
  repeat split; congruence.
Qed.

Lemma static_count_received n o : static o (count_received n o).
Proof. repeat split. Qed.

Lemma static_count_sent n o : static o (count_sent n o).
Proof. repeat split. Qed.

(** An iteration of a capture thread of [main], whatever it reads and
    whatever [write] answers: it returns, and it leaves the threads, the
    live vectors, the descriptors and all of the two interfaces but their
    counters as they were. *)
Lemma capture_iteration_main a1 a2 kw h this dest t buffer r w ot od buf :
  (h = handler1 /\ dest = a2) \/ (h = handler2 /\ dest = a1) ->
  this <> dest ->
  objs w !! this = Some ot ->
  objs w !! dest = Some od ->
  vectors w !! buffer = Some buf ->
  exists w' ot' od',
    capture_iteration (main_handlers a1 a2 kw) t this h buffer r w
    = Done Continue w'
    /\ objs w' = <[dest := od']> (<[this := ot']> (objs w))
    /\ static ot ot' /\ static od od'
    /\ threads w' = threads w
    /\ dom (vectors w') = dom (vectors w)
    /\ opens (trace w') = opens (trace w)
    /\ closes (trace w') = closes (trace w).
Proof.
  intros Hh Hne Hot Hod Hb.
  assert (Hid : objs w = <[dest := od]> (<[this := ot]> (objs w))).
  { rewrite (insert_id (objs w) this ot Hot).
    rewrite (insert_id (objs w) dest od Hod). reflexivity. }
  destruct r as [e | data].
  { rewrite (capture_iteration_failed _ w t this h buffer ot buf e Hot Hb).
    eexists. exists ot, od. split; [reflexivity |]. simpl_w.
    split; [exact Hid |]. do 2 (split; [apply static_refl |]).
    do 2 (split; [reflexivity |]). trace_lists.
    destruct (e =? EAGAIN); cbn; rewrite !app_nil_r; split; reflexivity. }
  destruct (length (take (length buf) data)) as [| n] eqn:Hlen.
  { rewrite (capture_iteration_zero _ w t this h buffer ot buf (ReadOk data)
               Hot Hb) by (cbn [sys_read fst]; rewrite Hlen; reflexivity).
    eexists. exists ot, od. split; [reflexivity |]. simpl_w.
    split; [exact Hid |]. do 2 (split; [apply static_refl |]).
    do 2 (split; [reflexivity |]). trace_lists.
    rewrite !app_nil_r. split; reflexivity. }
  rewrite (capture_iteration_read_clipped _ w t this h buffer ot buf data
             Hot Hb) by lia.
  set (d := take (length buf) data) in *.
  set (w1 := at_handler_call t this h buffer ot buf d w) in *.
  assert (Hfresh := next_buf_fresh w).
  assert (Hpb : next_buf w <> buffer) by congruence.
  assert (Hv1 : vectors w1 !! next_buf w = Some d).
  { subst w1. unfold at_handler_call. cbn [vectors]. apply lookup_insert_eq. }
  assert (Hod1 : objs w1 !! dest = Some od).
  { subst w1. unfold at_handler_call. cbn [objs].
    rewrite lookup_insert_ne by exact Hne. exact Hod. }
  destruct (main_handlers_run a1 a2 kw h dest (next_buf w) w1 Hh)
    as (label & ->).
  destruct (forward_Done label dest (kw w1) (next_buf w) w1 d od Hv1 Hod1)
    as (w2 & evs & -> & Htr & Hth & Hvec & Hop & Hcl & Hif).
  cbn [after_handler].
  assert (Hobjs : exists od', objs w2 = <[dest := od']> (objs w1)
                              /\ static od od').
  { destruct ((0 <=? fd_ od) && running_ od); destruct Hif as [_ Hif].
    - destruct (_ <? 0).
      + exists od. rewrite Hif, (insert_id _ _ _ Hod1).
        split; [reflexivity | apply static_refl].
      + eexists. split; [exact Hif | apply static_count_sent].
    - exists od. rewrite Hif, (insert_id _ _ _ Hod1).
      split; [reflexivity | apply static_refl]. }
  destruct Hobjs as (od' & Hobjs & Hst).
  eexists. exists (count_received (Z.of_nat (length d)) ot), od'.
  split; [reflexivity |]. simpl_w.
  split; [rewrite Hobjs; reflexivity |].
  split; [apply static_count_received |]. split; [exact Hst |].
  split; [rewrite Hth; reflexivity |].
  split.
  { rewrite Hvec. subst w1. unfold at_handler_call. cbn [vectors].
    rewrite delete_insert_id
      by (rewrite lookup_insert_ne by congruence; exact Hfresh).
    apply dom_insert_lookup_L. eauto. }
  unfold opens, closes in *. rewrite Htr, !omap_app, Hop, Hcl.
  subst w1. unfold at_handler_call. cbn [trace].
  rewrite !omap_app. cbn. rewrite !app_nil_r. split; reflexivity.
Qed.

Lemma is_Some_dom (m m' : gmap buf_id (list byte)) b :
  dom m' = dom m -> is_Some (m !! b) -> is_Some (m' !! b).
Proof. intros Hd H. apply elem_of_dom. rewrite Hd. apply elem_of_dom. exact H. Qed.

Lemma task_ok_fields this h o o' w w' :
  running_ o' = running_ o ->
  capture_thread_ o' = capture_thread_ o ->
  threads w' = threads w ->
  dom (vectors w') = dom (vectors w) ->
  task_ok this h o w -> task_ok this h o' w'.
Proof.
  intros Hr Hc Hth Hv. unfold task_ok. rewrite Hc, Hr, Hth.
  destruct (capture_thread_ o) as [t |]; [| tauto].
  intros (Hrun & pc & Ht & Hpc). split; [exact Hrun |].
  exists pc. split; [exact Ht |].
  destruct pc as [| b |]; try exact Hpc.
  eapply is_Some_dom; eassumption.
Qed.

(** The shape of the worlds of [main] depends on the interfaces only
    through their flags, their threads and their descriptors. *)
Lemma shape_update w w' o1 o2 o1' o2' :
  main_shape w o1 o2 ->
  objs w' !! interface1 = Some o1' ->
  objs w' !! interface2 = Some o2' ->
  dom (objs w') = dom (objs w) ->
  running_ o1' = running_ o1 -> capture_thread_ o1' = capture_thread_ o1 ->
  running_ o2' = running_ o2 -> capture_thread_ o2' = capture_thread_ o2 ->
  threads w' = threads w ->
  dom (vectors w') = dom (vectors w) ->
  opens (trace w') ≡ₚ closes (trace w') ++ held (fd_ o1') ++ held (fd_ o2') ->
  main_shape w' o1' o2'.
Proof.
  intros [S1 S2 Sd T1 T2 Th Ve Di Bu Ba] H1 H2 Hd Hr1 Hc1 Hr2 Hc2 Hth Hv Hba.
  split.
  - exact H1.
  - exact H2.
  - rewrite Hd. exact Sd.
  - eapply task_ok_fields; eassumption.
  - eapply task_ok_fields; eassumption.
  - rewrite Hth, Hc1, Hc2. exact Th.
  - intros b Hb. rewrite Hth. apply Ve. eapply is_Some_dom; [| exact Hb].
    symmetry. exact Hv.
  - rewrite Hc1, Hc2. exact Di.
  - rewrite Hth. exact Bu.
  - exact Hba.
Qed.

Lemma shape_static w w' o1 o2 o1' o2' :
  main_shape w o1 o2 ->
  objs w' !! interface1 = Some o1' ->
  objs w' !! interface2 = Some o2' ->
  dom (objs w') = dom (objs w) ->
  static o1 o1' -> static o2 o2' ->
  threads w' = threads w ->
  dom (vectors w') = dom (vectors w) ->
  opens (trace w') = opens (trace w) ->
  closes (trace w') = closes (trace w) ->
  main_shape w' o1' o2'.
Proof.
  intros Hs H1 H2 Hd (_ & _ & Hf1 & Hr1 & Hc1) (_ & _ & Hf2 & Hr2 & Hc2)
    Hth Hv Hop Hcl.
  apply (shape_update w w' o1 o2 o1' o2' Hs); try assumption.
  rewrite Hop, Hcl, Hf1, Hf2. apply (shape_balance _ _ _ Hs).
Qed.

(** A thread in its loop has a live scratch buffer. *)
Lemma shape_looping_live w o1 o2 t th b :
  main_shape w o1 o2 ->
  threads w !! t = Some th -> th_pc th = Looping b ->
  is_Some (vectors w !! b).
Proof.
  intros [S1 S2 Sd T1 T2 Th Ve Di Bu Ba] Ht Hpc.
  assert (Hin : is_Some (threads w !! t)) by eauto.
  destruct (Th t Hin) as [Hc | Hc].
  - unfold task_ok in T1. rewrite Hc in T1.
    destruct T1 as (_ & pc & Ht' & Hlive).
    rewrite Ht in Ht'. injection Ht' as ->. cbn in Hpc. subst pc. exact Hlive.
  - unfold task_ok in T2. rewrite Hc in T2.
    destruct T2 as (_ & pc & Ht' & Hlive).
    rewrite Ht in Ht'. injection Ht' as ->. cbn in Hpc. subst pc. exact Hlive.
Qed.

Lemma task_ok_enter_loop a g o w w1 t this h b :
  threads w !! t = Some (mkThread this h Starting) ->
  threads w1 = <[t := mkThread this h (Looping b)]> (threads w) ->
  dom (vectors w1) = {[b]} ∪ dom (vectors w) ->
  task_ok a g o w -> task_ok a g o w1.
Proof.
  intros Ht Hth Hv. unfold task_ok.
  destruct (capture_thread_ o) as [ti |]; [| tauto].
  intros (Hrun & pc & Hti & Hpc). split; [exact Hrun |].
  rewrite Hth. destruct (decide (t = ti)) as [<- | Hne].
  - rewrite Ht in Hti. injection Hti as -> -> <-.
    exists (Looping b). split; [apply lookup_insert_eq |].
    apply elem_of_dom. rewrite Hv. apply elem_of_union. left.
    apply elem_of_singleton. reflexivity.
  - exists pc. split; [rewrite lookup_insert_ne by exact Hne; exact Hti |].
    destruct pc as [| b0 |]; try exact Hpc.
    apply elem_of_dom. rewrite Hv. apply elem_of_union. right.
    apply elem_of_dom. exact Hpc.
Qed.

(** A capture thread of [main] enters its loop: it has made its scratch
    buffer. *)
Lemma shape_enter_loop w w1 o1 o2 t this h b :
  main_shape w o1 o2 ->
  threads w !! t = Some (mkThread this h Starting) ->
  vectors w !! b = None ->
  objs w1 = objs w -> trace w1 = trace w ->
  threads w1 = <[t := mkThread this h (Looping b)]> (threads w) ->
  dom (vectors w1) = {[b]} ∪ dom (vectors w) ->
  main_shape w1 o1 o2.
Proof.
  intros Hs Ht Hb Hobjs Htr Hth Hv.
  pose proof (fun t th b => shape_looping_live w o1 o2 t th b Hs) as Hlive.
  destruct Hs as [S1 S2 Sd T1 T2 Th Ve Di Bu Ba].
  split.
  - rewrite Hobjs. exact S1.
  - rewrite Hobjs. exact S2.
  - rewrite Hobjs. exact Sd.
  - eapply task_ok_enter_loop; eassumption.
  - eapply task_ok_enter_loop; eassumption.
  - intros t0. rewrite Hth. intros H0. apply Th.
    destruct (decide (t = t0)) as [<- | Hne]; [eauto |].
    rewrite lookup_insert_ne in H0 by exact Hne. exact H0.
  - intros b0 H0. apply elem_of_dom in H0. rewrite Hv in H0.
    apply elem_of_union in H0 as [H0 | H0].
    + apply elem_of_singleton in H0 as ->. exists t, (mkThread this h (Looping b)).
      rewrite Hth. split; [apply lookup_insert_eq | reflexivity].
    + apply elem_of_dom in H0. destruct (Ve b0 H0) as (t0 & th0 & Ht0 & Hpc0).
      exists t0, th0. split; [| exact Hpc0]. rewrite Hth.
      rewrite lookup_insert_ne; [exact Ht0 |].
      intros <-. rewrite Ht in Ht0. injection Ht0 as <-. discriminate Hpc0.
  - exact Di.
  - intros t1 t2 th1 th2 b0. rewrite Hth.
    destruct (decide (t = t1)) as [<- | Hn1];
      destruct (decide (t = t2)) as [<- | Hn2]; try reflexivity.
    + rewrite lookup_insert_eq, lookup_insert_ne by exact Hn2.
      intros [= <-] H2 [= <-] Hpc2. exfalso.
      destruct (Hlive t2 th2 b H2 Hpc2) as [x Hx]. congruence.
    + rewrite lookup_insert_eq, lookup_insert_ne by exact Hn1.
      intros H1 [= <-] Hpc1 [= <-]. exfalso.
      destruct (Hlive t1 th1 b H1 Hpc1) as [x Hx]. congruence.
    + rewrite !lookup_insert_ne by assumption. apply Bu.
  - rewrite Htr. exact Ba.
Qed.

(** The first step of a capture thread whose interface is running: it makes
    its scratch buffer and performs the first iteration of its loop. *)
Lemma captureThreadFunc_starting run_handler w t this h o r :
  threads w !! t = Some (mkThread this h Starting) ->
  objs w !! this = Some o ->
  running_ o = true ->
  captureThreadFunc run_handler t (Some r) w
  = capture_iteration run_handler t this h (next_buf w) r
      (mkWorld (objs w)
         (<[t := mkThread this h (Looping (next_buf w))]> (threads w))
         (<[next_buf w := replicate buffer_size x00]> (vectors w))
         (trace w)).
Proof.
  intros Ht Ho Hr. unfold captureThreadFunc, loop_head. run_m.
  rewrite Ht. cbn [th_pc th_this th_handler]. simpl_w. rewrite Ht. simpl_w.
  rewrite Ho, Hr. reflexivity.
Qed.

Lemma dom_insert_two (m : gmap addr TunTapInterface) a b x y ox oy :
  m !! a = Some ox -> m !! b = Some oy ->
  dom (<[b := y]> (<[a := x]> m)) = dom m.
Proof.
  intros Ha Hb. rewrite dom_insert_lookup_L.
  - apply dom_insert_lookup_L. eauto.
  - destruct (decide (a = b)) as [-> | Hne].
    + rewrite lookup_insert_eq. eauto.
    + rewrite lookup_insert_ne by exact Hne. eauto.
Qed.

Section MainRun.

Variable k : main_sys.

(** A step of a capture thread of [main] whose interface is running. *)
Lemma thread_step_shape w o1 o2 this dest h ot od t r :
  main_shape w o1 o2 ->
  (h = handler1 /\ dest = interface2) \/ (h = handler2 /\ dest = interface1) ->
  this <> dest ->
  objs w !! this = Some ot ->
  objs w !! dest = Some od ->
  task_ok this h ot w ->
  capture_thread_ ot = Some t ->
  exists w' ot' od',
    captureThreadFunc (handlers k) t (Some r) w = Done Continue w'
    /\ objs w' = <[dest := od']> (<[this := ot']> (objs w))
    /\ static ot ot' /\ static od od'
    /\ forall o1' o2',
         objs w' !! interface1 = Some o1' ->
         objs w' !! interface2 = Some o2' ->
         static o1 o1' -> static o2 o2' ->
         main_shape w' o1' o2'.
Proof.
  intros Hs Hh Hne Hot Hod Htask Hc.
  unfold task_ok in Htask. rewrite Hc in Htask.
  destruct Htask as (Hrun & pc & Ht & Hpc).
  destruct pc as [| b |]; [| | contradiction].
  - rewrite (captureThreadFunc_starting _ w t this h ot r Ht Hot Hrun).
    set (wA := mkWorld (objs w)
                 (<[t := mkThread this h (Looping (next_buf w))]> (threads w))
                 (<[next_buf w := replicate buffer_size x00]> (vectors w))
                 (trace w)).
    assert (HsA : main_shape wA o1 o2).
    { apply (shape_enter_loop w wA o1 o2 t this h (next_buf w) Hs Ht);
        try reflexivity; [apply next_buf_fresh |].
      subst wA. cbn [vectors]. apply dom_insert_L. }
    destruct (capture_iteration_main interface1 interface2 (k_write k) h this
                dest t (next_buf w) r wA ot od (replicate buffer_size x00)
                Hh Hne Hot Hod (lookup_insert_eq _ _ _))
      as (w' & ot' & od' & Hrun' & Hobjs & Sot & Sod & Hth & Hv & Hop & Hcl).
    exists w', ot', od'. split; [exact Hrun' |].
    split; [exact Hobjs |]. split; [exact Sot |]. split; [exact Sod |].
    intros o1' o2' H1 H2 St1 St2.
    apply (shape_static wA w' o1 o2 o1' o2' HsA H1 H2); try assumption.
    rewrite Hobjs. eapply dom_insert_two; eassumption.
  - destruct Hpc as [buf Hb].
    rewrite (captureThreadFunc_looping _ w t this h b ot r Ht Hot Hrun).
    destruct (capture_iteration_main interface1 interface2 (k_write k) h this
                dest t b r w ot od buf Hh Hne Hot Hod Hb)
      as (w' & ot' & od' & Hrun' & Hobjs & Sot & Sod & Hth & Hv & Hop & Hcl).
    exists w', ot', od'. split; [exact Hrun' |].
    split; [exact Hobjs |]. split; [exact Sot |]. split; [exact Sod |].
    intros o1' o2' H1 H2 St1 St2.
    apply (shape_static w w' o1 o2 o1' o2' Hs H1 H2); try assumption.
    rewrite Hobjs. eapply dom_insert_two; eassumption.
Qed.

Lemma interfaces_distinct : interface1 <> interface2.
Proof. discriminate. Qed.

(** Every step of the capture thread of either interface returns and keeps
    the shape. *)
Lemma capture_step_shape first r w o1 o2 :
  main_shape w o1 o2 ->
  exists w' o1' o2',
    capture_step k (if first : bool then interface1 else interface2) r w
    = Done tt w'
    /\ main_shape w' o1' o2' /\ static o1 o1' /\ static o2 o2'.
Proof.
  intros Hs. pose proof Hs as [S1 S2 _ T1 T2 _ _ _ _ _].
  unfold capture_step. destruct first.
  - unfold bind at 1, get_obj. rewrite S1.
    destruct (capture_thread_ o1) as [t |] eqn:Hc; cycle 1.
    { exists w, o1, o2. split; [reflexivity |].
      split; [exact Hs |]. split; apply static_refl. }
    destruct (thread_step_shape w o1 o2 interface1 interface2 handler1 o1 o2 t r
                Hs (or_introl (conj eq_refl eq_refl)) interfaces_distinct
                S1 S2 T1 Hc)
      as (w' & o1' & o2' & Hrun & Hobjs & St1 & St2 & Hshape).
    unfold bind. rewrite Hrun. exists w', o1', o2'.
    split; [reflexivity |]. split; [| split; assumption].
    apply Hshape; try assumption; rewrite Hobjs.
    + rewrite lookup_insert_ne by discriminate. apply lookup_insert_eq.
    + apply lookup_insert_eq.
  - unfold bind at 1, get_obj. rewrite S2.
    destruct (capture_thread_ o2) as [t |] eqn:Hc; cycle 1.
    { exists w, o1, o2. split; [reflexivity |].
      split; [exact Hs |]. split; apply static_refl. }
    destruct (thread_step_shape w o1 o2 interface2 interface1 handler2 o2 o1 t r
                Hs (or_intror (conj eq_refl eq_refl))
                (not_eq_sym interfaces_distinct) S2 S1 T2 Hc)
      as (w' & o2' & o1' & Hrun & Hobjs & St2 & St1 & Hshape).
    unfold bind. rewrite Hrun. exists w', o1', o2'.
    split; [reflexivity |]. split; [| split; assumption].
    apply Hshape; try assumption; rewrite Hobjs.
    + apply lookup_insert_eq.
    + rewrite lookup_insert_ne by discriminate. apply lookup_insert_eq.
Qed.


Lemma shape_trace w o1 o2 evs :
  main_shape w o1 o2 ->
  opens evs = [] -> closes evs = [] ->
  main_shape (with_trace (fun tr => tr ++ evs) w) o1 o2.
Proof.
  intros Hs Hop Hcl. pose proof Hs as [S1 S2 _ _ _ _ _ _ _ _].
  apply (shape_static w _ o1 o2 o1 o2 Hs); try reflexivity;
    try apply static_refl; try assumption.
  - unfold opens in *. simpl_w. rewrite omap_app, Hop, app_nil_r. reflexivity.
  - unfold closes in *. simpl_w. rewrite omap_app, Hcl, app_nil_r. reflexivity.
Qed.

Lemma print_statistics_shape title w o1 o2 :
  main_shape w o1 o2 ->
  exists evs,
    print_statistics title w = Done tt (with_trace (fun tr => tr ++ evs) w)
    /\ opens evs = [] /\ closes evs = [].
Proof.
  intros [S1 S2 _ _ _ _ _ _ _ _]. unfold print_statistics. run_m. simpl_w.
  rewrite S1. simpl_w. rewrite S2. simpl_w.
  eexists. split; [rewrite <- !app_assoc; reflexivity |].
  split; reflexivity.
Qed.

(** Every step of the other threads returns and keeps the shape. *)
Lemma run_step_shape stats s w o1 o2 :
  main_shape w o1 o2 ->
  exists w' o1' o2',
    run_step k stats s w = Done tt w'
    /\ main_shape w' o1' o2' /\ static o1 o1' /\ static o2 o2'.
Proof.
  intros Hs. destruct s as [first r |]; cbn [run_step].
  - destruct first.
    + apply (capture_step_shape true r w o1 o2 Hs).
    + apply (capture_step_shape false r w o1 o2 Hs).
  - destruct stats.
    + destruct (print_statistics_shape (nl +:+ "--- Statistics ---") w o1 o2 Hs)
        as (evs & -> & Hop & Hcl).
      eexists. exists o1, o2. split; [reflexivity |].
      split; [apply shape_trace; assumption |]. split; apply static_refl.
    + exists w, o1, o2. split; [reflexivity |].
      split; [exact Hs |]. split; apply static_refl.
Qed.

Lemma run_steps_shape stats ss w o1 o2 :
  main_shape w o1 o2 ->
  exists w' o1' o2',
    run_steps k stats ss w = Done tt w'
    /\ main_shape w' o1' o2' /\ static o1 o1' /\ static o2 o2'.
Proof.
  revert w o1 o2. induction ss as [| s ss IH]; intros w o1 o2 Hs;
    cbn [run_steps].
  - exists w, o1, o2. split; [reflexivity |].
    split; [exact Hs |]. split; apply static_refl.
  - destruct (run_step_shape stats s w o1 o2 Hs)
      as (w1 & p1 & p2 & Hrun & Hs1 & A1 & A2).
    destruct (IH w1 p1 p2 Hs1) as (w' & q1 & q2 & Hrun' & Hs' & B1 & B2).
    exists w', q1, q2. unfold bind. rewrite Hrun.
    split; [exact Hrun' |]. split; [exact Hs' |].
    split; eapply static_trans; eassumption.
Qed.


Lemma task_ok_spawn a g o w w' t this h :
  threads w !! t = None ->
  threads w' = <[t := mkThread this h Starting]> (threads w) ->
  vectors w' = vectors w ->
  task_ok a g o w -> task_ok a g o w'.
Proof.
  intros Hfresh Hth Hv. unfold task_ok.
  destruct (capture_thread_ o) as [ti |]; [| tauto].
  intros (Hrun & pc & Hti & Hpc). split; [exact Hrun |].
  exists pc. rewrite Hth, Hv. split; [| exact Hpc].
  rewrite lookup_insert_ne; [exact Hti | congruence].
Qed.

(** [startCapture] in [main]: the interface holds a descriptor and has no
    thread, so the call returns [true]. *)
Lemma startCapture_shape (first : bool) w o1 o2 :
  main_shape w o1 o2 ->
  let this := if first then interface1 else interface2 in
  let h := if first then handler1 else handler2 in
  let o := if first then o1 else o2 in
  0 <= fd_ o ->
  capture_thread_ o = None ->
  exists w' o',
    startCapture this h w = Done true w'
    /\ static (with_capture_thread (capture_thread_ o')
                 (with_running true o)) o'
    /\ is_Some (capture_thread_ o')
    /\ main_shape w' (if first then o' else o1) (if first then o2 else o').
Proof.
  intros Hs this h o Hfd Hc.
  pose proof Hs as [S1 S2 Sd T1 T2 Th Ve Di Bu Ba].
  assert (Ho : objs w !! this = Some o) by (destruct first; assumption).
  assert (Hr : running_ o = false).
  { destruct first; [pose proof T1 as T | pose proof T2 as T];
      unfold task_ok in T; subst o; rewrite Hc in T; exact T. }
  assert (Hfresh := next_tid_fresh w).
  set (t := next_tid w) in *.
  set (o' := with_capture_thread (Some t) (with_running true o)).
  set (w' := mkWorld (<[this := o']> (objs w))
               (<[t := mkThread this h Starting]> (threads w)) (vectors w)
               (trace w ++ [EvSpawn t this h;
                            EvPrint Cout ("Started packet capture on interface "
                                          +:+ name_ o)])).
  assert (Hrun : startCapture this h w = Done true w').
  { unfold startCapture, spawn, destroy_thread. run_m. rewrite Ho.
    destruct (Z.ltb_spec (fd_ o) 0) as [| _]; [lia |]. rewrite Hr, Hc.
    repeat (progress (simpl_w; rewrite ?Ho, ?lookup_insert_eq)).
    subst w' o'. unfold next_tid in *. simpl_w.
    rewrite insert_insert_eq, <- app_assoc. reflexivity. }
  exists w', o'. split; [exact Hrun |].
  split; [apply static_refl |]. split; [eexists; reflexivity |].
  assert (Hold : forall a g p, task_ok a g p w -> task_ok a g p w').
  { intros a g p. apply (task_ok_spawn a g p w w' t this h); auto. }
  assert (Hnew : task_ok this h o' w').
  { unfold task_ok. cbn. split; [reflexivity |].
    exists Starting. split; [apply lookup_insert_eq | exact I]. }
  assert (Hnot : forall p a g, task_ok a g p w -> capture_thread_ p <> Some t).
  { intros p a g Hp Hpt. unfold task_ok in Hp. rewrite Hpt in Hp.
    destruct Hp as (_ & pc & Hpc & _). congruence. }
  destruct first; subst this h o w'; split; cbn [objs threads vectors trace].
  - apply lookup_insert_eq.
  - rewrite lookup_insert_ne by discriminate. exact S2.
  - rewrite dom_insert_lookup_L by eauto. exact Sd.
  - exact Hnew.
  - apply Hold. exact T2.
  - intros t0 H0. destruct (decide (t = t0)) as [<- | Hne0].
    + left. reflexivity.
    + rewrite lookup_insert_ne in H0 by exact Hne0.
      destruct (Th t0 H0) as [H1 | H2]; [congruence | right; exact H2].
  - intros b Hb. destruct (Ve b Hb) as (t0 & th0 & Ht0 & Hpc0).
    exists t0, th0. split; [| exact Hpc0].
    rewrite lookup_insert_ne; [exact Ht0 | congruence].
  - intros t0 [= <-] H2. exact (Hnot _ _ _ T2 H2).
  - intros t1 t2 th1 th2 b.
    destruct (decide (t = t1)) as [<- | Hn1];
      [rewrite lookup_insert_eq; intros [= <-] _ Hpc; discriminate Hpc |].
    destruct (decide (t = t2)) as [<- | Hn2];
      [rewrite lookup_insert_eq; intros _ [= <-] _ Hpc; discriminate Hpc |].
    rewrite !lookup_insert_ne by assumption. apply Bu.
  - trace_lists. rewrite !app_nil_r. exact Ba.
  - rewrite lookup_insert_ne by discriminate. exact S1.
  - apply lookup_insert_eq.
  - rewrite dom_insert_lookup_L by eauto. exact Sd.
  - apply Hold. exact T1.
  - exact Hnew.
  - intros t0 H0. destruct (decide (t = t0)) as [<- | Hne0].
    + right. reflexivity.
    + rewrite lookup_insert_ne in H0 by exact Hne0.
      destruct (Th t0 H0) as [H1 | H2]; [left; exact H1 | congruence].
  - intros b Hb. destruct (Ve b Hb) as (t0 & th0 & Ht0 & Hpc0).
    exists t0, th0. split; [| exact Hpc0].
    rewrite lookup_insert_ne; [exact Ht0 | congruence].
  - intros t0 H1 [= <-]. exact (Hnot _ _ _ T1 H1).
  - intros t1 t2 th1 th2 b.
    destruct (decide (t = t1)) as [<- | Hn1];
      [rewrite lookup_insert_eq; intros [= <-] _ Hpc; discriminate Hpc |].
    destruct (decide (t = t2)) as [<- | Hn2];
      [rewrite lookup_insert_eq; intros _ [= <-] _ Hpc; discriminate Hpc |].
    rewrite !lookup_insert_ne by assumption. apply Bu.
  - trace_lists. rewrite !app_nil_r. exact Ba.
Qed.


(** [stopCapture] in [main]: the call returns, and the interface has no
    thread afterwards. *)
Lemma stopCapture_shape (first : bool) w o1 o2 :
  main_shape w o1 o2 ->
  let this := if first then interface1 else interface2 in
  let o := if first then o1 else o2 in
  exists w' o',
    stopCapture (handlers k) this [] w = Done tt w'
    /\ capture_thread_ o' = None /\ fd_ o' = fd_ o
    /\ main_shape w' (if first then o' else o1) (if first then o2 else o').
Proof.
  intros Hs this o.
  pose proof Hs as [S1 S2 Sd T1 T2 Th Ve Di Bu Ba].
  set (h := if first then handler1 else handler2).
  assert (Ho : objs w !! this = Some o) by (destruct first; assumption).
  assert (Ht : task_ok this h o w) by (destruct first; assumption).
  destruct (capture_thread_ o) as [t |] eqn:Hc; cycle 1.
  { exists w, o. split; [apply (stopCapture_no_thread _ w this o [] Ho Hc) |].
    split; [exact Hc |]. split; [reflexivity |].
    destruct first; exact Hs. }
  unfold task_ok in Ht. rewrite Hc in Ht.
  destruct Ht as (Hrun & pc & Hthr & Hpc).
  rewrite (stopCapture_joined _ w this o t (mkThread this h pc) [] Ho Hrun Hc
             Hthr eq_refl).
  cbn [th_pc].
  set (o' := with_capture_thread None (with_running false o)).
  set (vs := match pc with
             | Looping buffer => delete buffer (vectors w)
             | _ => vectors w
             end).
  set (b := match pc with Looping buffer => Some buffer | _ => None end).
  assert (Hvs : forall b0, b <> Some b0 -> vs !! b0 = vectors w !! b0).
  { intros b0 Hb0. subst vs b. destruct pc as [| b1 |]; try reflexivity.
    apply lookup_delete_ne. congruence. }
  assert (Hsub : forall b0, is_Some (vs !! b0) ->
                            is_Some (vectors w !! b0) /\ b <> Some b0).
  { intros b0 H0. subst vs b. destruct pc as [| b1 |];
      try (split; [exact H0 | discriminate]).
    destruct (decide (b1 = b0)) as [-> | Hne].
    - rewrite lookup_delete_eq in H0. destruct H0 as [? H0]. discriminate H0.
    - rewrite lookup_delete_ne in H0 by exact Hne.
      split; [exact H0 | congruence]. }
  assert (Hown : forall t0 th0 b0,
             threads w !! t0 = Some th0 -> th_pc th0 = Looping b0 ->
             b = Some b0 -> t0 = t).
  { intros t0 th0 b0 Ht0 Hpc0 Hb0. subst b.
    destruct pc as [| b1 |]; try discriminate. injection Hb0 as ->.
    eapply Bu; [exact Ht0 | exact Hthr | exact Hpc0 | reflexivity]. }
  assert (Hother : forall a g p, capture_thread_ p <> Some t ->
                     task_ok a g p w ->
                     task_ok a g p
                       (mkWorld (<[this := o']> (objs w)) (delete t (threads w))
                          vs (trace w ++ [EvJoin t;
                                EvPrint Cout
                                  ("Stopped packet capture on interface "
                                   +:+ name_ o)]))).
  { intros a g p Hp. unfold task_ok.
    destruct (capture_thread_ p) as [ti |]; [| tauto].
    intros (Hr & pci & Hti & Hpci). split; [exact Hr |].
    assert (ti <> t) by congruence.
    exists pci. cbn [threads vectors].
    split; [rewrite lookup_delete_ne by auto; exact Hti |].
    destruct pci as [| b0 |]; try exact Hpci.
    rewrite Hvs; [exact Hpci |]. intros Hb0.
    apply H. eapply Hown; [exact Hti | reflexivity | exact Hb0]. }
  assert (Hve : forall b0, is_Some (vs !! b0) ->
                  exists t0 th0, delete t (threads w) !! t0 = Some th0
                                 /\ th_pc th0 = Looping b0).
  { intros b0 H0. destruct (Hsub b0 H0) as [Hlive Hnb].
    destruct (Ve b0 Hlive) as (t0 & th0 & Ht0 & Hpc0).
    exists t0, th0. split; [| exact Hpc0].
    rewrite lookup_delete_ne; [exact Ht0 |]. intros <-.
    rewrite Hthr in Ht0. injection Ht0 as <-. cbn in Hpc0. subst pc.
    apply Hnb. reflexivity. }
  eexists. exists o'. split; [reflexivity |]. split; [reflexivity |].
  split; [reflexivity |].
  destruct first; subst this h o; split; cbn [objs threads vectors trace].
  - apply lookup_insert_eq.
  - rewrite lookup_insert_ne by discriminate. exact S2.
  - rewrite dom_insert_lookup_L by eauto. exact Sd.
  - unfold task_ok. reflexivity.
  - apply Hother; [| exact T2]. intros H2. exact (Di t Hc H2).
  - intros t0 H0. right. destruct (decide (t = t0)) as [<- | Hne0].
    + rewrite lookup_delete_eq in H0. destruct H0 as [? H0]. discriminate H0.
    + rewrite lookup_delete_ne in H0 by exact Hne0.
      destruct (Th t0 H0) as [H1 | H2]; [congruence | exact H2].
  - exact Hve.
  - intros t0 H1. discriminate H1.
  - intros t1 t2 th1 th2 b0 H1 H2.
    apply lookup_delete_Some in H1 as [_ H1].
    apply lookup_delete_Some in H2 as [_ H2]. eapply Bu; eassumption.
  - trace_lists. rewrite !app_nil_r. exact Ba.
  - rewrite lookup_insert_ne by discriminate. exact S1.
  - apply lookup_insert_eq.
  - rewrite dom_insert_lookup_L by eauto. exact Sd.
  - apply Hother; [| exact T1]. intros H1. exact (Di t H1 Hc).
  - unfold task_ok. reflexivity.
  - intros t0 H0. left. destruct (decide (t = t0)) as [<- | Hne0].
    + rewrite lookup_delete_eq in H0. destruct H0 as [? H0]. discriminate H0.
    + rewrite lookup_delete_ne in H0 by exact Hne0.
      destruct (Th t0 H0) as [H1 | H2]; [exact H1 | congruence].
  - exact Hve.
  - intros t0 _ H2. discriminate H2.
  - intros t1 t2 th1 th2 b0 H1 H2.
    apply lookup_delete_Some in H1 as [_ H1].
    apply lookup_delete_Some in H2 as [_ H2]. eapply Bu; eassumption.
  - trace_lists. rewrite !app_nil_r. exact Ba.
Qed.


(** The destructor of an interface without thread. *)
Lemma dtor_idle run_handler w this o rs :
  objs w !! this = Some o ->
  capture_thread_ o = None ->
  dtor run_handler this rs w
  = Done tt (mkWorld (delete this (objs w)) (threads w) (vectors w)
               (trace w ++ (if 0 <=? fd_ o then [EvClose (fd_ o)] else []))).
Proof.
  intros Ho Hc. unfold dtor. unfold bind at 1.
  rewrite (stopCapture_no_thread run_handler w this o rs Ho Hc).
  unfold close_device, destroy_thread. run_m. rewrite Ho.
  destruct (0 <=? fd_ o); simpl_w.
  - repeat (progress (simpl_w; rewrite ?Ho, ?lookup_insert_eq;
                      cbn [capture_thread_ with_fd])).
    rewrite Hc. simpl_w. rewrite delete_insert_eq. reflexivity.
  - rewrite Ho, Hc, app_nil_r. destruct w; reflexivity.
Qed.

Ltac perm_tac := solve_Permutation.

(** The end of the scope of the two interfaces, once neither has a thread:
    both are destroyed, and every descriptor obtained has been closed. *)
Lemma leave_shape code w o1 o2 :
  main_shape w o1 o2 ->
  capture_thread_ o1 = None ->
  capture_thread_ o2 = None ->
  exists w',
    leave k code w = Done code w'
    /\ objs w' = ∅ /\ threads w' = ∅ /\ vectors w' = ∅
    /\ opens (trace w') = opens (trace w)
    /\ closes (trace w') ≡ₚ opens (trace w').
Proof.
  intros [S1 S2 Sd T1 T2 Th Ve Di Bu Ba] H1 H2.
  assert (Hthreads : threads w = ∅).
  { apply map_empty. intros t. destruct (threads w !! t) eqn:Ht; [| reflexivity].
    destruct (Th t (mk_is_Some _ _ Ht)); congruence. }
  assert (Hvectors : vectors w = ∅).
  { apply map_empty. intros b. destruct (vectors w !! b) eqn:Hb; [| reflexivity].
    destruct (Ve b (mk_is_Some _ _ Hb)) as (t & th & Ht & _).
    rewrite Hthreads, lookup_empty in Ht. discriminate Ht. }
  unfold leave. unfold bind at 1.
  rewrite (dtor_idle _ w interface2 o2 [] S2 H2). unfold bind at 1.
  rewrite (dtor_idle _ _ interface1 o1 []); cbn [objs];
    [| rewrite lookup_delete_ne by discriminate; exact S1 | exact H1].
  eexists. split; [reflexivity |]. cbn [objs threads vectors trace].
  split.
  { apply dom_empty_inv_L. rewrite !dom_delete_L, Sd.
    apply set_eq. intros x. rewrite !elem_of_difference, elem_of_union,
      !elem_of_singleton, elem_of_empty. tauto. }
  split; [exact Hthreads |]. split; [exact Hvectors |].
  fold (held (fd_ o1)). fold (held (fd_ o2)).
  assert (Hh : forall fd, opens (if 0 <=? fd then [EvClose fd] else []) = []
                          /\ closes (if 0 <=? fd then [EvClose fd] else [])
                             = held fd).
  { intros fd. unfold held. destruct (0 <=? fd); split; reflexivity. }
  destruct (Hh (fd_ o1)) as [Ho1 Hc1]. destruct (Hh (fd_ o2)) as [Ho2 Hc2].
  unfold opens, closes in *. rewrite !omap_app, Ho1, Ho2, Hc1, Hc2, !app_nil_r.
  split; [reflexivity |]. rewrite Ba. perm_tac.
Qed.


Lemma held_negative fd : fd < 0 -> held fd = [].
Proof. unfold held. destruct (Z.leb_spec 0 fd); [lia | reflexivity]. Qed.

(** [initialize] in [main], on an interface that holds no descriptor. *)
Lemma initialize_shape (first : bool) ks w o1 o2 :
  main_shape w o1 o2 ->
  let this := if first then interface1 else interface2 in
  let o := if first then o1 else o2 in
  fd_ o < 0 ->
  exists b w' o',
    initialize this ks w = Done b w'
    /\ (b = true <-> 0 <= open_ret ks /\ 0 <= tunsetiff_ret ks
                     /\ 0 <= getfl_ret ks /\ 0 <= setfl_ret ks)
    /\ (if b then 0 <= fd_ o' else fd_ o' < 0)
    /\ capture_thread_ o' = capture_thread_ o
    /\ main_shape w' (if first then o' else o1) (if first then o2 else o').
Proof.
  intros Hs this o Hfd.
  pose proof Hs as [S1 S2 Sd _ _ _ _ _ _ Ba].
  assert (Ho : objs w !! this = Some o) by (destruct first; assumption).
  destruct (initialize_Done w this o ks Ho)
    as (b & o' & evs & Hrun & Hb & Hfd' & _ & Hr & Hc & _ & Hop & Hcl & _).
  exists b. eexists. exists o'. split; [exact Hrun |]. split; [exact Hb |].
  assert (Hfdb : if b then 0 <= fd_ o' else fd_ o' < 0).
  { destruct b; [| exact Hfd']. destruct Hfd' as [-> _]. apply Hb.
    reflexivity. }
  split; [exact Hfdb |]. split; [exact Hc |].
  assert (Hbal : forall H' : list Z,
             opens (trace w) ≡ₚ closes (trace w) ++ H' ->
             opens (trace w ++ evs)
             ≡ₚ closes (trace w ++ evs) ++ held (fd_ o') ++ H').
  { intros H' HB. unfold opens, closes in *.
    rewrite !omap_app, Hop, Hcl, HB.
    destruct b.
    - destruct Hfd' as [Hfd' _]. unfold held. rewrite Hfd'.
      assert (0 <= open_ret ks) by (apply Hb; reflexivity).
      destruct (Z.leb_spec 0 (open_ret ks)); [| lia]. perm_tac.
    - rewrite (held_negative _ Hfd'). perm_tac. }
  destruct first; subst this o;
    apply (shape_update w _ o1 o2 _ _ Hs); cbn [objs threads vectors trace];
    try reflexivity; try assumption.
  - apply lookup_insert_eq.
  - rewrite lookup_insert_ne by discriminate. exact S2.
  - apply dom_insert_lookup_L. eauto.
  - apply Hbal. rewrite Ba, (held_negative _ Hfd). reflexivity.
  - rewrite lookup_insert_ne by discriminate. exact S1.
  - apply lookup_insert_eq.
  - apply dom_insert_lookup_L. eauto.
  - assert (HB : opens (trace w) ≡ₚ closes (trace w) ++ held (fd_ o1)).
    { rewrite Ba, (held_negative _ Hfd), app_nil_r. reflexivity. }
    rewrite (Hbal _ HB). perm_tac.
Qed.

(** [configure] in [main]. *)
Lemma configure_shape (first : bool) ip mask ks w o1 o2 :
  main_shape w o1 o2 ->
  exists b w',
    configure (if first then interface1 else interface2) ip mask ks w
    = Done b w'
    /\ (b = true <-> 0 <= socket_ret ks /\ 0 <= getifflags_ret ks
                     /\ 0 <= setifflags_ret ks /\ 0 <= setifaddr_ret ks
                     /\ 0 <= setifnetmask_ret ks)
    /\ main_shape w' o1 o2.
Proof.
  intros Hs. pose proof Hs as [S1 S2 Sd _ _ _ _ _ _ Ba].
  set (this := if first then interface1 else interface2).
  set (o := if first then o1 else o2).
  assert (Ho : objs w !! this = Some o) by (destruct first; assumption).
  destruct (configure_Done w this o ip mask ks Ho)
    as (b & evs & Hrun & Hb & Hop & Hcl & _).
  exists b. eexists. split; [exact Hrun |]. split; [exact Hb |].
  apply (shape_update w _ o1 o2 o1 o2 Hs); cbn [objs threads vectors trace];
    try reflexivity; try assumption.
  unfold opens, closes in *. rewrite !omap_app, Hop, Hcl, Ba. perm_tac.
Qed.

(** The world of [main] once its two interfaces are constructed. *)
Lemma constructed_shape c1 c2 evs :
  fd_ c1 < 0 -> fd_ c2 < 0 ->
  running_ c1 = false -> running_ c2 = false ->
  capture_thread_ c1 = None -> capture_thread_ c2 = None ->
  opens evs = [] -> closes evs = [] ->
  main_shape
    (mkWorld (<[interface2 := c2]> (<[interface1 := c1]> ∅)) ∅ ∅ evs) c1 c2.
Proof.
  intros Hf1 Hf2 Hr1 Hr2 Hc1 Hc2 Hop Hcl.
  split; cbn [objs threads vectors trace].
  - rewrite lookup_insert_ne by discriminate. apply lookup_insert_eq.
  - apply lookup_insert_eq.
  - rewrite !dom_insert_L, dom_empty_L. apply set_eq. intros x.
    rewrite !elem_of_union, !elem_of_singleton, elem_of_empty. tauto.
  - unfold task_ok. rewrite Hc1. exact Hr1.
  - unfold task_ok. rewrite Hc2. exact Hr2.
  - intros t [x Hx]. rewrite lookup_empty in Hx. discriminate Hx.
  - intros b [x Hx]. rewrite lookup_empty in Hx. discriminate Hx.
  - intros t Ht. congruence.
  - intros t t' th th' b Ht. rewrite lookup_empty in Ht. discriminate Ht.
  - rewrite Hop, Hcl, !held_negative by assumption. reflexivity.
Qed.

Lemma print_shape st msg w o1 o2 :
  main_shape w o1 o2 ->
  main_shape (with_trace (fun tr => tr ++ [EvPrint st msg]) w) o1 o2.
Proof. intros Hs. apply shape_trace; [exact Hs | reflexivity | reflexivity]. Qed.

Lemma bind_eq {A B} (m : M A) (f : A -> M B) w a w1 :
  m w = Done a w1 -> bind m f w = f a w1.
Proof. intros H. unfold bind. rewrite H. reflexivity. Qed.

Lemma bind_print {B} st msg (f : M B) w :
  (print st msg ;; f) w = f (with_trace (fun tr => tr ++ [EvPrint st msg]) w).
Proof. reflexivity. Qed.

Ltac shape_print H :=
  match goal with
  | |- context [with_trace (fun tr => tr ++ [EvPrint ?s ?m]) ?w] =>
      match type of H with
      | main_shape w _ _ => apply (print_shape s m) in H
      end
  end.

Ltac shape_world H :=
  repeat shape_print H;
  match type of H with
  | main_shape ?x _ _ => let w := fresh "w" in set (w := x) in *; clearbody w
  end.

Lemma leave_released code w o1 o2 :
  main_shape w o1 o2 ->
  capture_thread_ o1 = None ->
  capture_thread_ o2 = None ->
  exists w', leave k code w = Done code w' /\ released w'.
Proof.
  intros Hs H1 H2.
  destruct (leave_shape code w o1 o2 Hs H1 H2)
    as (w' & Hrun & Ho & Ht & Hv & _ & Hp).
  exists w'. split; [exact Hrun |]. repeat split; assumption.
Qed.

(** The run of [main] from the start of the captures on. *)
Lemma main_captures (o : options) w o1 o2 :
  main_shape w o1 o2 ->
  0 <= fd_ o1 -> 0 <= fd_ o2 ->
  capture_thread_ o1 = None -> capture_thread_ o2 = None ->
  exists w',
    (ok <- startCapture interface1 handler1 ;;
      if negb ok then
        print Cerr "Failed to start capture on first interface" ;; leave k 1
      else
      run_steps k false (steps_starting k) ;;
      ok <- startCapture interface2 handler2 ;;
      if negb ok then
        print Cerr "Failed to start capture on second interface" ;; leave k 1
      else
      print Cout (nl +:+ "System is running. Try the following commands to test:") ;;
      print Cout ("  ping " +:+ opt_ip2 o +:+ " -I " +:+ opt_ip1 o) ;;
      print Cout "  Or use iperf3 for throughput testing." ;;
      print Cout ("Press Ctrl+C to stop." +:+ nl) ;;
      run_steps k true (steps_running k) ;;
      signalHandler (k_signal k) ;;
      run_steps k false (steps_stopping k) ;;
      print Cout (nl +:+ "Shutting down...") ;;
      stopCapture (handlers k) interface1 [] ;;
      run_steps k false (steps_between_stops k) ;;
      stopCapture (handlers k) interface2 [] ;;
      print_statistics (nl +:+ "--- Final Statistics ---") ;;
      print Cout "Shutdown complete." ;;
      leave k 0) w = Done 0 w'
    /\ released w'.
Proof.
  intros Hs Hf1 Hf2 Hc1 Hc2.
  destruct (startCapture_shape true w o1 o2 Hs Hf1 Hc1)
    as (wa & pa & Hrun & Sa & _ & Hsa).
  rewrite (bind_eq _ _ _ _ _ Hrun). cbn [negb]. clear Hrun.
  destruct (run_steps_shape false (steps_starting k) wa pa o2 Hsa)
    as (wb & pb & qb & Hrun & Hsb & _ & Sb).
  rewrite (bind_eq _ _ _ _ _ Hrun). clear Hrun.
  destruct Sb as (_ & _ & Sbf & _ & Sbc).
  destruct (startCapture_shape false wb pb qb Hsb) as (wc & qc & Hrun & _ & _ & Hsc).
  { cbn. rewrite Sbf. exact Hf2. }
  { cbn. rewrite Sbc. exact Hc2. }
  rewrite (bind_eq _ _ _ _ _ Hrun). cbn [negb]. clear Hrun.
  rewrite !bind_print.
  shape_world Hsc.
  destruct (run_steps_shape true (steps_running k) _ pb qc Hsc)
    as (wd & pd & qd & Hrun & Hsd & _ & _).
  rewrite (bind_eq _ _ _ _ _ Hrun). clear Hrun.
  unfold signalHandler. rewrite bind_print. shape_world Hsd.
  destruct (run_steps_shape false (steps_stopping k) _ pd qd Hsd)
    as (we & pe & qe & Hrun & Hse & _ & _).
  rewrite (bind_eq _ _ _ _ _ Hrun). clear Hrun.
  rewrite bind_print. shape_world Hse.
  destruct (stopCapture_shape true _ pe qe Hse)
    as (wf & pf & Hrun & Hcf & _ & Hsf).
  rewrite (bind_eq _ _ _ _ _ Hrun). clear Hrun.
  destruct (run_steps_shape false (steps_between_stops k) wf pf qe Hsf)
    as (wg & pg & qg & Hrun & Hsg & (_ & _ & _ & _ & Hcg) & _).
  rewrite (bind_eq _ _ _ _ _ Hrun). clear Hrun.
  destruct (stopCapture_shape false wg pg qg Hsg)
    as (wh & qh & Hrun & Hch & _ & Hsh).
  rewrite (bind_eq _ _ _ _ _ Hrun). clear Hrun.
  destruct (print_statistics_shape (nl +:+ "--- Final Statistics ---")
              wh pg qh Hsh) as (evs & Hrun & Hop & Hcl).
  rewrite (bind_eq _ _ _ _ _ Hrun). clear Hrun.
  apply (shape_trace wh pg qh evs) in Hsh; [| exact Hop | exact Hcl].
  rewrite bind_print. shape_world Hsh.
  apply (leave_released 0 _ pg qh Hsh); congruence.
Qed.


Lemma fail_released msg w o1 o2 :
  main_shape w o1 o2 ->
  capture_thread_ o1 = None ->
  capture_thread_ o2 = None ->
  exists w', (print Cerr msg ;; leave k 1) w = Done 1 w' /\ released w'.
Proof.
  intros Hs H1 H2. rewrite bind_print. shape_world Hs.
  apply (leave_released 1 _ o1 o2 Hs H1 H2).
Qed.

(** Every run of [main] returns, with nothing left. *)
Lemma main_Done p :
  exists code w',
    main k p empty_world = Done code w'
    /\ released w'
    /\ (code = 0 \/ code = 1)
    /\ (code = 0 <->
        p = ParseHelp
        \/ (exists o, p = ParseOk o)
           /\ init_ok (k_init1 k) /\ init_ok (k_init2 k)
           /\ configure_ok (k_configure1 k) /\ configure_ok (k_configure2 k)).
Proof.
  destruct p as [what | | o].
  - exists 1. eexists. split; [reflexivity |].
    split; [repeat split; reflexivity |]. split; [right; reflexivity |].
    split; [discriminate |]. intros [H | [[o H] _]]; discriminate H.
  - exists 0. eexists. split; [reflexivity |].
    split; [repeat split; reflexivity |]. split; [left; reflexivity |].
    split; [left; reflexivity | reflexivity].
  - unfold main. rewrite !bind_print.
    set (ty := if opt_tun o then TUN else TAP).
    set (c1 := mkTunTap (opt_interface1 o) ty (-1) false None 0 0 0 0).
    set (c2 := mkTunTap (opt_interface2 o) ty (-1) false None 0 0 0 0).
    unfold bind at 1. unfold TunTapInterface_ctor at 1.
    unfold empty_world. simpl_w. rewrite lookup_empty.
    unfold bind at 1. unfold TunTapInterface_ctor at 1. simpl_w.
    rewrite lookup_insert_ne by discriminate. rewrite lookup_empty.
    rewrite bind_print. simpl_w. fold c1 c2.
    match goal with
    | |- context [mkWorld _ _ _ ?evs] =>
        assert (Hs : main_shape
                       (mkWorld (<[interface2 := c2]> (<[interface1 := c1]> ∅))
                          ∅ ∅ evs) c1 c2)
          by (apply constructed_shape; (reflexivity || (cbn; lia)))
    end.
    shape_world Hs.
    assert (Hleaf : forall msg w0 p1 p2,
               main_shape w0 p1 p2 ->
               capture_thread_ p1 = None -> capture_thread_ p2 = None ->
               ~ (init_ok (k_init1 k) /\ init_ok (k_init2 k)
                  /\ configure_ok (k_configure1 k)
                  /\ configure_ok (k_configure2 k)) ->
               exists code w',
                 (print Cerr msg ;; leave k 1) w0 = Done code w'
                 /\ released w'
                 /\ (code = 0 \/ code = 1)
                 /\ (code = 0 <->
                     ParseOk o = ParseHelp
                     \/ (exists o0, ParseOk o = ParseOk o0)
                        /\ init_ok (k_init1 k) /\ init_ok (k_init2 k)
                        /\ configure_ok (k_configure1 k)
                        /\ configure_ok (k_configure2 k))).
    { intros msg w0 p1 p2 Hs0 H1 H2 Hno.
      destruct (fail_released msg w0 p1 p2 Hs0 H1 H2) as (w' & Hrun & Hrel).
      exists 1, w'. split; [exact Hrun |]. split; [exact Hrel |].
      split; [right; reflexivity |]. split; [discriminate |].
      intros [H | [_ H]]; [discriminate H | contradiction]. }
    destruct (initialize_shape true (k_init1 k) w c1 c2 Hs)
      as (b1 & w1 & p1 & Hrun & Hb1 & Hfd1 & Hc1 & Hs1); [cbn; lia |].
    rewrite (bind_eq _ _ _ _ _ Hrun). clear Hrun.
    destruct b1; cbn [negb]; cycle 1.
    { apply (Hleaf _ w1 p1 c2 Hs1 Hc1 eq_refl).
      intros (H & _). apply Hb1 in H. discriminate H. }
    destruct (initialize_shape false (k_init2 k) w1 p1 c2 Hs1)
      as (b2 & w2 & p2 & Hrun & Hb2 & Hfd2 & Hc2 & Hs2); [cbn; lia |].
    rewrite (bind_eq _ _ _ _ _ Hrun). clear Hrun.
    destruct b2; cbn [negb]; cycle 1.
    { apply (Hleaf _ w2 p1 p2 Hs2 Hc1 Hc2).
      intros (_ & H & _). apply Hb2 in H. discriminate H. }
    rewrite bind_print. shape_world Hs2.
    destruct (configure_shape true (opt_ip1 o) (opt_netmask o) (k_configure1 k)
                _ p1 p2 Hs2) as (b3 & w3 & Hrun & Hb3 & Hs3).
    rewrite (bind_eq _ _ _ _ _ Hrun). clear Hrun.
    destruct b3; cbn [negb]; cycle 1.
    { apply (Hleaf _ w3 p1 p2 Hs3 Hc1 Hc2).
      intros (_ & _ & H & _). apply Hb3 in H. discriminate H. }
    destruct (configure_shape false (opt_ip2 o) (opt_netmask o) (k_configure2 k)
                w3 p1 p2 Hs3) as (b4 & w4 & Hrun & Hb4 & Hs4).
    rewrite (bind_eq _ _ _ _ _ Hrun). clear Hrun.
    destruct b4; cbn [negb]; cycle 1.
    { apply (Hleaf _ w4 p1 p2 Hs4 Hc1 Hc2).
      intros (_ & _ & _ & H). apply Hb4 in H. discriminate H. }
    rewrite bind_print. shape_world Hs4.
    destruct (main_captures o _ p1 p2 Hs4 Hfd1 Hfd2 Hc1 Hc2)
      as (w' & Hrun & Hrel).
    exists 0, w'. split; [exact Hrun |]. split; [exact Hrel |].
    split; [left; reflexivity |]. split; [| reflexivity].
    intros _. right. split; [eexists; reflexivity |].
    split; [apply Hb1; reflexivity |]. split; [apply Hb2; reflexivity |].
    split; [apply Hb3; reflexivity | apply Hb4; reflexivity].
Qed.


(** The exit code of [main].  Every run returns once the signal has
    arrived or a step has failed, whatever the kernel answers, whatever the
    capture threads read and whenever the statistics thread wakes up.  The
    exit code is 0 when [--help] was given, and when
    the options were parsed and both interfaces could be initialized and
    configured; it is 1 otherwise.  In particular neither call of
    [startCapture] fails. *)
Theorem main_exit_code p :
  exists code w',
    main k p empty_world = Done code w'
    /\ (code = 0 \/ code = 1)
    /\ (code = 0 <->
        p = ParseHelp
        \/ (exists o, p = ParseOk o)
           /\ init_ok (k_init1 k) /\ init_ok (k_init2 k)
           /\ configure_ok (k_configure1 k) /\ configure_ok (k_configure2 k)).
Proof.
  destruct (main_Done p) as (code & w' & Hrun & _ & Hcode & Hiff).
  exists code, w'. split; [exact Hrun |]. split; [exact Hcode | exact Hiff].
Qed.

(** What [main] leaves behind, on every path to its end: no interface, no
    thread that was not joined, no vector, and no descriptor that is still
    open: the descriptors closed are, with their multiplicities, those that
    [open] and [socket] returned. *)
Theorem main_releases_everything p :
  exists code w',
    main k p empty_world = Done code w'
    /\ objs w' = ∅ /\ threads w' = ∅ /\ vectors w' = ∅
    /\ closes (trace w') ≡ₚ opens (trace w').
Proof.
  destruct (main_Done p) as (code & w' & Hrun & Hrel & _).
  exists code, w'. split; [exact Hrun | exact Hrel].
Qed.

End MainRun.

(** * main.cpp on the sample runs *)


Lemma main_handlers_forward_witness :
  let w := at_handler_call 0 interface1 handler1 0 sdr_tap0
             (replicate 2048 x00) [x04; x05] world_forwarding in
  exists w' evs,
    main_handlers interface1 interface2 kernel_accepts handler1 1 w = HReturn w'
    /\ trace w' = trace w ++ evs
    /\ writes evs = [(4, [x04; x05], 2)]
    /\ objs w' = <[interface2 := count_sent 2 sdr_tap1]> (objs w).
Proof.
  intros w.
  destruct (main_handlers_forward interface1 interface2 kernel_accepts handler1
              interface2 1 w [x04; x05] sdr_tap1)
    as (w' & evs & H & Htr & _ & _ & Hif).
  - left. split; reflexivity.
  - vm_compute. reflexivity.
  - vm_compute. reflexivity.
  - exists w', evs. split; [exact H |]. split; [exact Htr |].
    cbn in Hif. exact Hif.
Defined.

Lemma capture_iteration_forwards_witness :
  exists w' evs,
    capture_iteration (main_handlers interface1 interface2 kernel_accepts)
      0 interface1 handler1 0 (ReadOk [x04; x05]) world_forwarding
    = Done Continue w'
    /\ objs w' !! interface1 = Some (count_received 2 sdr_tap0)
    /\ objs w' !! interface2 = Some (count_sent 2 sdr_tap1)
    /\ trace w' = trace world_forwarding ++ evs
    /\ writes evs = [(4, [x04; x05], 2)].
Proof.
  destruct (capture_iteration_forwards interface1 interface2 kernel_accepts
              handler1 interface1 interface2 world_forwarding 0 0
              sdr_tap0 sdr_tap1 (replicate 2048 x00) [x04; x05])
    as (w' & evs & H & H1 & H2 & Htr & Hwr & _).
  - left. split; reflexivity.
  - discriminate.
  - vm_compute. reflexivity.
  - vm_compute. reflexivity.
  - cbn. lia.
  - reflexivity.
  - vm_compute. reflexivity.
  - cbn. lia.
  - exists w', evs. repeat split; assumption.
Defined.

(** * The descriptors *)

#[local] Instance same_fds_frame : Frame same_fds.
Proof.
  split.
  - intros w. reflexivity.
  - intros w1 w2 w3 H1 H2. unfold same_fds in *. congruence.
  - intros w f. reflexivity.
  - intros w vs. reflexivity.
  - intros w t th pc Ht. reflexivity.
Qed.

Lemma fds_insert w a o :
  fds (with_objs (insert a o) w) = <[a := fd_ o]> (fds w).
Proof. unfold fds. simpl_w. apply fmap_insert. Qed.

Lemma fds_lookup w a : fds w !! a = fd_ <$> objs w !! a.
Proof. unfold fds. apply lookup_fmap. Qed.

Lemma same_fds_updates a f :
  (forall o, fd_ (f o) = fd_ o) -> updates same_fds a f.
Proof.
  intros Hf w o Ho. unfold same_fds. rewrite fds_insert, Hf.
  apply insert_id. rewrite fds_lookup, Ho. reflexivity.
Qed.

Lemma exclusive_sub (L L' : gmap addr Z) :
  (forall b x, L' !! b = Some x -> 0 <= x -> L !! b = Some x) ->
  exclusive L -> exclusive L'.
Proof.
  intros Hsub HL a b x Hne Ha Hb.
  destruct (Z.lt_ge_cases x 0) as [Hx | Hx]; [exact Hx |].
  apply (HL a b x Hne); apply Hsub; assumption.
Qed.

Lemma exclusive_fresh (L : gmap addr Z) a y :
  (0 <= y -> forall b x, L !! b = Some x -> x <> y) ->
  exclusive L -> exclusive (<[a := y]> L).
Proof.
  intros Hy HL c d x Hne Hc Hd.
  destruct (Z.lt_ge_cases x 0) as [Hx | Hx]; [exact Hx |].
  destruct (decide (a = c)) as [<- | Hac].
  - rewrite lookup_insert_eq in Hc. injection Hc as <-.
    rewrite lookup_insert_ne in Hd by exact Hne.
    destruct (Hy Hx d y Hd). reflexivity.
  - rewrite lookup_insert_ne in Hc by exact Hac.
    destruct (decide (a = d)) as [<- | Had].
    + rewrite lookup_insert_eq in Hd. injection Hd as <-.
      destruct (Hy Hx c y Hc). reflexivity.
    + rewrite lookup_insert_ne in Hd by exact Had.
      apply (HL c d x Hne Hc Hd).
Qed.

(** A move: the destination takes the descriptor, the source gives it up. *)
Lemma exclusive_move (L : gmap addr Z) a b x :
  a <> b -> L !! b = Some x ->
  exclusive L -> exclusive (<[b := -1]> (<[a := x]> L)).
Proof.
  intros Hab Hb HL c d y Hne Hc Hd.
  destruct (Z.lt_ge_cases y 0) as [Hy | Hy]; [exact Hy |].
  assert (Hlook : forall e, <[b := -1]> (<[a := x]> L) !! e = Some y ->
                            e <> b /\ (e = a /\ y = x \/ e <> a /\ L !! e = Some y)).
  { intros e. destruct (decide (b = e)) as [<- | Hbe].
    - rewrite lookup_insert_eq. intros [= <-]. lia.
    - rewrite lookup_insert_ne by exact Hbe.
      destruct (decide (a = e)) as [<- | Hae].
      + rewrite lookup_insert_eq. intros [= <-]. split; [congruence |].
        left. split; reflexivity.
      + rewrite lookup_insert_ne by exact Hae. intros H.
        split; [congruence |]. right. split; [congruence | exact H]. }
  apply Hlook in Hc as (Hcb & [[-> ->] | [Hca Hc]]);
    apply Hlook in Hd as (Hdb & [[-> Hd] | [Hda Hd]]).
  - contradiction.
  - apply (HL d b x Hdb Hd Hb).
  - subst y. apply (HL c b x Hcb Hc Hb).
  - apply (HL c d y Hne Hc Hd).
Qed.

(** The descriptor table along a trace. *)
Lemma open_fds_snoc tr e :
  open_fds (tr ++ [e]) = open_fds_step (open_fds tr) e.
Proof. unfold open_fds. apply foldl_snoc. Qed.

Lemma open_fds_quiet tr e :
  closed e = None -> open_fds tr ⊆ open_fds (tr ++ [e]).
Proof.
  intros Hc. rewrite open_fds_snoc. unfold open_fds_step. rewrite Hc.
  destruct (opened e); set_solver.
Qed.

Lemma open_fds_kept tr evs y :
  y ∈ open_fds tr -> y ∉ closes evs -> y ∈ open_fds (tr ++ evs).
Proof.
  induction evs as [| e evs IH] using rev_ind; intros Hy Hc.
  - rewrite app_nil_r. exact Hy.
  - unfold closes in Hc. rewrite omap_app in Hc.
    apply not_elem_of_app in Hc as [Hc1 Hc2]. specialize (IH Hy Hc1).
    rewrite app_assoc, open_fds_snoc. unfold open_fds_step.
    destruct (opened e); [set_solver |].
    destruct (closed e) eqn:He; [| exact IH].
    cbn in Hc2. rewrite He in Hc2. set_solver.
Qed.

Lemma open_fds_opened tr evs y :
  y ∈ opens evs -> y ∉ closes evs -> y ∈ open_fds (tr ++ evs).
Proof.
  induction evs as [| e evs IH] using rev_ind; intros Hy Hc.
  - cbn in Hy. set_solver.
  - unfold opens in Hy. unfold closes in Hc. rewrite omap_app in Hy, Hc.
    apply not_elem_of_app in Hc as [Hc1 Hc2].
    rewrite app_assoc, open_fds_snoc. unfold open_fds_step.
    apply elem_of_app in Hy as [Hy | Hy].
    + specialize (IH Hy Hc1).
      destruct (opened e); [set_solver |].
      destruct (closed e) eqn:He; [| exact IH].
      cbn in Hc2. rewrite He in Hc2. set_solver.
    + cbn in Hy. destruct (opened e) as [x |].
      * apply list_elem_of_singleton in Hy as ->. set_solver.
      * apply not_elem_of_nil in Hy. destruct Hy.
Qed.

(** ** Computations that leave the descriptors alone *)

Lemma calm_refl w : calm w w.
Proof. split; reflexivity. Qed.

Lemma calm_trans w1 w2 w3 : calm w1 w2 -> calm w2 w3 -> calm w1 w3.
Proof.
  intros [H1 S1] [H2 S2]. split; [| set_solver].
  unfold same_fds in *. congruence.
Qed.

Lemma calm_same w w' : objs w' = objs w -> trace w' = trace w -> calm w w'.
Proof.
  intros Ho Ht. split; [| rewrite Ht; reflexivity].
  unfold same_fds, fds. rewrite Ho. reflexivity.
Qed.

Lemma calm_event w w' e :
  closed e = None -> objs w' = objs w -> trace w' = trace w ++ [e] ->
  calm w w'.
Proof.
  intros Hc Ho Ht. split; [| rewrite Ht; apply open_fds_quiet; exact Hc].
  unfold same_fds, fds. rewrite Ho. reflexivity.
Qed.

Lemma calm_update a f : (forall o, fd_ (f o) = fd_ o) -> updates calm a f.
Proof.
  intros Hf w o Ho. split; [| reflexivity].
  apply same_fds_updates; assumption.
Qed.

Lemma calm_ret {A} (a : A) : keeps calm (ret a).
Proof. intros w a' w' H. injection H as _ <-. apply calm_refl. Qed.

Lemma calm_bind {A B} (m : M A) (k : A -> M B) :
  keeps calm m -> (forall a, keeps calm (k a)) -> keeps calm (bind m k).
Proof.
  intros Hm Hk w b w' H.
  apply bind_Done in H as (a & w1 & H1 & H2).
  eapply calm_trans; [eapply Hm | eapply Hk]; eassumption.
Qed.

Lemma calm_emit e : closed e = None -> keeps calm (emit e).
Proof.
  intros Hc w a w' H. apply emit_Done in H as ->.
  apply (calm_event _ _ e Hc); reflexivity.
Qed.

Lemma calm_print st msg : keeps calm (print st msg).
Proof. apply calm_emit. reflexivity. Qed.

Lemma calm_get_obj a : keeps calm (get_obj a).
Proof.
  intros w o w' H. apply get_obj_Done in H as [-> _]. apply calm_refl.
Qed.

Lemma calm_get_thread t : keeps calm (get_thread t).
Proof.
  intros w th w'. unfold get_thread. destruct (threads w !! t); [| discriminate].
  intros H. injection H as _ <-. apply calm_refl.
Qed.

Lemma calm_set_pc t pc : keeps calm (set_pc t pc).
Proof.
  intros w u w'. unfold set_pc. destruct (threads w !! t); [| discriminate].
  intros H. injection H as _ <-. apply calm_same; reflexivity.
Qed.

Lemma calm_joinable t : keeps calm (joinable t).
Proof. intros w b w' H. injection H as _ <-. apply calm_refl. Qed.

Lemma calm_new_vector d : keeps calm (new_vector d).
Proof. intros w b w' H. injection H as _ <-. apply calm_same; reflexivity. Qed.

Lemma calm_delete_vector b : keeps calm (delete_vector b).
Proof. intros w u w' H. injection H as _ <-. apply calm_same; reflexivity. Qed.

Lemma calm_get_vector b : keeps calm (get_vector b).
Proof.
  intros w d w'. unfold get_vector. destruct (vectors w !! b); [| discriminate].
  intros H. injection H as _ <-. apply calm_refl.
Qed.

Lemma calm_set_vector b d : keeps calm (set_vector b d).
Proof.
  intros w u w'. unfold set_vector. destruct (vectors w !! b); [| discriminate].
  intros H. injection H as _ <-. apply calm_same; reflexivity.
Qed.

Lemma calm_destroy_thread p : keeps calm (destroy_thread p).
Proof.
  intros w u w' H. apply destroy_thread_Done in H as ->. apply calm_refl.
Qed.

Lemma calm_modify_obj a f :
  (forall o, fd_ (f o) = fd_ o) -> keeps calm (modify_obj a f).
Proof. intros Hf. apply keeps_modify_obj, calm_update, Hf. Qed.

Lemma calm_spawn a h : keeps calm (spawn a h).
Proof.
  intros w t w' H. injection H as _ <-.
  apply (calm_event _ _ (EvSpawn (next_tid w) a h)); reflexivity.
Qed.

Create HintDb calm discriminated.

#[local] Hint Resolve calm_ret keeps_fail calm_print calm_get_obj
  calm_get_thread calm_set_pc calm_joinable calm_new_vector calm_delete_vector
  calm_get_vector calm_set_vector calm_destroy_thread calm_spawn : calm.
#[local] Hint Extern 1 (keeps calm (emit _)) =>
  apply calm_emit; reflexivity : calm.
#[local] Hint Extern 1 (keeps calm (modify_obj _ _)) =>
  apply calm_modify_obj; intros ?; reflexivity : calm.

Ltac calm_step :=
  first
    [ solve [auto 3 with calm]
    | apply calm_bind; [| intros ?]
    | match goal with
      | |- keeps _ (if ?b then _ else _) => destruct b
      | |- keeps _ (match ?x with _ => _ end) => destruct x
      end ].

Ltac calm_auto := repeat calm_step.

Section Descriptors.

Variable run_handler : hid -> buf_id -> World -> hres.

(** The handlers leave the descriptors alone. *)
Hypothesis handler_calm :
  forall h packet w, calm w (hres_world (run_handler h packet w)).

Lemma calm_writePacket a packet k : keeps calm (writePacket a packet k).
Proof. unfold writePacket. calm_auto. Qed.

Lemma calm_call_handler t h packet :
  keeps calm (call_handler run_handler t h packet).
Proof.
  unfold call_handler. calm_auto.
  intros w u w' H. pose proof (handler_calm h packet w) as Hh.
  destruct (run_handler h packet w) as [w1 | what w1 | w1]; cbn in Hh.
  - injection H as _ <-. exact Hh.
  - eapply calm_trans; [exact Hh |]. eapply calm_print. exact H.
  - discriminate.
Qed.

Lemma calm_capture_iteration t a h buffer k :
  keeps calm (capture_iteration run_handler t a h buffer k).
Proof.
  unfold capture_iteration.
  pose proof (calm_call_handler t h) as Hcall.
  calm_auto.
Qed.

Lemma calm_captureThreadFunc t k :
  keeps calm (captureThreadFunc run_handler t k).
Proof.
  unfold captureThreadFunc, loop_head.
  pose proof (calm_capture_iteration t) as Hit.
  calm_auto.
Qed.

Lemma calm_run_to_exit t rs : keeps calm (run_to_exit run_handler t rs).
Proof.
  pose proof (calm_captureThreadFunc t) as Hstep.
  induction rs as [| r rs IH]; cbn [run_to_exit]; calm_auto.
Qed.

Lemma calm_join t rs : keeps calm (join run_handler t rs).
Proof.
  unfold join. pose proof (calm_run_to_exit t rs) as Hrun. calm_auto.
  intros w u w' H. injection H as _ <-. apply calm_same; reflexivity.
Qed.

Lemma calm_startCapture a h : keeps calm (startCapture a h).
Proof. unfold startCapture. calm_auto. Qed.

Lemma calm_stopCapture a rs : keeps calm (stopCapture run_handler a rs).
Proof.
  unfold stopCapture. pose proof (calm_join) as Hjoin. calm_auto.
Qed.


(** ** The descriptors across every operation *)

Lemma calm_descriptors w w' :
  calm w w' -> exclusive (fds w) /\ held_open w ->
  exclusive (fds w') /\ held_open w'.
Proof.
  intros [Hf Ht] [He Hh]. unfold same_fds in Hf. unfold held_open.
  rewrite Hf. split; [exact He |].
  intros a x Ha Hx. apply Ht. eapply Hh; eassumption.
Qed.

(** After the events [evs], an interface holds an open descriptor when it
    holds one that [evs] obtained or that was held before, and that [evs]
    did not close. *)
Lemma held_open_app w w' evs :
  held_open w ->
  trace w' = trace w ++ evs ->
  (forall a x, fds w' !! a = Some x -> 0 <= x ->
     (x ∉ closes evs)
     /\ (x ∈ opens evs \/ exists b, fds w !! b = Some x)) ->
  held_open w'.
Proof.
  intros Hh Ht H a x Ha Hx. rewrite Ht.
  destruct (H a x Ha Hx) as [Hc [Ho | [b Hb]]].
  - apply open_fds_opened; assumption.
  - apply open_fds_kept; [eapply Hh; eassumption | exact Hc].
Qed.

Lemma fds_mk m th vs tr : fds (mkWorld m th vs tr) = fd_ <$> m.
Proof. reflexivity. Qed.

Lemma ctor_descriptors w a name type w' :
  TunTapInterface_ctor a name type w = Done tt w' ->
  exclusive (fds w) /\ held_open w -> exclusive (fds w') /\ held_open w'.
Proof.
  unfold TunTapInterface_ctor. destruct (objs w !! a); [discriminate |].
  intros H [He Hh]. injection H as <-. unfold held_open.
  rewrite fds_insert. cbn [fd_]. simpl_w. split.
  - apply exclusive_fresh; [lia | exact He].
  - intros b x Hb Hx. destruct (decide (a = b)) as [<- | Hne].
    + rewrite lookup_insert_eq in Hb. injection Hb as <-. lia.
    + rewrite lookup_insert_ne in Hb by exact Hne. eapply Hh; eassumption.
Qed.

Lemma initialize_descriptors w this k b w' :
  open_ret k ∉ open_fds (trace w) ->
  initialize this k w = Done b w' ->
  exclusive (fds w) /\ held_open w -> exclusive (fds w') /\ held_open w'.
Proof.
  intros Hfresh H [He Hh].
  destruct (objs w !! this) as [o |] eqn:Ho.
  2: { exfalso. revert H. unfold initialize. run_m. simpl_w. rewrite Ho.
       discriminate. }
  destruct (initialize_Done w this o k Ho)
    as (b0 & o' & evs & H0 & _ & Hfd & _ & _ & _ & _ & Hop & Hcl & _).
  rewrite H0 in H. injection H as <- <-.
  assert (Hnot : forall c x, fds w !! c = Some x -> 0 <= x -> x <> open_ret k).
  { intros c x Hc Hx ->. apply Hfresh. eapply Hh; eassumption. }
  assert (Hf : forall th vs tr,
             fds (mkWorld (<[this := o']> (objs w)) th vs tr)
             = <[this := fd_ o']> (fds w)).
  { intros th vs tr. rewrite fds_mk. apply fmap_insert. }
  split.
  - rewrite Hf. apply exclusive_fresh; [| exact He].
    intros Hx c x Hc ->. destruct b0; [| lia].
    destruct Hfd as [Hfd _]. apply (Hnot c _ Hc Hx Hfd).
  - eapply (held_open_app w _ evs); [exact Hh | reflexivity |].
    intros a x Ha Hx. rewrite Hf in Ha.
    destruct (decide (this = a)) as [<- | Hne].
    + rewrite lookup_insert_eq in Ha. injection Ha as <-.
      destruct b0; [| lia]. destruct Hfd as [Hfd _]. rewrite Hcl, Hop.
      split; [apply not_elem_of_nil |]. left. rewrite Hfd in *.
      destruct (Z.leb_spec 0 (open_ret k)); [| lia].
      apply list_elem_of_singleton. reflexivity.
    + rewrite lookup_insert_ne in Ha by exact Hne.
      split; [| right; exists a; exact Ha]. rewrite Hcl.
      destruct b0; [apply not_elem_of_nil |].
      destruct (0 <=? open_ret k); [| apply not_elem_of_nil].
      intros Hin. apply list_elem_of_singleton in Hin.
      exact (Hnot a x Ha Hx Hin).
Qed.

Lemma configure_descriptors w this ip mask k b w' :
  socket_ret k ∉ open_fds (trace w) ->
  configure this ip mask k w = Done b w' ->
  exclusive (fds w) /\ held_open w -> exclusive (fds w') /\ held_open w'.
Proof.
  intros Hfresh H [He Hh].
  assert (Hf : fds w' = fds w)
    by (apply (keeps_configure same_fds this ip mask k w b w' H)).
  assert (Htr : exists evs, trace w' = trace w ++ evs
                            /\ forall x, x ∈ closes evs -> x = socket_ret k).
  { destruct (objs w !! this) as [o |] eqn:Ho.
    - destruct (configure_Done w this o ip mask k Ho)
        as (b0 & evs & H0 & _ & _ & Hcl & _).
      rewrite H0 in H. injection H as <- <-. exists evs.
      split; [reflexivity |]. rewrite Hcl.
      destruct (0 <=? socket_ret k); intros x Hx.
      + apply list_elem_of_singleton in Hx. exact Hx.
      + apply not_elem_of_nil in Hx. destruct Hx.
    - revert H. unfold configure. run_m. simpl_w.
      destruct (socket_ret k <? 0).
      + intros H. injection H as <- <-. eexists.
        split; [cbn [trace]; rewrite <- app_assoc; reflexivity |].
        cbn. intros x Hx. apply not_elem_of_nil in Hx. destruct Hx.
      + simpl_w. rewrite Ho. discriminate. }
  destruct Htr as (evs & Htr & Hcl). split; [rewrite Hf; exact He |].
  apply (held_open_app w w' evs Hh Htr). intros a x Ha Hx. rewrite Hf in Ha.
  split; [| right; exists a; exact Ha].
  intros Hin. apply Hcl in Hin. subst x. apply Hfresh. eapply Hh; eassumption.
Qed.

(** The destructor: the capture is stopped, the descriptor closed when there
    is one, and the object is gone. *)
Lemma dtor_Done w this rs w' :
  dtor run_handler this rs w = Done tt w' ->
  exists w1 o,
    stopCapture run_handler this rs w = Done tt w1
    /\ objs w1 !! this = Some o
    /\ objs w' = delete this (objs w1)
    /\ trace w' = trace w1 ++ (if 0 <=? fd_ o then [EvClose (fd_ o)] else []).
Proof.
  unfold dtor. intros H.
  apply bind_Done in H as ([] & w1 & Hstop & H).
  apply bind_Done in H as (o & wa & Hg & H).
  apply get_obj_Done in Hg as [-> Ho].
  apply bind_Done in H as (? & w2 & Hc & H).
  apply bind_Done in H as (o' & wb & Hg & H).
  apply get_obj_Done in Hg as [-> Ho'].
  apply bind_Done in H as (? & w3 & Hd & H).
  apply destroy_thread_Done in Hd as ->.
  injection H as <-. exists w1, o. split; [exact Hstop |]. split; [exact Ho |].
  destruct (0 <=? fd_ o).
  - unfold close_device in Hc.
    apply bind_Done in Hc as (o2 & wc & Hg & Hc).
    apply get_obj_Done in Hg as [-> Ho2].
    apply bind_Done in Hc as (? & wd & Hem & Hc).
    apply emit_Done in Hem as ->.
    apply modify_obj_Done in Hc as (? & _ & ->). simpl_w.
    rewrite Ho in Ho2. injection Ho2 as <-.
    split; [apply delete_insert_eq | reflexivity].
  - injection Hc as _ <-. simpl_w. rewrite app_nil_r. split; reflexivity.
Qed.

Lemma dtor_descriptors w this rs w' :
  dtor run_handler this rs w = Done tt w' ->
  exclusive (fds w) /\ held_open w -> exclusive (fds w') /\ held_open w'.
Proof.
  intros H Hok.
  destruct (dtor_Done _ _ _ _ H) as (w1 & o & Hstop & Ho & Hobjs & Htr).
  apply calm_stopCapture in Hstop.
  destruct (calm_descriptors _ _ Hstop Hok) as [He Hh].
  assert (Hf : fds w' = delete this (fds w1))
    by (unfold fds; rewrite Hobjs; apply fmap_delete).
  assert (Hthis : fds w1 !! this = Some (fd_ o))
    by (rewrite fds_lookup, Ho; reflexivity).
  split.
  - rewrite Hf. apply (exclusive_sub (fds w1)); [| exact He].
    intros b x Hb _. apply lookup_delete_Some in Hb as [_ Hb]. exact Hb.
  - apply (held_open_app w1 w' _ Hh Htr). intros a x Ha Hx. rewrite Hf in Ha.
    apply lookup_delete_Some in Ha as [Hne Ha].
    split; [| right; exists a; exact Ha].
    destruct (0 <=? fd_ o); [| apply not_elem_of_nil].
    cbn. intros Hin. apply list_elem_of_singleton in Hin. subst x.
    pose proof (He this a (fd_ o) Hne Hthis Ha). lia.
Qed.

Lemma moved_descriptors w1 w' this other o src evs :
  this <> other ->
  objs w1 !! other = Some src ->
  (forall x, x ∈ closes evs -> objs w1 !! this = Some o /\ x = fd_ o) ->
  objs w' = <[other := moved_from src]> (<[this := moved_to src]> (objs w1)) ->
  trace w' = trace w1 ++ evs ->
  exclusive (fds w1) /\ held_open w1 -> exclusive (fds w') /\ held_open w'.
Proof.
  intros Hne Hsrc Hcl Hobjs Htr [He Hh].
  assert (Hf : fds w' = <[other := -1]> (<[this := fd_ src]> (fds w1)))
    by (unfold fds; rewrite Hobjs, !fmap_insert; reflexivity).
  assert (Hother : fds w1 !! other = Some (fd_ src))
    by (rewrite fds_lookup, Hsrc; reflexivity).
  assert (Hkept : forall a x, a <> this -> fds w1 !! a = Some x -> 0 <= x ->
                              x ∉ closes evs).
  { intros a x Ha Hx Hpos Hin. apply Hcl in Hin as [Ho ->].
    assert (Hthis : fds w1 !! this = Some (fd_ o))
      by (rewrite fds_lookup, Ho; reflexivity).
    pose proof (He a this (fd_ o) Ha Hx Hthis). lia. }
  split.
  - rewrite Hf. apply exclusive_move; assumption.
  - apply (held_open_app w1 w' evs Hh Htr). intros a x Ha Hx. rewrite Hf in Ha.
    destruct (decide (other = a)) as [<- | Hoa].
    { rewrite lookup_insert_eq in Ha. injection Ha as <-. lia. }
    rewrite lookup_insert_ne in Ha by exact Hoa.
    destruct (decide (this = a)) as [<- | Hta].
    + rewrite lookup_insert_eq in Ha. injection Ha as <-.
      split; [| right; exists other; exact Hother].
      apply (Hkept other); [congruence | exact Hother | exact Hx].
    + rewrite lookup_insert_ne in Ha by exact Hta.
      split; [| right; exists a; exact Ha].
      apply (Hkept a); [congruence | exact Ha | exact Hx].
Qed.

Lemma move_ctor_descriptors w this other w' :
  move_ctor this other w = Done tt w' ->
  exclusive (fds w) /\ held_open w -> exclusive (fds w') /\ held_open w'.
Proof.
  unfold move_ctor. intros H Hok.
  apply bind_Done in H as (src & wa & Hg & H).
  apply get_obj_Done in Hg as [-> Hsrc].
  destruct (objs w !! this) as [o |] eqn:Hthis; [discriminate |].
  injection H as <-.
  apply (moved_descriptors w _ this other src src []); try assumption.
  - congruence.
  - intros x Hx. apply not_elem_of_nil in Hx. destruct Hx.
  - reflexivity.
  - simpl_w. rewrite app_nil_r. reflexivity.
Qed.

(** The move assignment between two objects: the capture of the destination
    is stopped and its descriptor closed when there is one, then the members
    are moved. *)
Lemma move_assign_trace w this other rs w' :
  this <> other ->
  move_assign run_handler this other rs w = Done tt w' ->
  exists w1 o src,
    stopCapture run_handler this rs w = Done tt w1
    /\ objs w1 !! this = Some o /\ objs w1 !! other = Some src
    /\ objs w'
       = <[other := moved_from src]> (<[this := moved_to src]> (objs w1))
    /\ trace w' = trace w1 ++ (if 0 <=? fd_ o then [EvClose (fd_ o)] else []).
Proof.
  intros Hne H. unfold move_assign in H.
  apply bind_Done in H as (? & wa & Hg & H).
  apply get_obj_Done in Hg as [-> _].
  apply bind_Done in H as (? & wa & Hg & H).
  apply get_obj_Done in Hg as [-> _].
  destruct (decide (this = other)) as [Heq | _]; [contradiction |].
  apply bind_Done in H as ([] & w1 & Hstop & H).
  apply bind_Done in H as (o & wa & Hg & H).
  apply get_obj_Done in Hg as [-> Ho].
  apply bind_Done in H as (? & wb & Hclose & H).
  apply bind_Done in H as (src & wc & Hg & H).
  apply get_obj_Done in Hg as [-> Hsrc].
  apply bind_Done in H as ([] & wd & Hd & H).
  apply destroy_thread_Done in Hd as ->.
  apply bind_Done in H as (? & we & Hm & H).
  apply modify_obj_Done in Hm as (? & _ & ->).
  apply modify_obj_Done in H as (? & _ & ->).
  assert (Hb : objs wb = objs w1
               /\ trace wb = trace w1
                             ++ (if 0 <=? fd_ o then [EvClose (fd_ o)] else [])).
  { destruct (0 <=? fd_ o).
    - apply emit_Done in Hclose as ->. split; reflexivity.
    - injection Hclose as _ <-. rewrite app_nil_r. split; reflexivity. }
  destruct Hb as (Hobjs & Htr).
  exists w1, o, src. split; [exact Hstop |]. split; [exact Ho |].
  split; [rewrite <- Hobjs; exact Hsrc |]. simpl_w. rewrite Hobjs.
  split; [reflexivity | exact Htr].
Qed.

Lemma move_assign_descriptors w this other rs w' :
  move_assign run_handler this other rs w = Done tt w' ->
  exclusive (fds w) /\ held_open w -> exclusive (fds w') /\ held_open w'.
Proof.
  intros H Hok. destruct (decide (this = other)) as [<- | Hne].
  - assert (Ho : is_Some (objs w !! this)).
    { unfold move_assign in H. apply bind_Done in H as (o & wa & Hg & _).
      apply get_obj_Done in Hg as [_ Hg]. exists o. exact Hg. }
    destruct Ho as [o Ho].
    rewrite (move_assign_self run_handler w this o rs Ho) in H.
    injection H as <-. exact Hok.
  - destruct (move_assign_trace _ _ _ _ _ Hne H)
      as (w1 & o & src & Hstop & Ho & Hsrc & Hobjs & Htr).
    apply calm_stopCapture in Hstop.
    pose proof (calm_descriptors _ _ Hstop Hok) as Hok1.
    apply (moved_descriptors w1 w' this other o src
             (if 0 <=? fd_ o then [EvClose (fd_ o)] else []) Hne Hsrc);
      try assumption.
    intros x Hx. split; [exact Ho |].
    destruct (0 <=? fd_ o).
    + apply list_elem_of_singleton in Hx. exact Hx.
    + apply not_elem_of_nil in Hx. destruct Hx.
Qed.

Lemma run_op_descriptors c w w' :
  open_fresh c w -> run_op run_handler c w = Done tt w' ->
  exclusive (fds w) /\ held_open w -> exclusive (fds w') /\ held_open w'.
Proof.
  destruct c; cbn [open_fresh run_op]; intros Hfresh H Hok.
  - eapply ctor_descriptors; eassumption.
  - apply bind_Done in H as (b & w1 & H & Hr). injection Hr as <-.
    eapply initialize_descriptors; eassumption.
  - apply bind_Done in H as (b & w1 & H & Hr). injection Hr as <-.
    eapply configure_descriptors; eassumption.
  - eapply calm_descriptors; [| exact Hok].
    eapply (keeps_unit calm); [apply calm_startCapture | exact H].
  - eapply calm_descriptors; [| exact Hok].
    eapply calm_stopCapture. exact H.
  - eapply calm_descriptors; [| exact Hok].
    eapply (keeps_unit calm); [apply calm_writePacket | exact H].
  - eapply move_ctor_descriptors; eassumption.
  - eapply move_assign_descriptors; eassumption.
  - eapply dtor_descriptors; eassumption.
  - eapply calm_descriptors; [| exact Hok].
    eapply (keeps_unit calm); [apply calm_captureThreadFunc | exact H].
Qed.

Lemma run_ops_descriptors cs w w' :
  opens_fresh run_handler cs w -> run_ops run_handler cs w = Done tt w' ->
  exclusive (fds w) /\ held_open w -> exclusive (fds w') /\ held_open w'.
Proof.
  revert w. induction cs as [| c cs IH]; intros w Hfresh H Hok.
  - injection H as <-. exact Hok.
  - cbn [run_ops] in H. destruct Hfresh as [Hc Hrest].
    apply bind_Done in H as ([] & w1 & H1 & H).
    apply (IH w1); [apply Hrest; exact H1 | exact H |].
    eapply run_op_descriptors; eassumption.
Qed.

(** The descriptors of the interfaces, whatever a program does with them
    (constructors, [initialize], [configure], [startCapture], [stopCapture],
    [writePacket], moves, destructors, while the capture threads run): as
    long as [open] and [socket] never return a descriptor that is open, and
    the packet handlers leave the descriptors alone, a descriptor that an
    interface holds is open, and no other interface holds it.  So no
    interface reads, writes or closes the device of another, and none uses a
    descriptor after [close]. *)
Theorem descriptors_exclusive cs w a oa :
  opens_fresh run_handler cs empty_world ->
  run_ops run_handler cs empty_world = Done tt w ->
  objs w !! a = Some oa -> 0 <= fd_ oa ->
  fd_ oa ∈ open_fds (trace w)
  /\ forall b ob, b <> a -> objs w !! b = Some ob -> fd_ ob <> fd_ oa.
Proof.
  intros Hfresh H Ha Hx.
  assert (H0 : exclusive (fds empty_world) /\ held_open empty_world).
  { split.
    - intros c d x _ Hc _. rewrite fds_lookup in Hc. discriminate.
    - intros c x Hc _. rewrite fds_lookup in Hc. discriminate. }
  destruct (run_ops_descriptors cs empty_world w Hfresh H H0) as [He Hh].
  assert (Hfa : fds w !! a = Some (fd_ oa))
    by (rewrite fds_lookup, Ha; reflexivity).
  split; [exact (Hh a _ Hfa Hx) |].
  intros b ob Hne Hb Heq.
  assert (Hfb : fds w !! b = Some (fd_ oa))
    by (rewrite fds_lookup, Hb; cbn; rewrite Heq; reflexivity).
  pose proof (He b a (fd_ oa) Hne Hfb Hfa). lia.
Qed.


End Descriptors.

(** The handlers of [main] leave the descriptors alone. *)
Lemma main_handlers_calm a1 a2 kw h packet w :
  calm w (hres_world (main_handlers a1 a2 kw h packet w)).
Proof.
  assert (Hf : forall label dest k, keeps calm (forward label dest k packet)).
  { intros label dest k. unfold forward, printPacketInfo.
    pose proof (calm_writePacket dest) as Hw. calm_auto. }
  unfold main_handlers.
  destruct (decide (h = handler1)); [| destruct (decide (h = handler2))].
  - destruct (forward "Interface1" a2 (kw w) packet w) as [[] w' | f] eqn:H;
      [exact (Hf _ _ _ _ _ _ H) | apply calm_refl].
  - destruct (forward "Interface2" a1 (kw w) packet w) as [[] w' | f] eqn:H;
      [exact (Hf _ _ _ _ _ _ H) | apply calm_refl].
  - apply calm_refl.
Qed.

(** ** The descriptors on the sample runs *)

Ltac next_op :=
  cbn [opens_fresh ops_reusing]; split;
  [ first [ exact I | apply (bool_decide_unpack _); vm_compute; exact I ]
  | let w1 := fresh "w" in
    let H := fresh "H" in
    intros w1 H; vm_compute in H; injection H as <- ].

Lemma descriptors_exclusive_witness :
  exists w oa,
    run_ops (main_handlers interface1 interface2 kernel_accepts) ops_reusing
      empty_world = Done tt w
    /\ objs w !! interface1 = Some oa
    /\ fd_ oa = 4
    /\ fd_ oa ∈ open_fds (trace w)
    /\ forall b ob, b <> interface1 -> objs w !! b = Some ob ->
                    fd_ ob <> fd_ oa.
Proof.
  do 2 eexists. split; [vm_compute; reflexivity |].
  split; [vm_compute; reflexivity |]. split; [reflexivity |].
  apply (descriptors_exclusive
           (main_handlers interface1 interface2 kernel_accepts)
           (main_handlers_calm interface1 interface2 kernel_accepts)
           ops_reusing).
  - unfold ops_reusing. do 10 next_op. exact I.
  - vm_compute. reflexivity.
  - vm_compute. reflexivity.
  - cbn. lia.
Defined.
